(** * Bug tracker backend: validation, sanitization, response shaping

    A shallow embedding of the backend of the bug tracker:
    - [utils/validators.js]      (field validators, [sanitizeInput], [formatBugResponse]),
    - [middleware/validation.js] (the request validation rules and [validateRequest]),
    - [controllers/bugController.js] (the record operations),
    - [routes/bugRoutes.js]      (the route table),
    - [models/Bug.js]            (the schema the storage layer enforces).

    JavaScript text is a sequence of UTF-16 code units, so a string is a
    [list N] here; [length], [slice] and [trim] then count what the
    program counts. *)

From Stdlib Require Import ZArith NArith Ascii String List Lia DecimalString.
From stdpp Require Import base decidable option list gmap strings.

Local Set Warnings "-register-all".
Local Open Scope bool_scope.
Local Open Scope list_scope.

(** ** JavaScript strings *)

Abbreviation jsstring := (list N).

(** A literal of the source, as code units. *)
Definition js (s : string) : jsstring :=
  map N_of_ascii (list_ascii_of_string s).

Definition jseqb (a b : jsstring) : bool := bool_decide (a = b).

(** WhiteSpace and LineTerminator of ECMAScript: what [String.prototype.trim]
    removes and what [\s] matches. *)
Definition is_whitespace (c : N) : bool :=
  ((9 <=? c) && (c <=? 13) || (c =? 32) || (c =? 160) || (c =? 5760)
   || (8192 <=? c) && (c <=? 8202)
   || (c =? 8232) || (c =? 8233) || (c =? 8239) || (c =? 8287)
   || (c =? 12288) || (c =? 65279))%N.

Fixpoint trimStart (s : jsstring) : jsstring :=
  match s with
  | [] => []
  | c :: r => if is_whitespace c then trimStart r else s
  end.

Definition trimEnd (s : jsstring) : jsstring := rev (trimStart (rev s)).

(** [s.trim()] *)
Definition trim (s : jsstring) : jsstring := trimEnd (trimStart s).

(** '<' is 60 and '>' is 62. *)
Definition is_angle (c : N) : bool := ((c =? 60) || (c =? 62))%N.

(** [s.replace(/[<>]/g, '')] *)
Definition strip_angle (s : jsstring) : jsstring :=
  List.filter (fun c => negb (is_angle c)) s.

(** [s.slice(0, n)] for a non-negative [n]. *)
Definition slice0 (n : nat) (s : jsstring) : jsstring := take n s.

(** [a.join(sep)] on an array of strings. *)
Fixpoint join (sep : jsstring) (l : list jsstring) : jsstring :=
  match l with
  | [] => []
  | [x] => x
  | x :: r => x ++ sep ++ join sep r
  end.

(** ** JavaScript values

    The values a JSON payload, a stored document and a response are made
    of.  Numbers are the integers (time stamps, counts, status codes);
    objects are finite maps from property names to values. *)

Inductive JsValue : Type :=
| JUndefined
| JNull
| JBool (b : bool)
| JNum (n : Z)
| JStr (s : jsstring)
| JArr (l : list JsValue)
| JObj (o : gmap string JsValue).

Abbreviation Obj := (gmap string JsValue).

(** Property read [o.k]: [undefined] when the property is absent. *)
Definition get (o : Obj) (k : string) : JsValue := default JUndefined (o !! k).

(** ToBoolean: what [if (v)], [!v] and [v || d] test. *)
Definition truthy (v : JsValue) : bool :=
  match v with
  | JUndefined | JNull => false
  | JBool b => b
  | JNum n => negb (n =? 0)%Z
  | JStr s => match s with [] => false | _ => true end
  | JArr _ | JObj _ => true
  end.

(** [a || b] *)
Definition js_or (a b : JsValue) : JsValue := if truthy a then a else b.

(** ** utils/validators.js *)

(** Strict equality on the values [Array.prototype.includes] is used with
    here: a string matches the same string, nothing else matches a string. *)
Definition includes (l : list jsstring) (v : JsValue) : bool :=
  match v with
  | JStr s => existsb (jseqb s) l
  | _ => false
  end.

Definition validStatuses : list jsstring :=
  [js "open"; js "in-progress"; js "resolved"; js "closed"].

Definition validPriorities : list jsstring :=
  [js "low"; js "medium"; js "high"; js "critical"].

Definition isValidStatus (status : JsValue) : bool := includes validStatuses status.

Definition isValidPriority (priority : JsValue) : bool := includes validPriorities priority.

Definition sanitizeInput (input : JsValue) : JsValue :=
  match input with
  | JStr s => JStr (slice0 1000 (strip_angle (trim s)))
  | _ => input
  end.

Definition meetsMinLength (str : JsValue) (minLength : nat) : bool :=
  match str with
  | JStr s => (minLength <=? length (trim s))%nat
  | _ => false
  end.

Definition formatBugResponse (bug : Obj) : Obj :=
  <["id" := get bug "_id"]>
  (<["title" := get bug "title"]>
  (<["description" := get bug "description"]>
  (<["status" := get bug "status"]>
  (<["priority" := get bug "priority"]>
  (<["reporter" := get bug "reporter"]>
  (<["assignedTo" := get bug "assignedTo"]>
  (<["tags" := get bug "tags"]>
  (<["createdAt" := get bug "createdAt"]>
  (<["updatedAt" := get bug "updatedAt"]> ∅))))))))).

(** ** More of JavaScript's primitives *)

(** Decimal rendering of an integer, [String(n)].  The numbers of this
    model are the integers a JavaScript number holds exactly (those of
    absolute value at most 2^53 - 1), which [String] renders in full; a
    number with a fraction, or one beyond that range, which [String] would
    render rounded or with an exponent, is not a value of the model. *)
Definition decimal (n : Z) : jsstring :=
  match n with
  | Z0 => js "0"
  | _ => js (NilEmpty.string_of_int (Z.to_int n))
  end.

(** [String(v)].  An array renders its elements separated by commas, with
    [null] and [undefined] elements rendered empty; a plain object renders
    as [[object Object]]. *)
Fixpoint ToString (v : JsValue) : jsstring :=
  match v with
  | JUndefined => js "undefined"
  | JNull => js "null"
  | JBool true => js "true"
  | JBool false => js "false"
  | JNum n => decimal n
  | JStr s => s
  | JArr l =>
      join (js ",")
        (List.map (fun e => match e with
                            | JUndefined | JNull => []
                            | _ => ToString e
                            end) l)
  | JObj _ => js "[object Object]"
  end.

(** [a === b] on primitive values.  Two arrays or two objects are equal
    only when they are the same reference, which a value of this model
    does not carry: they compare unequal. *)
Definition strict_eq (a b : JsValue) : bool :=
  match a, b with
  | JUndefined, JUndefined => true
  | JNull, JNull => true
  | JBool x, JBool y => bool_decide (x = y)
  | JNum x, JNum y => (x =? y)%Z
  | JStr x, JStr y => jseqb x y
  | _, _ => false
  end.

(** An object literal [{ k1: v1, k2: v2, ... }]. *)
Definition obj (l : list (string * JsValue)) : Obj := list_to_map l.

(** ** Errors

    [AppError] is the application's error class, [new AppError(message,
    statusCode)], as the README gives it ([middleware/errorHandler.js] is
    not among the sources).  Any other error object carries a [name], a
    [message] and, for the storage layer's validation error, the per-path
    [errors] in the order [Object.values] lists them. *)

Record ErrorObject := {
  name : jsstring;
  message : jsstring;
  errors : list (string * jsstring)
}.

Inductive JsError :=
| AppError (msg : jsstring) (statusCode : Z)
| Thrown (e : ErrorObject).

(** ** The storage layer: models/Bug.js on the document store

    The storage collaborator is the object-document mapper with the schema
    of [models/Bug.js].  What is modelled of it: a value given for a path is
    cast to the type of the path (a number or a boolean becomes its text,
    an object with a text [_id] that is not empty becomes that text, any
    other object and an array do not cast to a text), a text is trimmed where
    the schema says [trim], and the validators of the path run in the
    order [required], [minlength], [maxlength], [enum].  On [create] every
    failure, also a failed cast, is collected in one error named
    [ValidationError]; on an update a failed cast is thrown at once as a
    [CastError] and the validators run because the caller asks for
    [runValidators].  The text of a cast failure is abridged here. *)

Record StringOptions := {
  required : option jsstring;
  trimmed_on_set : bool;
  minlength : option (nat * jsstring);
  maxlength : option (nat * jsstring);
  enum : option (list jsstring);
  default_value : option jsstring
}.

Inductive SchemaType :=
| SString (o : StringOptions)
| SStringArray (trim_items : bool).

(** The paths of [bugSchema] a caller can set.  [createdAt] and
    [updatedAt] are written by the storage layer itself ([timestamps]). *)
Definition bugSchema : list (string * SchemaType) :=
  [ ("title", SString {| required := Some (js "Bug title is required");
                         trimmed_on_set := true;
                         minlength := Some (3, js "Title must be at least 3 characters");
                         maxlength := Some (200, js "Title cannot exceed 200 characters");
                         enum := None; default_value := None |});
    ("description", SString {| required := Some (js "Bug description is required");
                         trimmed_on_set := true;
                         minlength := Some (10, js "Description must be at least 10 characters");
                         maxlength := None;
                         enum := None; default_value := None |});
    ("status", SString {| required := None; trimmed_on_set := false;
                         minlength := None; maxlength := None;
                         enum := Some validStatuses;
                         default_value := Some (js "open") |});
    ("priority", SString {| required := None; trimmed_on_set := false;
                         minlength := None; maxlength := None;
                         enum := Some validPriorities;
                         default_value := Some (js "medium") |});
    ("reporter", SString {| required := Some (js "Reporter name is required");
                         trimmed_on_set := true;
                         minlength := None; maxlength := None;
                         enum := None; default_value := None |});
    ("assignedTo", SString {| required := None; trimmed_on_set := true;
                         minlength := None; maxlength := None;
                         enum := None; default_value := None |});
    ("tags", SStringArray true) ].

(** Casting a value to the type of a schema path; [None] is a failed cast. *)
Definition castString (trim_it : bool) (v : JsValue) : option JsValue :=
  let set s := Some (JStr (if trim_it then trim s else s)) in
  match v with
  | JUndefined => Some JUndefined
  | JNull => Some JNull
  | JStr s => set s
  | JNum _ | JBool _ => set (ToString v)
  | JObj o =>
      match o !! "_id" with
      | Some (JStr (c :: s)) => set (c :: s)
      | _ => None
      end
  | JArr _ => None
  end.

Fixpoint castItems (trim_it : bool) (l : list JsValue) : option (list JsValue) :=
  match l with
  | [] => Some []
  | e :: r =>
      match castString trim_it e, castItems trim_it r with
      | Some e', Some r' => Some (e' :: r')
      | _, _ => None
      end
  end.

Definition castPath (t : SchemaType) (v : JsValue) : option JsValue :=
  match t with
  | SString o => castString (trimmed_on_set o) v
  | SStringArray tr =>
      match v with
      | JUndefined => Some JUndefined
      | JNull => Some JNull
      | JArr l => JArr <$> castItems tr l
      | _ => JArr <$> castItems tr [v]
      end
  end.

Definition castMessage (path : string) : jsstring :=
  js "Cast failed at path " ++ js path.

Definition enumMessage (path : string) (v : jsstring) : jsstring :=
  [96%N] ++ v ++ [96%N] ++ js " is not a valid enum value for path " ++
  [96%N] ++ js path ++ [96%N] ++ js ".".

(** The validators of a string path, in the order the schema runs them:
    [required] first, then [minlength], [maxlength], [enum].  The first
    one that fails gives the path's message. *)
Definition validateString (o : StringOptions) (path : string) (v : JsValue)
  : option jsstring :=
  let missing := match v with
                 | JUndefined | JNull | JStr [] => true
                 | _ => false
                 end in
  match required o, missing with
  | Some msg, true => Some msg
  | _, _ =>
      match v with
      | JStr s =>
          match minlength o with
          | Some (n, msg) => if (length s <? n)%nat then Some msg else None
          | None => None
          end
          ∪ match maxlength o with
            | Some (n, msg) => if (n <? length s)%nat then Some msg else None
            | None => None
            end
          ∪ match enum o with
            | Some values => if existsb (jseqb s) values then None
                             else Some (enumMessage path s)
            | None => None
            end
      | _ => None
      end
  end.

Definition validatePath (t : SchemaType) (path : string) (v : JsValue)
  : option jsstring :=
  match t with
  | SString o => validateString o path v
  | SStringArray _ => None
  end.

Definition defaultOf (t : SchemaType) : JsValue :=
  match t with
  | SString o => from_option JStr JUndefined (default_value o)
  | SStringArray _ => JArr []
  end.

(** *** The collection and the calls made on it *)

Inductive StorageCall :=
| Find (filter : Obj) (sort : JsValue)
| FindById (id : JsValue)
| Create (data : Obj)
| FindByIdAndUpdate (id : JsValue) (updates : Obj) (new runValidators : bool)
| FindByIdAndDelete (id : JsValue)
| Aggregate (groupBy : string).

(** The query language of the store, where this development does not spell
    it out.  [condition path v] is what the store makes of a filter
    condition [v] on [path] that is not a text (an array, an object of
    operators): it refuses it with an error, or reads it as a test of the
    value a document has at the path.  [ordering v] is what it makes of a
    sort argument that is not a plain sort specification: an error, or an
    order of documents. *)
Record QueryLanguage := {
  condition : string -> JsValue -> ErrorObject + (JsValue -> bool);
  ordering : JsValue -> ErrorObject + (Obj -> Obj -> comparison)
}.

(** The world a request runs in: the stored documents in insertion order,
    the clock ([Date.now()]), the serial number of the next identifier, the
    storage calls made so far (latest first), and what the storage
    collaborator will answer to the coming calls: [Some e] is a call that
    fails with [e] for reasons of its own (connection lost, time-out, ...),
    [None] or no entry a call that is served.  [latency] is the time the
    coming saves take between the construction of a document and the hook
    that runs before it is written (no entry: no time); [language] is the
    query language of the store. *)
Record World := {
  collection : list Obj;
  clock : Z;
  serial : N;
  calls : list StorageCall;
  faults : list (option ErrorObject);
  latency : list N;
  language : QueryLanguage
}.

Definition set_collection (c : list Obj) (w : World) : World :=
  {| collection := c; clock := clock w; serial := serial w;
     calls := calls w; faults := faults w;
     latency := latency w; language := language w |}.

Definition next_serial (w : World) : World :=
  {| collection := collection w; clock := clock w; serial := N.succ (serial w);
     calls := calls w; faults := faults w;
     latency := latency w; language := language w |}.

(** Entering a storage call: it is recorded, time passes, and the next
    answer of the collaborator is consumed. *)
Definition enter (c : StorageCall) (w : World) : World :=
  {| collection := collection w; clock := (clock w + 1)%Z; serial := serial w;
     calls := c :: calls w; faults := tail (faults w);
     latency := latency w; language := language w |}.

(** The time a save takes before its hook runs. *)
Definition lag (w : World) : Z := Z.of_N (hd 0%N (latency w)).

Definition pass (w : World) : World :=
  {| collection := collection w; clock := (clock w + lag w)%Z; serial := serial w;
     calls := calls w; faults := faults w;
     latency := tail (latency w); language := language w |}.

(** *** Computations that read and write the world and may throw *)

Inductive Result (A : Type) :=
| Ok (a : A)
| Throw (e : ErrorObject).
Arguments Ok {A} a.
Arguments Throw {A} e.

Definition M (A : Type) : Type := World -> Result A * World.

#[global] Instance M_ret : MRet M := fun A a w => (Ok a, w).

#[global] Instance M_bind : MBind M := fun A B f m w =>
  match m w with
  | (Ok a, w') => f a w'
  | (Throw e, w') => (Throw e, w')
  end.

Definition throw {A} (e : ErrorObject) : M A := fun w => (Throw e, w).

(** [try { m } catch (error) { h error }] *)
Definition try_catch {A} (m : M A) (h : ErrorObject -> M A) : M A := fun w =>
  match m w with
  | (Ok a, w') => (Ok a, w')
  | (Throw e, w') => h e w'
  end.

(** A call on the model [Bug]. *)
Definition storage {A} (c : StorageCall) (op : M A) : M A := fun w =>
  match faults w with
  | Some e :: _ => (Throw e, enter c w)
  | _ => op (enter c w)
  end.

(** *** Identifiers *)

Definition is_hex (c : N) : bool :=
  ((48 <=? c) && (c <=? 57) || (65 <=? c) && (c <=? 70) || (97 <=? c) && (c <=? 102))%N.

Definition lower_hex (c : N) : N :=
  if ((65 <=? c) && (c <=? 70))%N then (c + 32)%N else c.

(** The primary-key syntax: 24 hexadecimal digits. *)
Definition isObjectIdSyntax (s : jsstring) : bool :=
  (length s =? 24)%nat && forallb is_hex s.

Definition hex_digit (n : N) : N := if (n <? 10)%N then (48 + n)%N else (87 + n)%N.

Fixpoint hex (digits : nat) (n : N) : jsstring :=
  match digits with
  | O => []
  | S d => hex d (n / 16)%N ++ [hex_digit (n mod 16)%N]
  end.

(** The identifier the store gives to its [n]-th new document. *)
Definition objectId (n : N) : jsstring := hex 24 n.

Definition castError (path : string) : ErrorObject :=
  {| name := js "CastError"; message := castMessage path; errors := [] |}.

Definition validationError (errs : list (string * jsstring)) : ErrorObject :=
  {| name := js "ValidationError";
     message := js "Bug validation failed: " ++ join (js ", ") (List.map snd errs);
     errors := errs |}.

Definition typeError : ErrorObject :=
  {| name := js "TypeError";
     message := js "Cannot read properties of null";
     errors := [] |}.

(** Casting a value to an identifier: a text of the primary-key syntax,
    read without regard to the case of its digits. *)
Definition castObjectId (v : JsValue) : option jsstring :=
  match v with
  | JStr s => if isObjectIdSyntax s then Some (List.map lower_hex s) else None
  | _ => None
  end.

(** The document bears the identifier [id]: [id] is an identifier of the
    store, and it is the [_id] of the document.  (The store compares
    identifiers, never a text that is not one.) *)
Definition has_id (id : jsstring) (doc : Obj) : bool :=
  isObjectIdSyntax id && strict_eq (get doc "_id") (JStr id).

(** *** Queries

    A filter gives, for a path, the condition the documents listed meet.
    A condition that is a text is met by the documents whose value at the
    path is that text.  Any other condition is read by the query language
    of the store. *)

Definition test_of (q : QueryLanguage) (path : string) (v : JsValue)
  : ErrorObject + (Obj -> bool) :=
  match v with
  | JStr _ => inr (fun doc => strict_eq (get doc path) v)
  | _ =>
      match condition q path v with
      | inl e => inl e
      | inr f => inr (fun doc => f (get doc path))
      end
  end.

Fixpoint compile_filter (q : QueryLanguage) (l : list (string * JsValue))
  : ErrorObject + (Obj -> bool) :=
  match l with
  | [] => inr (fun _ => true)
  | (path, v) :: r =>
      match test_of q path v, compile_filter q r with
      | inl e, _ => inl e
      | inr _, inl e => inl e
      | inr f, inr g => inr (fun doc => f doc && g doc)
      end
  end.

(** The order of values of different kinds, then within a kind. *)
Definition kind_rank (v : JsValue) : Z :=
  match v with
  | JUndefined | JNull => 0
  | JNum _ => 1
  | JStr _ => 2
  | JObj _ => 3
  | JArr _ => 4
  | JBool _ => 5
  end%Z.

Fixpoint compare_text (a b : jsstring) : comparison :=
  match a, b with
  | [], [] => Eq
  | [], _ :: _ => Lt
  | _ :: _, [] => Gt
  | x :: a', y :: b' =>
      match (x ?= y)%N with
      | Eq => compare_text a' b'
      | c => c
      end
  end.

Definition compare_values (a b : JsValue) : comparison :=
  match (kind_rank a ?= kind_rank b)%Z with
  | Eq =>
      match a, b with
      | JNum x, JNum y => (x ?= y)%Z
      | JStr x, JStr y => compare_text x y
      | JBool x, JBool y => Bool.compare x y
      | _, _ => Eq
      end
  | c => c
  end.

(** The value of the property whose name is the text [name]. *)
Definition get_named (doc : Obj) (name : jsstring) : JsValue :=
  match List.filter (fun kv => jseqb (js (fst kv)) name) (map_to_list doc) with
  | kv :: _ => snd kv
  | [] => JUndefined
  end.

(** Splitting a sort specification at its spaces. *)
Fixpoint words (s : jsstring) (cur : jsstring) : list jsstring :=
  match s with
  | [] => match cur with [] => [] | _ => [cur] end
  | c :: r =>
      if (c =? 32)%N
      then match cur with [] => words r [] | _ => cur :: words r [] end
      else words r (cur ++ [c])
  end.

(** One key of a sort specification: [-path] is descending. *)
Definition compare_by (key : jsstring) (a b : Obj) : comparison :=
  match key with
  | 45%N :: path => CompOpp (compare_values (get_named a path) (get_named b path))
  | path => compare_values (get_named a path) (get_named b path)
  end.

Fixpoint compare_docs (keys : list jsstring) (a b : Obj) : comparison :=
  match keys with
  | [] => Eq
  | k :: r => match compare_by k a b with
              | Eq => compare_docs r a b
              | c => c
              end
  end.

(** A sort specification that names its keys one by one: keys separated
    by single spaces, none at the ends, each key a name or [-] and a
    name. *)
Definition plain_sort (s : jsstring) : bool :=
  (length (words s []) =? S (length (List.filter (N.eqb 32) s)))%nat
  && forallb (fun k => negb (jseqb k [45%N])) (words s []).

(** The order a sort argument asks for: that of its keys if it is a plain
    sort specification; what the query language makes of it otherwise. *)
Definition order_of (q : QueryLanguage) (sort : JsValue)
  : ErrorObject + (Obj -> Obj -> comparison) :=
  match sort with
  | JStr s => if plain_sort s then inr (compare_docs (words s [])) else ordering q sort
  | _ => ordering q sort
  end.

Fixpoint insert_sorted (cmp : Obj -> Obj -> comparison) (d : Obj) (l : list Obj) : list Obj :=
  match l with
  | [] => [d]
  | x :: r => match cmp d x with
              | Gt => x :: insert_sorted cmp d r
              | _ => d :: l
              end
  end.

Definition sort_docs (cmp : Obj -> Obj -> comparison) (l : list Obj) : list Obj :=
  foldr (insert_sorted cmp) [] l.

(** [$group] by one path with [{ $sum: 1 }]: one group per value met, in
    the order the values are first met; a document without the path falls
    in the group of [null]. *)
Fixpoint add_to_group (v : JsValue) (groups : list (JsValue * Z)) : list (JsValue * Z) :=
  match groups with
  | [] => [(v, 1%Z)]
  | (g, n) :: r => if strict_eq g v then (g, (n + 1)%Z) :: r
                   else (g, n) :: add_to_group v r
  end.

Definition group_key (doc : Obj) (path : string) : JsValue :=
  match get doc path with
  | JUndefined => JNull
  | v => v
  end.

Definition group_count (path : string) (docs : list Obj) : list (JsValue * Z) :=
  fold_left (fun groups doc => add_to_group (group_key doc path) groups) docs [].

Definition group_object (g : JsValue * Z) : JsValue :=
  JObj (obj [("_id", fst g); ("count", JNum (snd g))]).

(** *** The operations of the model [Bug] *)

(** What a caller's value for a path becomes in a new document. *)
Definition incoming (data : Obj) (path : string) (t : SchemaType) : JsValue :=
  match get data path with
  | JUndefined => defaultOf t
  | v => v
  end.

Definition path_error (path : string) (t : SchemaType) (v : JsValue)
  : option (string * jsstring) :=
  match castPath t v with
  | None => Some (path, castMessage path)
  | Some v' => pair path <$> validatePath t path v'
  end.

Definition document_errors (data : Obj) : list (string * jsstring) :=
  omap (fun pt => path_error (fst pt) (snd pt) (incoming data (fst pt) (snd pt)))
       bugSchema.

Definition set_path (path : string) (t : SchemaType) (v : JsValue) (doc : Obj) : Obj :=
  match castPath t v with
  | Some JUndefined | None => doc
  | Some v' => <[path := v']> doc
  end.

Definition new_document (data : Obj) (id : jsstring) (now : Z) : Obj :=
  foldr (fun pt doc => set_path (fst pt) (snd pt) (incoming data (fst pt) (snd pt)) doc)
        (obj [("_id", JStr id); ("createdAt", JNum now); ("updatedAt", JNum now);
              ("__v", JNum 0)])
        bugSchema.

(** The hook [bugSchema.pre('save', ...)]: it stamps [updatedAt] with the
    time at which it runs. *)
Definition pre_save (now : Z) (doc : Obj) : Obj := <["updatedAt" := JNum now]> doc.

(** [Bug.create(data)]: the document is constructed, with its defaults and
    the time of its construction; it is validated; the hook runs, at a time
    that is not before the construction; the document is written. *)
Definition Bug_create (data : Obj) : M Obj :=
  storage (Create data) (fun w =>
    match document_errors data with
    | [] =>
        let doc := new_document data (objectId (serial w)) (clock w) in
        let w := pass w in
        let doc := pre_save (clock w) doc in
        (Ok doc, next_serial (set_collection (collection w ++ [doc]) w))
    | errs => (Throw (validationError errs), w)
    end).

(** [Bug.findById(id)]: [None] is [null]. *)
Definition Bug_findById (id : JsValue) : M (option Obj) :=
  storage (FindById id) (fun w =>
    match castObjectId id with
    | Some oid => (Ok (List.find (has_id oid) (collection w)), w)
    | None => (Throw (castError "_id"), w)
    end).

(** The paths an update sets: those of the schema the update object holds
    a value for. *)
Definition update_paths (updates : Obj) : list (string * SchemaType * JsValue) :=
  omap (fun pt => match get updates (fst pt) with
                  | JUndefined => None
                  | v => Some (fst pt, snd pt, v)
                  end) bugSchema.

Fixpoint cast_updates (l : list (string * SchemaType * JsValue))
  : string + list (string * SchemaType * JsValue) :=
  match l with
  | [] => inr []
  | (path, t, v) :: r =>
      match castPath t v with
      | None => inl path
      | Some v' =>
          match cast_updates r with
          | inl p => inl p
          | inr r' => inr ((path, t, v') :: r')
          end
      end
  end.

Definition update_errors (l : list (string * SchemaType * JsValue))
  : list (string * jsstring) :=
  omap (fun ptv => pair (fst (fst ptv)) <$> validatePath (snd (fst ptv)) (fst (fst ptv)) (snd ptv)) l.

Definition apply_updates (l : list (string * SchemaType * JsValue)) (now : Z) (doc : Obj) : Obj :=
  <["updatedAt" := JNum now]>
    (foldr (fun ptv d => <[fst (fst ptv) := snd ptv]> d) doc l).

(** Rewriting the first document that satisfies [p]. *)
Fixpoint update_first (p : Obj -> bool) (f : Obj -> Obj) (l : list Obj)
  : option (Obj * Obj * list Obj) :=
  match l with
  | [] => None
  | d :: r =>
      if p d then Some (d, f d, f d :: r)
      else match update_first p f r with
           | Some (old, new, r') => Some (old, new, d :: r')
           | None => None
           end
  end.

(** [Bug.findByIdAndUpdate(id, updates, { new, runValidators })] *)
Definition Bug_findByIdAndUpdate (id : JsValue) (updates : Obj)
    (new runValidators : bool) : M (option Obj) :=
  storage (FindByIdAndUpdate id updates new runValidators) (fun w =>
    match castObjectId id with
    | None => (Throw (castError "_id"), w)
    | Some oid =>
    match cast_updates (update_paths updates) with
    | inl path => (Throw (castError path), w)
    | inr sets =>
        match (if runValidators then update_errors sets else []) with
        | [] =>
            match update_first (has_id oid) (apply_updates sets (clock w)) (collection w) with
            | Some (old, changed, c') =>
                (Ok (Some (if new then changed else old)), set_collection c' w)
            | None => (Ok None, w)
            end
        | errs => (Throw (validationError errs), w)
        end
    end
    end).

Fixpoint remove_first (p : Obj -> bool) (l : list Obj) : option (Obj * list Obj) :=
  match l with
  | [] => None
  | d :: r =>
      if p d then Some (d, r)
      else match remove_first p r with
           | Some (x, r') => Some (x, d :: r')
           | None => None
           end
  end.

(** [Bug.findByIdAndDelete(id)] *)
Definition Bug_findByIdAndDelete (id : JsValue) : M (option Obj) :=
  storage (FindByIdAndDelete id) (fun w =>
    match castObjectId id with
    | None => (Throw (castError "_id"), w)
    | Some oid =>
        match remove_first (has_id oid) (collection w) with
        | Some (d, c') => (Ok (Some d), set_collection c' w)
        | None => (Ok None, w)
        end
    end).

(** [Bug.find(filter).sort(sort)] *)
Definition Bug_find (filter : Obj) (sort : JsValue) : M (list Obj) :=
  storage (Find filter sort) (fun w =>
    match compile_filter (language w) (map_to_list filter), order_of (language w) sort with
    | inl e, _ => (Throw e, w)
    | inr _, inl e => (Throw e, w)
    | inr test, inr cmp => (Ok (sort_docs cmp (List.filter test (collection w))), w)
    end).

(** [Bug.aggregate([{ $group: { _id: '$path', count: { $sum: 1 } } }])] *)
Definition Bug_aggregate (path : string) : M (list JsValue) :=
  storage (Aggregate path) (fun w =>
    (Ok (List.map group_object (group_count path (collection w))), w)).

(** ** Requests, responses and middleware *)

Inductive Method := GET | POST | PUT | DELETE.

#[global] Instance Method_eq_dec : EqDecision Method.
Proof. solve_decision. Defined.

(** A path below the mount point of the router: [/] or [/:segment]. *)
Inductive Path :=
| Root
| Segment (s : jsstring).

(** The router matches the text of a route without regard to the case of
    its letters ([express.Router()] is not case sensitive): [/STATS] is the
    stats route. *)
Definition lower_ascii (c : N) : N :=
  if ((65 <=? c) && (c <=? 90))%N then (c + 32)%N else c.

Definition is_stats (s : jsstring) : bool :=
  jseqb (List.map lower_ascii s) (js "stats").

(** A request.  [query] is the parsed query string: a parameter is a text
    or, when it is repeated or written with brackets, an array or an
    object; [body] is the parsed JSON payload; [validation_errors] are the
    messages the validation chains have recorded on the request so far. *)
Record Request := {
  method : Method;
  path : Path;
  params : Obj;
  query : Obj;
  body : Obj;
  validation_errors : list jsstring
}.

(** What a handler does with a request: answer it, or hand over to
    [next()], with an error ([next(err)]) or without. *)
Inductive Outcome :=
| Respond (status : Z) (json : Obj)
| Next (err : option JsError).

Inductive Step :=
| Continue (req : Request) (w : World)
| Finish (o : Outcome) (w : World).

Definition Middleware : Type := Request -> World -> Step.

(** ** The validation library, as middleware/validation.js uses it *)

Module ExpressValidator.

Inductive Location := InBody | InParams.

(** The standard validators the rules use. *)
Inductive StandardValidator :=
| IsEmpty
| IsLength (min : nat) (max : option nat)
| IsIn (values : list jsstring)
| IsMongoId.

Inductive ChainItem :=
| Optional
| Sanitize_trim
| Standard (v : StandardValidator) (negated : bool) (message : jsstring)
| Custom_isArray (message : jsstring).

Record ValidationChain := {
  location : Location;
  field : string;
  stack : list ChainItem
}.

(** The text a standard validator or sanitizer sees for a value. *)
Definition toString (v : JsValue) : jsstring :=
  match v with
  | JUndefined | JNull => []
  | _ => ToString v
  end.

Definition is_high_surrogate (c : N) : bool := ((55296 <=? c) && (c <=? 56319))%N.
Definition is_low_surrogate (c : N) : bool := ((56320 <=? c) && (c <=? 57343))%N.
Definition is_variation_selector (c : N) : bool := ((c =? 65038) || (c =? 65039))%N.

Fixpoint surrogate_pairs (s : jsstring) : nat :=
  match s with
  | a :: t =>
      match t with
      | b :: r => if is_high_surrogate a && is_low_surrogate b
                  then S (surrogate_pairs r) else surrogate_pairs t
      | [] => 0
      end
  | [] => 0
  end.

(** The length [isLength] measures: code units, a surrogate pair counted
    once and the variation selectors U+FE0E, U+FE0F not counted. *)
Definition measured_length (s : jsstring) : nat :=
  length s - length (List.filter is_variation_selector s) - surrogate_pairs s.

(** [isHexadecimal], the pattern [/^(0x|0h)?[0-9A-F]+$/i]: hexadecimal
    digits, at least one, after an optional prefix [0x] or [0h]. *)
Definition hex_digits (s : jsstring) : bool :=
  match s with
  | [] => false
  | _ => forallb is_hex s
  end.

Definition isHexadecimal (s : jsstring) : bool :=
  hex_digits s
  || match s with
     | z :: p :: r =>
         (z =? 48)%N && ((p =? 120) || (p =? 88) || (p =? 104) || (p =? 72))%N
         && hex_digits r
     | _ => false
     end.

(** [isMongoId(str)]: [isHexadecimal(str) && str.length === 24].  A text
    of 24 code units that starts with [0x] or [0h] passes it, though it is
    not an identifier of the store. *)
Definition is_mongo_id (s : jsstring) : bool :=
  isHexadecimal s && (length s =? 24)%nat.

Definition validate (v : StandardValidator) (s : jsstring) : bool :=
  match v with
  | IsEmpty => (length s =? 0)%nat
  | IsLength min max =>
      (min <=? measured_length s)%nat
      && match max with
         | Some m => (measured_length s <=? m)%nat
         | None => true
         end
  | IsIn values => existsb (jseqb s) values
  | IsMongoId => is_mongo_id s
  end.

(** A field holding an array is validated and sanitized item by item. *)
Definition items_of (value : JsValue) : list JsValue :=
  match value with
  | JArr l => l
  | _ => [value]
  end.

Definition is_optional (c : ValidationChain) : bool :=
  existsb (fun i => match i with Optional => true | _ => false end) (stack c).

(** One item of a chain, on the current value of the field: a sanitizer
    replaces the value, a validator records its message once for each
    item that fails.  Nothing stops at the first failure.  In an
    [optional] chain an [undefined] field is skipped. *)
Definition run_item (opt : bool) (st : JsValue * list jsstring) (item : ChainItem)
  : JsValue * list jsstring :=
  let (value, errs) := st in
  if opt && strict_eq value JUndefined then st else
  match item with
  | Optional => st
  | Sanitize_trim =>
      (match value with
       | JArr l => JArr (List.map (fun e => JStr (trim (toString e))) l)
       | _ => JStr (trim (toString value))
       end, errs)
  | Standard v negated msg =>
      (value,
       errs ++ List.map (fun _ => msg)
                 (List.filter (fun e => Bool.eqb (validate v (toString e)) negated)
                              (items_of value)))
  | Custom_isArray msg =>
      (value, match value with JArr _ => errs | _ => errs ++ [msg] end)
  end.

Definition source (l : Location) (req : Request) : Obj :=
  match l with
  | InBody => body req
  | InParams => params req
  end.

Definition run_stack (c : ValidationChain) (value : JsValue) : JsValue * list jsstring :=
  fold_left (run_item (is_optional c)) (stack c) (value, []).

(** A sanitized value is written back on the request; the messages are
    added to those the request carries. *)
Definition run (c : ValidationChain) (req : Request) : Request :=
  let value := get (source (location c) req) (field c) in
  let (value', errs) := run_stack c value in
  let written := if strict_eq value value' then source (location c) req
                 else <[field c := value']> (source (location c) req) in
  {| method := method req; path := path req;
     params := match location c with InParams => written | InBody => params req end;
     query := query req;
     body := match location c with InBody => written | InParams => body req end;
     validation_errors := validation_errors req ++ errs |}.

Definition middleware (c : ValidationChain) : Middleware :=
  fun req w => Continue (run c req) w.

(** [validationResult(req).array().map(err => err.msg)] *)
Definition validationResult (req : Request) : list jsstring := validation_errors req.

(** The builders, with the message [withMessage] attaches. *)
Definition body (f : string) (items : list ChainItem) : ValidationChain :=
  {| location := InBody; field := f; stack := items |}.
Definition param (f : string) (items : list ChainItem) : ValidationChain :=
  {| location := InParams; field := f; stack := items |}.
Definition optional : ChainItem := Optional.
Definition trim : ChainItem := Sanitize_trim.
Definition notEmpty (msg : string) : ChainItem := Standard IsEmpty true (js msg).
Definition isLength (min : nat) (max : option nat) (msg : string) : ChainItem :=
  Standard (IsLength min max) false (js msg).
Definition isIn (values : list string) (msg : string) : ChainItem :=
  Standard (IsIn (List.map js values)) false (js msg).
Definition isMongoId (msg : string) : ChainItem := Standard IsMongoId false (js msg).
Definition isArray (msg : string) : ChainItem := Custom_isArray (js msg).

End ExpressValidator.

#[global] Instance Location_eq_dec : EqDecision ExpressValidator.Location.
Proof. solve_decision. Defined.

(** ** middleware/validation.js *)

Module Validation.
Import ExpressValidator.

(** Validation rules for creating a bug *)
Definition createBugValidation : list ValidationChain :=
  [ body "title"
      [ trim;
        notEmpty "Title is required";
        isLength 3 (Some 200) "Title must be 3-200 characters" ];
    body "description"
      [ trim;
        notEmpty "Description is required";
        isLength 10 None "Description must be at least 10 characters" ];
    body "priority"
      [ optional;
        isIn ["low"; "medium"; "high"; "critical"] "Invalid priority" ];
    body "reporter"
      [ trim;
        notEmpty "Reporter name is required" ];
    body "assignedTo"
      [ optional;
        trim ];
    body "tags"
      [ optional;
        isArray "Tags must be an array" ] ].

(** Validation rules for updating a bug *)
Definition updateBugValidation : list ValidationChain :=
  [ body "title"
      [ optional;
        trim;
        isLength 3 (Some 200) "Title must be 3-200 characters" ];
    body "description"
      [ optional;
        trim;
        isLength 10 None "Description must be at least 10 characters" ];
    body "status"
      [ optional;
        isIn ["open"; "in-progress"; "resolved"; "closed"] "Invalid status" ];
    body "priority"
      [ optional;
        isIn ["low"; "medium"; "high"; "critical"] "Invalid priority" ];
    body "assignedTo"
      [ optional;
        trim ];
    body "tags"
      [ optional;
        isArray "Tags must be an array" ] ].

(** Validation rule for bug ID parameter *)
Definition bugIdValidation : list ValidationChain :=
  [ param "id" [ isMongoId "Invalid bug ID format" ] ].

(** Middleware to check validation results *)
Definition validateRequest : Middleware := fun req w =>
  let errors := validationResult req in
  match errors with
  | [] => Continue req w
  | errorMessages => Finish (Next (Some (AppError (join (js ", ") errorMessages) 400))) w
  end.

End Validation.

(** ** controllers/bugController.js *)

Definition query_param (req : Request) (k : string) : JsValue := get (query req) k.

Definition forward (error : ErrorObject) : M Outcome :=
  mret (Next (Some (Thrown error))).

(** The [catch] of [createBug] and [updateBug]. *)
Definition handle_validation_error (error : ErrorObject) : M Outcome :=
  if jseqb (name error) (js "ValidationError")
  then
    let errors := List.map snd (errors error) in
    mret (Next (Some (AppError (join (js ", ") errors) 400)))
  else forward error.

Definition not_found : Outcome := Next (Some (AppError (js "Bug not found") 404)).

Definition getAllBugs (req : Request) : M Outcome :=
  try_catch
    (let status := query_param req "status" in
     let priority := query_param req "priority" in
     let sortBy := match query_param req "sortBy" with
                   | JUndefined => JStr (js "-createdAt")
                   | v => v
                   end in
     let query : Obj := ∅ in
     let query := if truthy status then <["status" := status]> query else query in
     let query := if truthy priority then <["priority" := priority]> query else query in
     bugs ← Bug_find query sortBy;
     mret (Respond 200
             (obj [("success", JBool true);
                   ("count", JNum (Z.of_nat (length bugs)));
                   ("data", JArr (List.map (fun b => JObj (formatBugResponse b)) bugs))])))
    forward.

Definition getBugById (req : Request) : M Outcome :=
  try_catch
    (bug ← Bug_findById (get (params req) "id");
     match bug with
     | None => mret not_found
     | Some bug =>
         mret (Respond 200
                 (obj [("success", JBool true);
                       ("data", JObj (formatBugResponse bug))]))
     end)
    forward.

(** The [bugData] of [createBug]: the inputs, sanitized. *)
Definition bugData (b : Obj) : Obj :=
  obj [("title", sanitizeInput (get b "title"));
       ("description", sanitizeInput (get b "description"));
       ("status", js_or (get b "status") (JStr (js "open")));
       ("priority", js_or (get b "priority") (JStr (js "medium")));
       ("reporter", sanitizeInput (get b "reporter"));
       ("assignedTo", if truthy (get b "assignedTo")
                      then sanitizeInput (get b "assignedTo")
                      else JUndefined);
       ("tags", js_or (get b "tags") (JArr []))].

Definition createBug (req : Request) : M Outcome :=
  try_catch
    (let bugData := bugData (body req) in
     bug ← Bug_create bugData;
     mret (Respond 201
             (obj [("success", JBool true);
                   ("data", JObj (formatBugResponse bug))])))
    handle_validation_error.

(** The update object of [updateBug]: only the provided fields. *)
Definition build_updates (b : Obj) : Obj :=
  let updates : Obj := ∅ in
  let updates := if truthy (get b "title")
                 then <["title" := sanitizeInput (get b "title")]> updates else updates in
  let updates := if truthy (get b "description")
                 then <["description" := sanitizeInput (get b "description")]> updates
                 else updates in
  let updates := if truthy (get b "status")
                 then <["status" := get b "status"]> updates else updates in
  let updates := if truthy (get b "priority")
                 then <["priority" := get b "priority"]> updates else updates in
  let updates := if negb (strict_eq (get b "assignedTo") JUndefined)
                 then <["assignedTo" := sanitizeInput (get b "assignedTo")]> updates
                 else updates in
  let updates := if truthy (get b "tags")
                 then <["tags" := get b "tags"]> updates else updates in
  updates.

Definition updateBug (req : Request) : M Outcome :=
  try_catch
    (bug ← Bug_findById (get (params req) "id");
     match bug with
     | None => mret not_found
     | Some _ =>
         let updates := build_updates (body req) in
         updatedBug ← Bug_findByIdAndUpdate (get (params req) "id") updates true true;
         match updatedBug with
         | None => throw typeError
         | Some updatedBug =>
             mret (Respond 200
                     (obj [("success", JBool true);
                           ("data", JObj (formatBugResponse updatedBug))]))
         end
     end)
    handle_validation_error.

Definition deleteBug (req : Request) : M Outcome :=
  try_catch
    (bug ← Bug_findById (get (params req) "id");
     match bug with
     | None => mret not_found
     | Some _ =>
         _ ← Bug_findByIdAndDelete (get (params req) "id");
         mret (Respond 200
                 (obj [("success", JBool true);
                       ("message", JStr (js "Bug deleted successfully"))]))
     end)
    forward.

Definition getBugStats (req : Request) : M Outcome :=
  try_catch
    (stats ← Bug_aggregate "status";
     priorityStats ← Bug_aggregate "priority";
     mret (Respond 200
             (obj [("success", JBool true);
                   ("data", JObj (obj [("byStatus", JArr stats);
                                       ("byPriority", JArr priorityStats)]))])))
    forward.

(** ** routes/bugRoutes.js *)

(** A controller as the last middleware of a route. *)
Definition controller (c : Request -> M Outcome) : Middleware := fun req w =>
  match c req w with
  | (Ok o, w') => Finish o w'
  | (Throw e, w') => Finish (Next (Some (Thrown e))) w'
  end.

(** An array of validation chains, each of them a middleware. *)
Definition chains (rules : list ExpressValidator.ValidationChain) : list Middleware :=
  List.map ExpressValidator.middleware rules.

(** The route table.  The stats route comes before the [:id] route, so
    [GET /stats] never reaches [getBugById]; the router compares the path
    with [/stats] without regard to case. *)
Definition router (m : Method) (p : Path) : option (list Middleware) :=
  match m, p with
  | GET, Segment s =>
      if is_stats s then Some [controller getBugStats]
      else Some (chains Validation.bugIdValidation
                 ++ [Validation.validateRequest; controller getBugById])
  | GET, Root => Some [controller getAllBugs]
  | POST, Root =>
      Some (chains Validation.createBugValidation
            ++ [Validation.validateRequest; controller createBug])
  | PUT, Segment _ =>
      Some (chains Validation.bugIdValidation
            ++ chains Validation.updateBugValidation
            ++ [Validation.validateRequest; controller updateBug])
  | DELETE, Segment _ =>
      Some (chains Validation.bugIdValidation
            ++ [Validation.validateRequest; controller deleteBug])
  | _, _ => None
  end.

Fixpoint run_middleware (stack : list Middleware) (req : Request) (w : World)
  : Outcome * World :=
  match stack with
  | [] => (Next None, w)
  | m :: rest =>
      match m req w with
      | Continue req' w' => run_middleware rest req' w'
      | Finish o w' => (o, w')
      end
  end.

(** The request as the router hands it to a route: the [:id] segment bound
    in [params], no validation message recorded yet. *)
Definition routed (req : Request) : Request :=
  {| method := method req; path := path req;
     params := match path req with
               | Segment s => <["id" := JStr s]> (params req)
               | Root => params req
               end;
     query := query req; body := body req; validation_errors := [] |}.

Definition handle (req : Request) (w : World) : Outcome * World :=
  match router (method req) (path req) with
  | Some stack => run_middleware stack (routed req) w
  | None => (Next None, w)
  end.

(** Modelled from the spec: the error-handling middleware
    ([middleware/errorHandler.js]) is not among the sources.  Following
    section 7 of the specification and the README ([err.statusCode || 500]),
    an error that carries a status code is reported with it and any other
    error is a server error; a request no route answers is not found. *)
Definition errorHandler (o : Outcome) : Z :=
  match o with
  | Respond status _ => status
  | Next (Some (AppError _ statusCode)) => if (statusCode =? 0)%Z then 500 else statusCode
  | Next (Some (Thrown _)) => 500
  | Next None => 404
  end.

(** ** Notions the properties are stated with *)

(** The validation rules the route table puts in front of a route. *)
Definition rules_of (m : Method) (p : Path) : list ExpressValidator.ValidationChain :=
  match m, p with
  | GET, Segment s => if is_stats s then [] else Validation.bugIdValidation
  | POST, Root => Validation.createBugValidation
  | PUT, Segment _ => Validation.bugIdValidation ++ Validation.updateBugValidation
  | DELETE, Segment _ => Validation.bugIdValidation
  | _, _ => []
  end.

(** The record operation at the end of a route that has validation rules. *)
Definition controller_of (m : Method) : Request -> M Outcome :=
  match m with
  | GET => getBugById
  | POST => createBug
  | PUT => updateBug
  | DELETE => deleteBug
  end.

(** A request that bears a record identifier: [GET], [PUT] or [DELETE] on
    [/:id] (and [GET /stats], in whatever case, is not one). *)
Definition id_request (req : Request) (id : jsstring) : Prop :=
  path req = Segment id
  /\ (method req = GET /\ is_stats id = false \/ method req = PUT \/ method req = DELETE).

(** The value a rule looks at. *)
Definition field_value (c : ExpressValidator.ValidationChain) (req : Request) : JsValue :=
  get (ExpressValidator.source (ExpressValidator.location c) req) (ExpressValidator.field c).

(** The messages of one rule on a request, and of all the rules of the
    request's route, rule after rule. *)
Definition rule_violations (c : ExpressValidator.ValidationChain) (req : Request)
  : list jsstring :=
  snd (ExpressValidator.run_stack c (field_value c req)).

Definition violations (req : Request) : list jsstring :=
  concat (List.map (fun c => rule_violations c (routed req))
                   (rules_of (method req) (path req))).

(** Does this item of a rule reject this value of the field? *)
Definition item_violated (opt : bool) (item : ExpressValidator.ChainItem) (value : JsValue)
  : bool :=
  negb (opt && strict_eq value JUndefined)
  && match item with
     | ExpressValidator.Standard v negated _ =>
         existsb (fun e => Bool.eqb (ExpressValidator.validate v (ExpressValidator.toString e))
                                    negated)
                 (ExpressValidator.items_of value)
     | ExpressValidator.Custom_isArray _ =>
         match value with JArr _ => false | _ => true end
     | _ => false
     end.

Definition item_message (item : ExpressValidator.ChainItem) : jsstring :=
  match item with
  | ExpressValidator.Standard _ _ msg | ExpressValidator.Custom_isArray msg => msg
  | _ => []
  end.

(** The value of the field when the [n]-th item of the rule runs: what the
    items before it have made of it. *)
Definition value_at (c : ExpressValidator.ValidationChain) (value : JsValue) (n : nat)
  : JsValue :=
  fst (fold_left (ExpressValidator.run_item (ExpressValidator.is_optional c))
                 (take n (ExpressValidator.stack c)) (value, [])).

(** The request as it leaves the validation rules of its route. *)
Definition validated (req : Request) : Request :=
  fold_left (fun r c => ExpressValidator.run c r)
            (rules_of (method req) (path req)) (routed req).

(** The storage collaborator serves the next call. *)
Definition served (w : World) : Prop :=
  match faults w with
  | Some _ :: _ => False
  | _ => True
  end.

(** A string that does not start with white space. *)
Definition no_lead (s : jsstring) : Prop :=
  match s with
  | [] => True
  | c :: _ => is_whitespace c = false
  end.

(** A string with no white space at either end: a fixed point of [trim]. *)
Definition trimmed (s : jsstring) : Prop := no_lead s /\ no_lead (rev s).

Definition no_angle (s : jsstring) : Prop :=
  forallb (fun c => negb (is_angle c)) s = true.

(** The storage collaborator rejects a create or an update: the call of
    [createBug], or one of the two calls of [updateBug], throws [e] and
    leaves the world [w']. *)
Inductive rejected : (Request -> M Outcome) -> Request -> World -> ErrorObject -> World -> Prop :=
| rejected_create req w e w' :
    Bug_create (bugData (body req)) w = (Throw e, w') ->
    rejected createBug req w e w'
| rejected_lookup req w e w' :
    Bug_findById (get (params req) "id") w = (Throw e, w') ->
    rejected updateBug req w e w'
| rejected_update req w bug w1 e w' :
    Bug_findById (get (params req) "id") w = (Ok (Some bug), w1) ->
    Bug_findByIdAndUpdate (get (params req) "id") (build_updates (body req)) true true w1
    = (Throw e, w') ->
    rejected updateBug req w e w'.

(** A value [===] compares by content: everything but arrays and objects. *)
Definition primitive (v : JsValue) : Prop := strict_eq v v = true.

(** The number of documents of a collection whose [path] has the value [v]. *)
Definition count_docs (path : string) (v : JsValue) (docs : list Obj) : Z :=
  Z.of_nat (length (List.filter (fun d => strict_eq (group_key d path) v) docs)).

(** The groups of a grouping that are groups of the value [v]. *)
Definition groups_of (v : JsValue) (groups : list (JsValue * Z)) : list (JsValue * Z) :=
  List.filter (fun g => strict_eq (fst g) v) groups.

(** Every stored document has its status and its priority in the
    enumerations, as the schema requires of what it stores. *)
Definition schema_ok (docs : list Obj) : Prop :=
  forallb (fun d => isValidStatus (get d "status") && isValidPriority (get d "priority"))
          docs = true.

(** A status outside the enumeration, as the update rule sees it: the text
    of the value, or of one of its items if it is an array, is none of the
    four. *)
Definition outside_statuses (v : JsValue) : bool :=
  existsb (fun e => negb (existsb (jseqb (ExpressValidator.toString e)) validStatuses))
          (ExpressValidator.items_of v).

(** A query parameter that is a text, not empty, and outside an enumeration. *)
Definition outside (values : list jsstring) (param : JsValue) : Prop :=
  exists s, param = JStr s /\ s <> [] /\ existsb (jseqb s) values = false.


(** What identifies a rule: where it looks and at which field. *)
Definition rule_key (c : ExpressValidator.ValidationChain)
  : ExpressValidator.Location * string :=
  (ExpressValidator.location c, ExpressValidator.field c).

(** The rule on the identifier, and the rule of the update on the status. *)
Definition id_rule : ExpressValidator.ValidationChain :=
  ExpressValidator.param "id" [ExpressValidator.isMongoId "Invalid bug ID format"].

Definition status_rule : ExpressValidator.ValidationChain :=
  ExpressValidator.body "status"
    [ExpressValidator.optional;
     ExpressValidator.isIn ["open"; "in-progress"; "resolved"; "closed"] "Invalid status"].

(** The fields the response formatter copies. *)
Definition copied_fields : list string :=
  ["title"; "description"; "status"; "priority"; "reporter"; "assignedTo"; "tags";
   "createdAt"; "updatedAt"].

(** The text of the first pass. *)
Definition text_of (v : JsValue) : jsstring :=
  match v with JStr s => s | _ => [] end.

(** A well-formed identifier no sample record bears. *)
Definition absent_id : jsstring := js "507f1f77bcf86cd799439011".

(** A text of 24 code units that is not an identifier of the store: the
    prefix [0x] and 22 hexadecimal digits. *)
Definition prefixed_id : jsstring := js "0x7f1f77bcf86cd799439011".

(** The sum of the counts of the groups of [v]. *)
Fixpoint tally (v : JsValue) (groups : list (JsValue * Z)) : Z :=
  match groups with
  | [] => 0
  | g :: r => if strict_eq (fst g) v then snd g + tally v r else tally v r
  end%Z.

(** What holds of a grouping under construction: a value has at most
    one group, and every count is positive. *)
Definition well_grouped (groups : list (JsValue * Z)) : Prop :=
  (forall v, length (groups_of v groups) <= 1)
  /\ Forall (fun g => (0 < snd g)%Z) groups.

(** The first element of [byStatus] in a stats answer. *)
Definition first_status_group (o : Outcome) : Obj :=
  match o with
  | Respond _ json =>
      match get json "data" with
      | JObj data =>
          match get data "byStatus" with
          | JArr (JObj g :: _) => g
          | _ => ∅
          end
      | _ => ∅
      end
  | _ => ∅
  end.

(** The filter [getAllBugs] builds from the query parameters. *)
Definition list_filter (req : Request) : Obj :=
  let q : Obj := ∅ in
  let q := if truthy (query_param req "status")
           then <["status" := query_param req "status"]> q else q in
  if truthy (query_param req "priority")
  then <["priority" := query_param req "priority"]> q else q.

(** The sort argument [getAllBugs] passes on: [sortBy], by default
    [-createdAt]. *)
Definition list_sort (req : Request) : JsValue :=
  match query_param req "sortBy" with
  | JUndefined => JStr (js "-createdAt")
  | v => v
  end.

(** The store accepts the query of a list request: it reads every
    condition of the filter and the sort argument. *)
Definition accepted (w : World) (req : Request) : Prop :=
  (exists test, compile_filter (language w) (map_to_list (list_filter req)) = inr test)
  /\ (exists cmp, order_of (language w) (list_sort req) = inr cmp).

(** A query of texts: the status and the priority are texts or absent, and
    [sortBy] is absent or a plain sort specification. *)
Definition text_or_absent (v : JsValue) : Prop := v = JUndefined \/ exists s, v = JStr s.

Definition text_query (req : Request) : Prop :=
  text_or_absent (get (query req) "status")
  /\ text_or_absent (get (query req) "priority")
  /\ (get (query req) "sortBy" = JUndefined
      \/ exists s, get (query req) "sortBy" = JStr s /\ plain_sort s = true).

(** The records a list request asks for with parameters that are texts:
    those with the status asked for and with the priority asked for (a
    parameter that is absent or empty asks for nothing). *)
Definition asked_for (req : Request) (b : Obj) : bool :=
  forallb (fun k => match get (query req) k with
                    | JStr (c :: s) => strict_eq (get b k) (JStr (c :: s))
                    | _ => true
                    end) ["status"; "priority"].

(** The [count] member of a list answer. *)
Definition count_member (o : Outcome) : JsValue :=
  match o with
  | Respond _ json => get json "count"
  | _ => JUndefined
  end.

(** The schema path a triple of an update is about. *)
Definition path_of (ptv : string * SchemaType * JsValue) : string := fst (fst ptv).

(** The title and the status a world stores for its first record. *)
Definition first_record (w : World) (k : string) : JsValue :=
  match collection w with
  | d :: _ => get d k
  | [] => JUndefined
  end.

(** ** Regular expressions, for [isValidEmail]

    A pattern without captures or look-around, tested against a whole
    text ([^...$]): the test is decided by taking derivatives. *)

Inductive Regex :=
| RNone
| REps
| RClass (p : N -> bool)
| RSeq (a b : Regex)
| RAlt (a b : Regex)
| RStar (a : Regex).

(** [r+] *)
Definition RPlus (r : Regex) : Regex := RSeq r (RStar r).

Fixpoint nullable (r : Regex) : bool :=
  match r with
  | RNone => false
  | REps => true
  | RClass _ => false
  | RSeq a b => nullable a && nullable b
  | RAlt a b => nullable a || nullable b
  | RStar _ => true
  end.

Fixpoint deriv (c : N) (r : Regex) : Regex :=
  match r with
  | RNone => RNone
  | REps => RNone
  | RClass p => if p c then REps else RNone
  | RSeq a b =>
      if nullable a then RAlt (RSeq (deriv c a) b) (deriv c b)
      else RSeq (deriv c a) b
  | RAlt a b => RAlt (deriv c a) (deriv c b)
  | RStar a => RSeq (deriv c a) (RStar a)
  end.

Fixpoint regex_match (r : Regex) (s : jsstring) : bool :=
  match s with
  | [] => nullable r
  | c :: s' => regex_match (deriv c r) s'
  end.

(** [[^\s@]]: neither white space nor '@' (64). *)
Definition plain_char (c : N) : bool := negb (is_whitespace c) && negb (c =? 64)%N.

(** [/^[^\s@]+@[^\s@]+\.[^\s@]+$/] *)
Definition emailRegex : Regex :=
  RSeq (RPlus (RClass plain_char))
       (RSeq (RClass (fun c => (c =? 64)%N))
             (RSeq (RPlus (RClass plain_char))
                   (RSeq (RClass (fun c => (c =? 46)%N))
                         (RPlus (RClass plain_char))))).

(** [emailRegex.test(email)]: the argument is read as a text. *)
Definition isValidEmail (email : JsValue) : bool :=
  regex_match emailRegex (ToString email).

(** The texts a pattern matches. *)
Inductive matches_regex : Regex -> jsstring -> Prop :=
| m_eps : matches_regex REps []
| m_class p c : p c = true -> matches_regex (RClass p) [c]
| m_seq a b s1 s2 :
    matches_regex a s1 -> matches_regex b s2 -> matches_regex (RSeq a b) (s1 ++ s2)
| m_alt_l a b s : matches_regex a s -> matches_regex (RAlt a b) s
| m_alt_r a b s : matches_regex b s -> matches_regex (RAlt a b) s
| m_star_nil a : matches_regex (RStar a) []
| m_star_app a s1 s2 :
    matches_regex a s1 -> matches_regex (RStar a) s2 -> matches_regex (RStar a) (s1 ++ s2).

(** A run of one or more plain characters. *)
Definition plain (s : jsstring) : Prop := s <> [] /\ forallb plain_char s = true.

(** White space only. *)
Definition all_whitespace (s : jsstring) : Prop := forallb is_whitespace s = true.

(** ** How a request can change the collection *)

(** The fields an update can set. *)
Definition updatable : list string :=
  ["title"; "description"; "status"; "priority"; "assignedTo"; "tags"].

(** The free-text fields of a record. *)
Definition text_fields : list string := ["title"; "description"; "reporter"; "assignedTo"].

(** The collection a request leaves, told from the one it found: the same
    one; or, after a create on [/], that one with a new document at its
    end; or, after an update on [/:id], that one with the first record of
    an identifier rewritten by assignments that were cast and validated;
    or, after a delete, that one without the first record of an
    identifier. *)
Inductive change (req : Request) (w : World) : list Obj -> Prop :=
| change_none : change req w (collection w)
| change_create data :
    method req = POST ->
    path req = Root ->
    data = bugData (body (validated req)) ->
    document_errors data = [] ->
    change req w (collection w
                  ++ [pre_save (clock w + 1 + lag w)
                        (new_document data (objectId (serial w)) (clock w + 1))])
| change_update oid sets now old new c' :
    method req = PUT ->
    (exists id, path req = Segment id) ->
    cast_updates (update_paths (build_updates (body (validated req)))) = inr sets ->
    update_errors sets = [] ->
    update_first (has_id oid) (apply_updates sets now) (collection w) = Some (old, new, c') ->
    change req w c'
| change_delete oid d c' :
    method req = DELETE ->
    remove_first (has_id oid) (collection w) = Some (d, c') ->
    change req w c'.

(** No free text of a record holds an angle bracket. *)
Definition clean_record (d : Obj) : Prop :=
  forall k s, In k text_fields -> get d k = JStr s -> no_angle s.

Definition clean (docs : list Obj) : Prop := Forall clean_record docs.

(** What the [trim] sanitizer of the validation library makes of a value. *)
Definition trimmed_value (v : JsValue) : JsValue :=
  match v with
  | JArr l => JArr (List.map (fun e => JStr (trim (ExpressValidator.toString e))) l)
  | _ => JStr (trim (ExpressValidator.toString v))
  end.

(** The status and the priority of a record are in the enumerations. *)
Definition in_enums (d : Obj) : Prop :=
  isValidStatus (get d "status") && isValidPriority (get d "priority") = true.

(** ** Storage calls that fail *)

(** The number of storage calls a request makes. *)
Definition calls_made (req : Request) (w : World) : nat :=
  length (calls (snd (handle req w))) - length (calls w).

(** One of the storage calls the request makes fails: the collaborator
    answers the [n]-th of them with an error. *)
Definition call_failed (req : Request) (w : World) : Prop :=
  exists n e, n < calls_made req w /\ faults w !! n = Some (Some e).

(** A record operation that, whenever one of its storage calls fails,
    hands on an error and leaves the collection as it was; and that never
    lets an exception escape. *)
Definition quiet (c : Request -> M Outcome) : Prop :=
  forall r w,
    (exists o, fst (c r w) = Ok o)
    /\ forall n e,
         n < length (calls (snd (c r w))) - length (calls w) ->
         faults w !! n = Some (Some e) ->
         (exists x, fst (c r w) = Ok (Next (Some x)))
         /\ collection (snd (c r w)) = collection w.

(** ** What the rules do to the payload *)

Definition is_sanitizer (i : ExpressValidator.ChainItem) : bool :=
  match i with ExpressValidator.Sanitize_trim => true | _ => false end.

(** A rule that leaves the field [k] of the body as it is: it is a rule on
    something else, or it has no sanitizer. *)
Definition keeps (k : string) (c : ExpressValidator.ValidationChain) : bool :=
  negb (bool_decide (rule_key c = (ExpressValidator.InBody, k)))
  || forallb (fun i => negb (is_sanitizer i)) (ExpressValidator.stack c).

(** What the sanitizers of a rule make of the value of its field. *)
Definition sanitized (c : ExpressValidator.ValidationChain) (v : JsValue) : JsValue :=
  if ExpressValidator.is_optional c && strict_eq v JUndefined then v
  else fold_left (fun x i => if is_sanitizer i then trimmed_value x else x)
                 (ExpressValidator.stack c) v.

(** The rule of a route on the field [k] of the body, if it has one. *)
Definition rule_on (m : Method) (p : Path) (k : string)
  : option ExpressValidator.ValidationChain :=
  List.find (fun c => bool_decide (rule_key c = (ExpressValidator.InBody, k))) (rules_of m p).

(** ** Records the schema accepts, and success answers *)

(** A record that holds, for every path of the schema, a value of the
    type of the path (a value a cast gives) that passes the validators of
    the path. *)
Definition valid_record (d : Obj) : Prop :=
  forall p t, In (p, t) bugSchema ->
              (exists v, castPath t v = Some (get d p))
              /\ validatePath t p (get d p) = None.

(** What the validators of the schema say of a record, in words of its
    fields. *)
Definition well_formed_record (d : Obj) : Prop :=
  (exists s, get d "title" = JStr s /\ 3 <= length s <= 200)
  /\ (exists s, get d "description" = JStr s /\ 10 <= length s)
  /\ (exists s, get d "reporter" = JStr s /\ s <> []).


(** A record operation whose success answers all have the status [code]
    and the member [success: true], and are given only after a storage
    call. *)
Definition answers (c : Request -> M Outcome) (code : Z) : Prop :=
  forall r w st json,
    fst (c r w) = Ok (Respond st json) ->
    st = code /\ get json "success" = JBool true
    /\ length (calls w) < length (calls (snd (c r w))).


(** The sum of the counts of a grouping. *)
Definition total (groups : list (JsValue * Z)) : Z :=
  foldr Z.add 0%Z (List.map snd groups).

(** ** components/BugForm.js *)

(** [s.split(sep)] for a separator of one code unit: the pieces between
    the separators, of which there is always at least one. *)
Fixpoint split (sep : N) (s : jsstring) : list jsstring :=
  match s with
  | [] => [[]]
  | c :: r =>
      if (c =? sep)%N then [] :: split sep r
      else match split sep r with
           | x :: xs => (c :: x) :: xs
           | [] => [[c]]
           end
  end.

Module BugForm.

(** The state [formData]: what the inputs hold, all of it text. *)
Record FormData := {
  title : jsstring;
  description : jsstring;
  priority : jsstring;
  reporter : jsstring;
  assignedTo : jsstring;
  tags : jsstring
}.

(** The text the tags input starts with: [initialData?.tags?.join(', ') || '']. *)
Definition initial_tags (initial : option (list jsstring)) : jsstring :=
  match initial with
  | Some ts => match join (js ", ") ts with
               | [] => []
               | text => text
               end
  | None => []
  end.

(** The object [newErrors] of [validateForm], key by key in the order the
    keys are set. *)
Definition newErrors (formData : FormData) : list (string * jsstring) :=
  (match trim (title formData) with
   | [] => [("title", js "Title is required")]
   | t => if (length t <? 3)%nat
          then [("title", js "Title must be at least 3 characters")] else []
   end)
  ++ (match trim (description formData) with
      | [] => [("description", js "Description is required")]
      | t => if (length t <? 10)%nat
             then [("description", js "Description must be at least 10 characters")] else []
      end)
  ++ (match trim (reporter formData) with
      | [] => [("reporter", js "Reporter name is required")]
      | _ => []
      end).

(** [validateForm()]: [Object.keys(newErrors).length === 0] *)
Definition validateForm (formData : FormData) : bool :=
  (length (newErrors formData) =? 0)%nat.

(** The tags of [submitData]:
    [formData.tags.split(',').map(tag => tag.trim()).filter(tag => tag.length > 0)] *)
Definition submitted_tags (text : jsstring) : list jsstring :=
  List.filter (fun tag => (0 <? length tag)%nat) (List.map trim (split 44 text)).

(** [submitData], the payload handed to [onSubmit]. *)
Definition submitData (formData : FormData) : Obj :=
  obj [("title", JStr (title formData));
       ("description", JStr (description formData));
       ("priority", JStr (priority formData));
       ("reporter", JStr (reporter formData));
       ("assignedTo", JStr (assignedTo formData));
       ("tags", JArr (List.map JStr (submitted_tags (tags formData))))].

(** [handleSubmit]: nothing is submitted unless the form validates. *)
Definition handleSubmit (formData : FormData) : option Obj :=
  if validateForm formData then Some (submitData formData) else None.

End BugForm.

(** A tag as the form submits it: not empty, no white space at its ends,
    no comma. *)
Definition tag (t : jsstring) : Prop := t <> [] /\ trimmed t /\ ~ In 44%N t.


(** What an update assigns to a field the request supplies: for the title,
    the description and the assignee, the text of the field, trimmed by
    the rules, then sanitized; for the status, the priority and the tags,
    the value as it came. *)
Definition assigned (req : Request) (k : string) : JsValue :=
  if existsb (String.eqb k) ["title"; "description"; "assignedTo"]
  then sanitizeInput (trimmed_value (get (body req) k))
  else get (body req) k.

(** ** Sample data *)

Definition request (m : Method) (p : Path) (q : Obj) (b : Obj) : Request :=
  {| method := m; path := p; params := ∅; query := q; body := b;
     validation_errors := [] |}.

(** A query language with two conditions beside the text: an array of
    values, met by a value that is one of them, and [{ $ne: text }], met by
    a value that is not the text.  It has no order beside those of the
    plain sort specifications. *)
Definition bad_query : ErrorObject :=
  {| name := js "CastError"; message := js "Cast failed in the query"; errors := [] |}.

Definition sample_language : QueryLanguage :=
  {| condition := fun _ v =>
       match v with
       | JArr l => inr (fun x => existsb (strict_eq x) l)
       | JObj o =>
           match o !! "$ne" with
           | Some (JStr s) => inr (fun x => negb (strict_eq x (JStr s)))
           | _ => inl bad_query
           end
       | _ => inl bad_query
       end;
     ordering := fun _ => inl bad_query |}.

Definition empty_world : World :=
  {| collection := []; clock := 1700000000000; serial := 1; calls := []; faults := [];
     latency := []; language := sample_language |}.

(** A world in which the next save takes three milliseconds to reach its
    hook. *)
Definition slow_world : World :=
  {| collection := []; clock := 1700000000000; serial := 1; calls := []; faults := [];
     latency := [3%N]; language := sample_language |}.

(** The payload of the integration test "should create a new bug". *)
Definition login_bug : Obj :=
  obj [("title", JStr (js "Login button not working"));
       ("description", JStr (js "Users cannot click the login button on mobile devices"));
       ("priority", JStr (js "high"));
       ("reporter", JStr (js "John Doe"))].

(** The world after that bug has been created. *)
Definition one_bug_collection : list Obj :=
  Eval vm_compute in collection (snd (handle (request POST Root ∅ login_bug) empty_world)).

Definition one_bug_calls : list StorageCall :=
  Eval vm_compute in calls (snd (handle (request POST Root ∅ login_bug) empty_world)).

Definition one_bug_world : World :=
  {| collection := one_bug_collection; clock := 1700000000001; serial := 2;
     calls := one_bug_calls; faults := []; latency := []; language := sample_language |}.

(** The payload of the integration test "missing required fields". *)
Definition title_only : Obj := obj [("title", JStr (js "Bug"))].

(** A payload the validation rules accept and the schema then rejects:
    the title has three code units, none of which survives sanitizing, and
    the status is outside the enumeration. *)
Definition brackets_bug : Obj :=
  obj [("title", JStr (js "<<<"));
       ("description", JStr (js "0123456789"));
       ("status", JStr (js "bogus"));
       ("reporter", JStr (js "John Doe"))].

Definition brackets_errors : list (string * jsstring) :=
  [("title", js "Bug title is required");
   ("status", enumMessage "status" (js "bogus"))].

(** A payload with a status that is present and empty. *)
Definition empty_status_bug : Obj := <["status" := JStr []]> login_bug.

(** An update of the stored bug: a new title, with markup and white space
    around it, and a new status. *)
Definition stored_id : jsstring := objectId 1.

Definition stored_bug : Obj :=
  Eval vm_compute in
    match collection one_bug_world with
    | d :: _ => d
    | [] => ∅
    end.

(** An update whose status is a list of one valid status. *)
Definition listed_status : Obj := obj [("status", JArr [JStr (js "open")])].

Definition retitle : Obj :=
  obj [("title", JStr (js "  <b>New title</b> "));
       ("status", JStr (js "resolved"))].

(** An error of the storage collaborator's own, and a world in which the
    first storage call to come is served and the second one fails. *)
Definition connection_lost : ErrorObject :=
  {| name := js "MongoNetworkError"; message := js "connection lost"; errors := [] |}.

Definition failing_world : World :=
  {| collection := collection one_bug_world; clock := clock one_bug_world;
     serial := serial one_bug_world; calls := [];
     faults := [None; Some connection_lost];
     latency := []; language := sample_language |}.

(** A form filled in as the payload of the integration test is, and one
    whose title is two characters outside the Basic Multilingual Plane
    (four code units). *)
Definition login_form : BugForm.FormData :=
  {| BugForm.title := js "Login button not working";
     BugForm.description := js "Users cannot click the login button on mobile devices";
     BugForm.priority := js "high";
     BugForm.reporter := js "John Doe";
     BugForm.assignedTo := [];
     BugForm.tags := js "ui, login" |}.

Definition astral_form : BugForm.FormData :=
  {| BugForm.title := [55357; 56832; 55357; 56832]%N;
     BugForm.description := js "0123456789";
     BugForm.priority := js "medium";
     BugForm.reporter := js "John Doe";
     BugForm.assignedTo := [];
     BugForm.tags := [] |}.

(** * Properties *)

Example sanitize_trims :
  sanitizeInput (JStr (js "  hello  ")) = JStr (js "hello").
Proof. reflexivity. Qed.

Example sanitize_script :
  sanitizeInput (JStr (js "<script>alert(1)</script>")) = JStr (js "scriptalert(1)/script").
Proof. reflexivity. Qed.

Example sanitize_long :
  match sanitizeInput (JStr (repeat 97%N 1500)) with
  | JStr s => length s
  | _ => 0
  end = 1000.
Proof. vm_compute. reflexivity. Qed.

Example sanitize_non_string :
  sanitizeInput (JNum 123) = JNum 123 /\ sanitizeInput JNull = JNull.
Proof. split; reflexivity. Qed.

(** ** Facts about [trim] and [sanitizeInput] *)

Section Trim.

Lemma trimStart_no_lead s : no_lead (trimStart s).
Proof.
  induction s as [|c r IH]; simpl; [exact I|].
  destruct (is_whitespace c) eqn:E; [exact IH | exact E].
Qed.

Lemma trimStart_fixed s : no_lead s -> trimStart s = s.
Proof. destruct s as [|c r]; simpl; [reflexivity|]. intros ->. reflexivity. Qed.

Lemma trimStart_suffix s : exists p, s = p ++ trimStart s.
Proof.
  induction s as [|c r [p Hp]]; simpl.
  - exists []. reflexivity.
  - destruct (is_whitespace c).
    + exists (c :: p). simpl. congruence.
    + exists []. reflexivity.
Qed.

Lemma trimEnd_prefix s : exists q, s = trimEnd s ++ q.
Proof.
  unfold trimEnd. destruct (trimStart_suffix (rev s)) as [p Hp].
  exists (rev p). rewrite <- rev_app_distr, <- Hp. symmetry. apply rev_involutive.
Qed.

Lemma trimEnd_no_lead s : no_lead s -> no_lead (trimEnd s).
Proof.
  intros H. destruct (trimEnd_prefix s) as [q Hq].
  destruct (trimEnd s) as [|c r]; [exact I|].
  rewrite Hq in H. exact H.
Qed.

Lemma trim_trimmed s : trimmed (trim s).
Proof.
  split.
  - apply trimEnd_no_lead, trimStart_no_lead.
  - unfold trim, trimEnd. rewrite rev_involutive. apply trimStart_no_lead.
Qed.

Lemma trim_fixed s : trimmed s -> trim s = s.
Proof.
  intros [H1 H2]. unfold trim, trimEnd.
  rewrite (trimStart_fixed s H1), (trimStart_fixed _ H2). apply rev_involutive.
Qed.

Lemma trim_idempotent s : trim (trim s) = trim s.
Proof. apply trim_fixed, trim_trimmed. Qed.

(** [trim] cuts a prefix and a suffix off. *)
Lemma trim_infix s : exists p q, s = p ++ trim s ++ q.
Proof.
  destruct (trimStart_suffix s) as [p Hp].
  destruct (trimEnd_prefix (trimStart s)) as [q Hq].
  exists p, q. unfold trim. rewrite <- Hq. exact Hp.
Qed.

Lemma trim_length s : length (trim s) <= length s.
Proof.
  destruct (trim_infix s) as (p & q & H).
  rewrite H at 2. rewrite !length_app. lia.
Qed.

Lemma trim_no_angle s : no_angle s -> no_angle (trim s).
Proof.
  intros H. destruct (trim_infix s) as (p & q & E). unfold no_angle in *.
  rewrite E, !forallb_app in H.
  apply andb_prop in H as [_ H]. apply andb_prop in H as [H _]. exact H.
Qed.

Lemma strip_angle_fixed s : no_angle s -> strip_angle s = s.
Proof.
  unfold strip_angle, no_angle. induction s as [|c r IH]; simpl; [reflexivity|].
  intros H. apply andb_prop in H as [Hc Hr]. rewrite Hc. f_equal. exact (IH Hr).
Qed.

Lemma strip_angle_no_angle s : no_angle (strip_angle s).
Proof.
  unfold strip_angle, no_angle. induction s as [|c r IH]; simpl; [reflexivity|].
  destruct (is_angle c) eqn:E; simpl; [exact IH|]. rewrite E. exact IH.
Qed.

Lemma slice0_no_angle n s : no_angle s -> no_angle (slice0 n s).
Proof.
  unfold slice0, no_angle. revert n. induction s as [|c r IH]; intros [|n] H;
    simpl in *; try reflexivity.
  apply andb_prop in H as [Hc Hr]. rewrite Hc. exact (IH n Hr).
Qed.

Lemma slice0_fixed n s : length s <= n -> slice0 n s = s.
Proof. intros H. unfold slice0. apply take_ge. lia. Qed.

(** A trimmed text without angle brackets and within the length bound is
    left alone. *)
Lemma sanitizeInput_fixed s :
  trimmed s -> no_angle s -> length s <= 1000 ->
  sanitizeInput (JStr s) = JStr s.
Proof.
  intros Ht Ha Hl. unfold sanitizeInput.
  rewrite (trim_fixed s Ht), (strip_angle_fixed s Ha), (slice0_fixed _ _ Hl).
  reflexivity.
Qed.

(** What the sanitizer guarantees of a text: no angle bracket is left and
    at most 1000 code units remain. *)
Lemma sanitizeInput_text s :
  exists t, sanitizeInput (JStr s) = JStr t /\ no_angle t /\ length t <= 1000.
Proof.
  exists (slice0 1000 (strip_angle (trim s))). split; [reflexivity|]. split.
  - apply slice0_no_angle, strip_angle_no_angle.
  - unfold slice0. rewrite length_take. lia.
Qed.

End Trim.

(** ** Strict equality *)

Lemma strict_eq_true a b : strict_eq a b = true -> a = b.
Proof.
  destruct a, b; simpl; try discriminate; try reflexivity; intros H.
  - apply bool_decide_eq_true in H. congruence.
  - apply Z.eqb_eq in H. congruence.
  - apply bool_decide_eq_true in H. congruence.
Qed.

(** ** The validation rules run one after the other *)

Section ValidationRuns.
Import ExpressValidator.

Lemma run_errors c req :
  validation_errors (run c req) = validation_errors req ++ rule_violations c req.
Proof.
  unfold run, rule_violations, field_value.
  destruct (run_stack c _) as [v errs]. reflexivity.
Qed.

(** A rule leaves the other fields of the request alone. *)
Lemma run_source_other c req l k :
  (location c, field c) <> (l, k) ->
  get (source l (run c req)) k = get (source l req) k.
Proof.
  intros Hne. unfold run.
  destruct (run_stack c _) as [v errs].
  destruct (location c) eqn:El, l; simpl; try reflexivity;
    destruct (strict_eq _ v); try reflexivity;
    unfold get; rewrite lookup_insert_ne; try reflexivity;
    intros E; apply Hne; rewrite E; reflexivity.
Qed.

Lemma run_other c c' req :
  rule_key c <> rule_key c' -> field_value c' (run c req) = field_value c' req.
Proof. intros H. unfold field_value. apply run_source_other. exact H. Qed.

Lemma run_all_errors rules : forall req,
  NoDup (List.map rule_key rules) ->
  validation_errors (fold_left (fun r c => run c r) rules req)
  = validation_errors req ++ concat (List.map (fun c => rule_violations c req) rules).
Proof.
  induction rules as [|c rules IH]; intros req Hnd; cbn.
  - symmetry. apply app_nil_r.
  - cbn in Hnd. apply NoDup_cons in Hnd as [Hc Hnd].
    rewrite (IH _ Hnd), run_errors, <- app_assoc. do 3 f_equal.
    apply map_ext_in. intros c' Hin. unfold rule_violations.
    rewrite run_other; [reflexivity|].
    intros E. apply Hc. rewrite E. apply list_elem_of_In, in_map, Hin.
Qed.

Lemma rules_of_NoDup m p : NoDup (List.map rule_key (rules_of m p)).
Proof.
  destruct m, p as [|s]; simpl; try destruct (is_stats s);
    apply (bool_decide_unpack _); vm_compute; reflexivity.
Qed.

Lemma validated_errors req : validation_errors (validated req) = violations req.
Proof.
  unfold validated, violations. rewrite run_all_errors by apply rules_of_NoDup.
  reflexivity.
Qed.

Lemma run_middleware_validate rules rest : forall req w,
  run_middleware (chains rules ++ rest) req w
  = run_middleware rest (fold_left (fun r c => run c r) rules req) w.
Proof.
  induction rules as [|c rules IH]; intros req w; simpl; [reflexivity|].
  apply IH.
Qed.

(** The messages of a rule only accumulate. *)
Lemma run_items_grow opt items : forall v errs,
  exists more, snd (fold_left (run_item opt) items (v, errs)) = errs ++ more.
Proof.
  induction items as [|i items IH]; intros v errs; cbn [fold_left].
  - exists []. symmetry. apply app_nil_r.
  - assert (exists v' more, run_item opt (v, errs) i = (v', errs ++ more)) as (v' & more & E).
    { unfold run_item. destruct (opt && strict_eq v JUndefined).
      - exists v, []. rewrite app_nil_r. reflexivity.
      - destruct i as [| |sv neg msg|msg].
        + exists v, []. rewrite app_nil_r. reflexivity.
        + eexists _, []. rewrite app_nil_r. reflexivity.
        + eexists _, _. reflexivity.
        + destruct v; try (exists v; eexists; reflexivity); eexists _, _; try reflexivity.
          rewrite app_nil_r. reflexivity. }
    rewrite E. destruct (IH v' (errs ++ more)) as [more' E'].
    exists (more ++ more'). rewrite E', app_assoc. reflexivity.
Qed.

(** Every item of a rule that rejects the field leaves its message. *)
Lemma run_stack_complete c value n item :
  stack c !! n = Some item ->
  item_violated (is_optional c) item (value_at c value n) = true ->
  In (item_message item) (snd (run_stack c value)).
Proof.
  intros Hn Hv. unfold run_stack, value_at in *.
  rewrite <- (take_drop_middle _ _ _ Hn), fold_left_app. cbn [fold_left].
  destruct (fold_left _ (take n (stack c)) (value, [])) as [v errs] eqn:E.
  simpl in Hv. apply andb_prop in Hv as [Ho Hi].
  apply negb_true_iff in Ho.
  assert (exists v' more, run_item (is_optional c) (v, errs) item = (v', more)
                          /\ In (item_message item) more) as (v' & more & E1 & Hin).
  { unfold run_item. rewrite Ho.
    destruct item as [| |sv neg msg|msg]; try discriminate.
    - eexists _, _. split; [reflexivity|]. apply in_or_app. right. simpl.
      apply existsb_exists in Hi as (e & He & Hf).
      apply in_map_iff. exists e. split; [reflexivity|].
      apply filter_In. split; assumption.
    - destruct v; try discriminate; eexists _, _; (split; [reflexivity|]);
        apply in_or_app; right; left; reflexivity. }
  rewrite E1. destruct (run_items_grow (is_optional c) (drop (S n) (stack c)) v' more)
    as [more' ->].
  apply in_or_app. left. exact Hin.
Qed.

End ValidationRuns.

(** ** The validation pipeline in front of the record operations *)

Lemma router_rules m p :
  rules_of m p <> [] ->
  router m p
  = Some (chains (rules_of m p) ++ [Validation.validateRequest; controller (controller_of m)]).
Proof.
  destruct m, p as [|s]; unfold rules_of, router; try congruence; intros H.
  - destruct (is_stats s); [congruence|]. reflexivity.
  - reflexivity.
  - unfold chains. rewrite map_app, <- app_assoc. reflexivity.
  - reflexivity.
Qed.

(** What the route does with a request: the rules run, then either
    [validateRequest] stops the request or the record operation runs on the
    request as the rules have left it. *)
Lemma handle_validated req w :
  rules_of (method req) (path req) <> [] ->
  handle req w
  = match violations req with
    | [] => match controller_of (method req) (validated req) w with
            | (Ok o, w') => (o, w')
            | (Throw e, w') => (Next (Some (Thrown e)), w')
            end
    | msgs => (Next (Some (AppError (join (js ", ") msgs) 400)), w)
    end.
Proof.
  intros Hr. unfold handle. rewrite (router_rules _ _ Hr), run_middleware_validate.
  fold (validated req). cbn [run_middleware]. unfold Validation.validateRequest.
  unfold ExpressValidator.validationResult. rewrite validated_errors.
  destruct (violations req) as [|m msgs]; [|reflexivity].
  unfold controller. destruct (controller_of _ (validated req) w) as [[o|e] w']; reflexivity.
Qed.

Lemma violations_rules req : violations req <> [] -> rules_of (method req) (path req) <> [].
Proof. intros Hv E. apply Hv. unfold violations. rewrite E. reflexivity. Qed.

Lemma handle_rejected req w :
  violations req <> [] ->
  handle req w = (Next (Some (AppError (join (js ", ") (violations req)) 400)), w).
Proof.
  intros Hv. rewrite (handle_validated req w (violations_rules req Hv)).
  destruct (violations req); [congruence | reflexivity].
Qed.

(** C1.  A create, update or identifier-bearing request that violates the
    validation rules is rejected with an [AppError] of status 400 whose
    message is the comma-joined list of all the violation messages; the
    world is left as it was, so no record operation and no storage call has
    run.  "All" is made precise by the second part: every validator of
    every rule of the route that rejects its field (as the sanitizers
    before it have left it) has its message in the list. *)
Theorem validation_rejects_before_operations (req : Request) (w : World) :
  violations req <> [] ->
  handle req w = (Next (Some (AppError (join (js ", ") (violations req)) 400)), w)
  /\ (forall c n item,
        In c (rules_of (method req) (path req)) ->
        ExpressValidator.stack c !! n = Some item ->
        item_violated (ExpressValidator.is_optional c) item
                      (value_at c (field_value c (routed req)) n) = true ->
        In (item_message item) (violations req)).
Proof.
  intros Hv. split.
  - apply handle_rejected, Hv.
  - intros c n item Hc Hn Hi. unfold violations.
    apply in_concat. exists (rule_violations c (routed req)). split.
    + apply in_map_iff. exists c. split; [reflexivity | exact Hc].
    + apply (run_stack_complete c _ n item Hn Hi).
Qed.

Lemma validation_rejects_before_operations_witness :
  violations (request POST Root ∅ title_only) <> []
  /\ handle (request POST Root ∅ title_only) one_bug_world
     = (Next (Some (AppError
                      (join (js ", ") (violations (request POST Root ∅ title_only))) 400)),
        one_bug_world).
Proof.
  split.
  - vm_compute. discriminate.
  - apply (validation_rejects_before_operations (request POST Root ∅ title_only)).
    vm_compute. discriminate.
Defined.

Example title_only_messages :
  violations (request POST Root ∅ title_only)
  = [js "Description is required";
     js "Description must be at least 10 characters";
     js "Reporter name is required"].
Proof. vm_compute. reflexivity. Qed.

(** ** The response formatter *)

(** C3.  The formatted record has [id] equal to the record's [_id], has no
    [_id] key, copies the nine other fields as they are, and its keys are
    [id] and those nine and no other: one identifier field, named [id]. *)
Theorem formatBugResponse_shape (bug : Obj) :
  formatBugResponse bug !! "id" = Some (get bug "_id")
  /\ formatBugResponse bug !! "_id" = None
  /\ (forall k, In k copied_fields -> formatBugResponse bug !! k = Some (get bug k))
  /\ dom (formatBugResponse bug) = list_to_set ("id" :: copied_fields).
Proof.
  unfold formatBugResponse. split; [|split; [|split]].
  - apply lookup_insert_eq.
  - repeat (rewrite lookup_insert_ne by discriminate). apply lookup_empty.
  - intros k Hk. simpl in Hk.
    repeat (destruct Hk as [<- | Hk];
            [repeat (rewrite lookup_insert_ne by discriminate); apply lookup_insert_eq|]).
    destruct Hk.
  - rewrite !dom_insert_L, dom_empty_L. simpl. reflexivity.
Qed.

Lemma formatBugResponse_shape_witness :
  formatBugResponse stored_bug !! "title" = Some (get stored_bug "title").
Proof.
  apply (proj1 (proj2 (proj2 (formatBugResponse_shape stored_bug)))).
  left. reflexivity.
Defined.

(** ** Sanitizing twice *)

(** C4, as amended.  On a text of at most 1000 code units that holds no
    angle bracket, sanitizing twice is sanitizing once. *)
Theorem sanitizeInput_idempotent (x : jsstring) :
  length x <= 1000 ->
  no_angle x ->
  sanitizeInput (sanitizeInput (JStr x)) = sanitizeInput (JStr x).
Proof.
  intros Hl Ha.
  assert (sanitizeInput (JStr x) = JStr (trim x)) as E.
  { unfold sanitizeInput.
    rewrite (strip_angle_fixed _ (trim_no_angle _ Ha)), slice0_fixed; [reflexivity|].
    pose proof (trim_length x). lia. }
  rewrite E. apply sanitizeInput_fixed.
  - apply trim_trimmed.
  - apply trim_no_angle, Ha.
  - pose proof (trim_length x). lia.
Qed.

Lemma sanitizeInput_idempotent_witness :
  sanitizeInput (sanitizeInput (JStr (js "  hello  "))) = sanitizeInput (JStr (js "  hello  ")).
Proof.
  apply sanitizeInput_idempotent.
  - vm_compute. lia.
  - reflexivity.
Defined.

(** C4 as stated fails: ["<a >"] has 4 code units and its first pass,
    ["a "], holds no angle bracket, but the second pass trims it to ["a"]. *)
Lemma sanitizeInput_not_idempotent_after_first_pass :
  ~ (forall x : jsstring,
       length x <= 1000 ->
       no_angle (text_of (sanitizeInput (JStr x))) ->
       sanitizeInput (sanitizeInput (JStr x)) = sanitizeInput (JStr x)).
Proof.
  intros H. specialize (H (js "<a >")).
  assert (length (js "<a >") <= 1000) as Hl by (vm_compute; lia).
  specialize (H Hl eq_refl). vm_compute in H. discriminate H.
Qed.

(** C9.  The output of the sanitizer need not be a fixed point of it: a
    text longer than 1000 code units whose first 1000 end in white space,
    and a text in which removing an angle bracket uncovers white space at
    an end, are both trimmed further by a second pass. *)
Theorem sanitizeInput_output_not_fixed :
  (exists s, sanitizeInput (sanitizeInput (JStr s)) <> sanitizeInput (JStr s))
  /\ (let s := repeat 97%N 999 ++ [32%N; 98%N] in
      length s = 1001
      /\ sanitizeInput (JStr s) = JStr (repeat 97%N 999 ++ [32%N])
      /\ sanitizeInput (sanitizeInput (JStr s)) = JStr (repeat 97%N 999))
  /\ (let s := js "< a" in
      sanitizeInput (JStr s) = JStr (js " a")
      /\ sanitizeInput (sanitizeInput (JStr s)) = JStr (js "a")).
Proof.
  split; [|split].
  - exists (js "< a"). vm_compute. discriminate.
  - vm_compute. repeat split.
  - vm_compute. repeat split.
Qed.

(** ** The identifier contract and the absent record *)

Section Identifier.
Import ExpressValidator.

Lemma storage_served {A} (c : StorageCall) (op : M A) (w : World) :
  served w -> storage c op w = op (enter c w).
Proof.
  unfold served, storage. destruct (faults w) as [|[e|] r]; intros H;
    [reflexivity | destruct H | reflexivity].
Qed.

Lemma run_items_no_sanitizer opt items : forall v errs,
  Forall (fun i => i <> Sanitize_trim) items ->
  fst (fold_left (run_item opt) items (v, errs)) = v.
Proof.
  induction items as [|i items IH]; intros v errs H; cbn [fold_left]; [reflexivity|].
  apply Forall_cons in H as [Hi H].
  assert (exists errs', run_item opt (v, errs) i = (v, errs')) as [errs' ->].
  { unfold run_item. destruct (opt && strict_eq v JUndefined); [eexists; reflexivity|].
    destruct i; try congruence; try (eexists; reflexivity). }
  apply IH, H.
Qed.

(** A rule without a sanitizer leaves the request's data as it is. *)
Lemma run_no_sanitizer c req l k :
  Forall (fun i => i <> Sanitize_trim) (stack c) ->
  get (source l (run c req)) k = get (source l req) k.
Proof.
  intros H. unfold run.
  pose proof (run_items_no_sanitizer (is_optional c) (stack c)
                (get (source (location c) req) (field c)) [] H) as E.
  fold (run_stack c (get (source (location c) req) (field c))) in E.
  destruct (run_stack c _) as [v errs]. simpl in E. subst v.
  destruct (location c) eqn:El, l; simpl; try reflexivity;
    destruct (strict_eq _ _); try reflexivity;
    unfold get; destruct (decide (field c = k)) as [<-|Hne];
    rewrite ?lookup_insert_eq, ?lookup_insert_ne by assumption;
    reflexivity.
Qed.

Lemma fold_run_other rules l k : forall req,
  ~ In (l, k) (List.map rule_key rules) ->
  get (source l (fold_left (fun r c => run c r) rules req)) k = get (source l req) k.
Proof.
  induction rules as [|c rules IH]; intros req Hn; cbn [fold_left]; [reflexivity|].
  cbn in Hn. rewrite IH by tauto. apply run_source_other.
  intros E. apply Hn. left. exact E.
Qed.

Lemma id_rule_violations r id :
  get (params r) "id" = JStr id ->
  rule_violations id_rule r
  = if is_mongo_id id then [] else [js "Invalid bug ID format"].
Proof.
  intros H. unfold rule_violations, field_value, id_rule, param. cbn [location field source].
  rewrite H.
  cbv [run_stack stack is_optional existsb isMongoId fold_left run_item orb andb strict_eq
       items_of toString ToString List.filter List.map snd app validate Bool.eqb].
  destruct (is_mongo_id id); reflexivity.
Qed.

(** Every identifier of the store passes the identifier rule; and what
    passes the rule without being one is a text of 24 code units that
    starts with [0x] or [0h] (in either case) and goes on with 22
    hexadecimal digits. *)
Lemma object_id_is_mongo_id id : isObjectIdSyntax id = true -> is_mongo_id id = true.
Proof.
  unfold isObjectIdSyntax, is_mongo_id, isHexadecimal, hex_digits.
  intros H. apply andb_prop in H as [Hl Hh]. rewrite Hl, Hh.
  destruct id; [discriminate Hl | reflexivity].
Qed.

Lemma mongo_id_shape id :
  is_mongo_id id = true ->
  isObjectIdSyntax id = true
  \/ exists p r, id = 48%N :: p :: r
                 /\ In p [120; 88; 104; 72]%N
                 /\ length r = 22 /\ forallb is_hex r = true.
Proof.
  unfold is_mongo_id, isHexadecimal, isObjectIdSyntax, hex_digits.
  intros H. apply andb_prop in H as [Hh Hl]. rewrite Hl.
  apply orb_prop in Hh as [Hh|Hh].
  - left. destruct id; [discriminate Hh | exact Hh].
  - right. destruct id as [|z [|p r]]; try discriminate Hh.
    apply andb_prop in Hh as [Hh Hr]. apply andb_prop in Hh as [Hz Hp].
    apply N.eqb_eq in Hz. subst z. exists p, r. split; [reflexivity|].
    split; [|split].
    + cbn [In]. repeat (apply orb_prop in Hp as [Hp|Hp]);
        apply N.eqb_eq in Hp; subst p; tauto.
    + apply Nat.eqb_eq in Hl. simpl in Hl. lia.
    + destruct r; [discriminate Hr | exact Hr].
Qed.

Lemma is_hex_lower c : is_hex (lower_hex c) = true -> is_hex c = true.
Proof.
  unfold lower_hex. destruct ((65 <=? c) && (c <=? 70))%N eqn:E; [|tauto].
  intros _. unfold is_hex. rewrite E. rewrite orb_true_r. reflexivity.
Qed.

Lemma lower_hex_syntax id :
  isObjectIdSyntax (List.map lower_hex id) = true -> isObjectIdSyntax id = true.
Proof.
  unfold isObjectIdSyntax. rewrite length_map. intros H. apply andb_prop in H as [Hl Hh].
  rewrite Hl. cbn [andb]. rewrite forallb_forall in Hh |- *. intros c Hc.
  apply is_hex_lower, Hh, in_map, Hc.
Qed.

(** A record is found only under an identifier of the store. *)
Lemma found_id_well_formed id docs d :
  List.find (has_id (List.map lower_hex id)) docs = Some d -> isObjectIdSyntax id = true.
Proof.
  intros H. apply find_some in H as [_ H]. unfold has_id in H.
  apply andb_prop in H as [H _]. exact (lower_hex_syntax id H).
Qed.

Lemma object_id_not_stats id : isObjectIdSyntax id = true -> is_stats id = false.
Proof.
  unfold isObjectIdSyntax, is_stats. intros H. apply andb_prop in H as [Hl _].
  apply Nat.eqb_eq in Hl. apply bool_decide_eq_false. intros E.
  apply (f_equal (@length _)) in E. rewrite length_map, Hl in E. discriminate E.
Qed.

Lemma routed_id req id : path req = Segment id -> get (params (routed req)) "id" = JStr id.
Proof.
  intros H. unfold routed. cbn [params]. rewrite H. unfold get.
  rewrite lookup_insert_eq. reflexivity.
Qed.

Lemma id_request_rules req id :
  id_request req id ->
  exists rest, rules_of (method req) (path req) = id_rule :: rest
               /\ ~ In (InParams, "id") (List.map rule_key rest).
Proof.
  intros [Hp Hm]. rewrite Hp.
  destruct Hm as [[-> Hs] | [-> | ->]]; cbn [rules_of].
  - rewrite Hs. exists []. split; [reflexivity | intros []].
  - eexists. split; [reflexivity|]. vm_compute. intuition discriminate.
  - exists []. split; [reflexivity | intros []].
Qed.

Lemma id_request_violations req id :
  id_request req id ->
  is_mongo_id id = false ->
  exists rest, violations req = js "Invalid bug ID format" :: rest.
Proof.
  intros Hreq Hs. destruct (id_request_rules req id Hreq) as (rest & E & _).
  unfold violations. rewrite E. cbn [List.map concat].
  rewrite (id_rule_violations _ id (routed_id req id (proj1 Hreq))), Hs.
  eexists. reflexivity.
Qed.

Lemma validated_id req id :
  id_request req id -> get (params (validated req)) "id" = JStr id.
Proof.
  intros Hreq. destruct (id_request_rules req id Hreq) as (rest & E & Hn).
  unfold validated. rewrite E. cbn [fold_left].
  rewrite (fold_run_other rest InParams "id" _ Hn).
  change (params (run id_rule (routed req))) with (source InParams (run id_rule (routed req))).
  rewrite run_no_sanitizer.
  - apply routed_id, Hreq.
  - repeat constructor. discriminate.
Qed.

Lemma Bug_findById_absent id w :
  served w ->
  isObjectIdSyntax id = true ->
  List.find (has_id (List.map lower_hex id)) (collection w) = None ->
  Bug_findById (JStr id) w = (Ok None, enter (FindById (JStr id)) w).
Proof.
  intros Hs Hid Hf. unfold Bug_findById. rewrite (storage_served _ _ _ Hs).
  cbn [castObjectId]. rewrite Hid. cbn [collection enter]. rewrite Hf. reflexivity.
Qed.

(** The three operations on one record answer "not found" alike. *)
Lemma controller_absent m r id w :
  m <> POST ->
  get (params r) "id" = JStr id ->
  served w ->
  isObjectIdSyntax id = true ->
  List.find (has_id (List.map lower_hex id)) (collection w) = None ->
  controller_of m r w = (Ok not_found, enter (FindById (JStr id)) w).
Proof.
  intros Hm Hp Hs Hid Hf.
  destruct m; try congruence; cbn [controller_of];
    unfold getBugById, updateBug, deleteBug, try_catch, mbind, M_bind;
    rewrite Hp, (Bug_findById_absent id w Hs Hid Hf); reflexivity.
Qed.

End Identifier.

Lemma fold_run_body_other rules k req :
  ~ In (ExpressValidator.InBody, k) (List.map rule_key rules) ->
  get (body (fold_left (fun r c => ExpressValidator.run c r) rules req)) k = get (body req) k.
Proof. exact (fold_run_other rules ExpressValidator.InBody k req). Qed.

Lemma id_only_violations req id :
  id_request req id ->
  method req <> PUT ->
  isObjectIdSyntax id = true ->
  violations req = [].
Proof.
  intros [Hp Hm] Hn Hs. unfold violations. rewrite Hp.
  assert (rules_of (method req) (Segment id) = [id_rule]) as ->.
  { destruct Hm as [[Em Hst] | [Em | Em]]; [| congruence |]; rewrite Em; cbn [rules_of].
    - rewrite Hst. reflexivity.
    - reflexivity. }
  cbn [List.map concat].
  rewrite (id_rule_violations _ id (routed_id req id Hp)), (object_id_is_mongo_id id Hs).
  reflexivity.
Qed.

(** An identifier that the store cannot cast makes each of the three
    operations on one record hand on the cast error of its look-up. *)
Lemma controller_cast_fails m r id w :
  m <> POST ->
  get (params r) "id" = JStr id ->
  served w ->
  isObjectIdSyntax id = false ->
  controller_of m r w
  = (Ok (Next (Some (Thrown (castError "_id")))), enter (FindById (JStr id)) w).
Proof.
  intros Hm Hp Hs Hid.
  destruct m; try congruence; cbn [controller_of];
    unfold getBugById, updateBug, deleteBug, try_catch, mbind, M_bind, Bug_findById;
    rewrite Hp, (storage_served _ _ _ Hs); cbn [castObjectId]; rewrite Hid; reflexivity.
Qed.

(** C5, as amended.  On a request that bears an identifier (get-by-id,
    update, delete): an identifier that the identifier rule rejects is
    answered with status 400, the message saying so, and the world is as
    before: the storage was not consulted.  An identifier of the store (24
    hexadecimal digits) that no record bears gives "Bug not found" with
    status 404, after the one look-up the storage serves and with the
    collection unchanged; for an update this is the answer of the
    operation, which runs once the payload has passed the update rules.
    The rule is not the syntax of the store: it accepts every identifier
    of the store, and besides them the texts of 24 code units that start
    with [0x] or [0h] and go on with 22 hexadecimal digits; such a text
    passes the rule, the storage is consulted, its cast of the text fails
    and the cast error is handed to the error handler. *)
Theorem identifier_errors (req : Request) (w : World) (id : jsstring) :
  id_request req id ->
  (ExpressValidator.is_mongo_id id = false ->
     exists rest,
       violations req = js "Invalid bug ID format" :: rest
       /\ handle req w = (Next (Some (AppError (join (js ", ") (violations req)) 400)), w))
  /\ (isObjectIdSyntax id = true ->
      (method req = PUT -> violations req = []) ->
      served w ->
      List.find (has_id (List.map lower_hex id)) (collection w) = None ->
      handle req w = (Next (Some (AppError (js "Bug not found") 404)),
                      enter (FindById (JStr id)) w))
  /\ (ExpressValidator.is_mongo_id id = true ->
      isObjectIdSyntax id = false ->
      (method req = PUT -> violations req = []) ->
      served w ->
      handle req w = (Next (Some (Thrown (castError "_id"))),
                      enter (FindById (JStr id)) w))
  /\ (isObjectIdSyntax id = true -> ExpressValidator.is_mongo_id id = true)
  /\ (ExpressValidator.is_mongo_id id = true ->
      isObjectIdSyntax id = true
      \/ exists p r, id = 48%N :: p :: r
                     /\ In p [120; 88; 104; 72]%N
                     /\ length r = 22 /\ forallb is_hex r = true)
  /\ AppError (js "Bug not found") 404
     <> AppError (join (js ", ") (violations req)) 400.
Proof.
  intros Hreq.
  assert (Hrules : rules_of (method req) (path req) <> []).
  { destruct (id_request_rules req id Hreq) as (rest & E & _). rewrite E. discriminate. }
  assert (Hnp : method req <> POST)
    by (destruct Hreq as [_ [[-> _] | [-> | ->]]]; discriminate).
  assert (Hviol : ExpressValidator.is_mongo_id id = true ->
                  (method req = PUT -> violations req = []) -> violations req = []).
  { intros Hm Hput. destruct (decide (method req = PUT)) as [E|E]; [exact (Hput E)|].
    destruct Hreq as [Hp Hmeth]. unfold violations. rewrite Hp.
    assert (rules_of (method req) (Segment id) = [id_rule]) as ->.
    { destruct Hmeth as [[Em Hst] | [Em | Em]]; [| congruence |]; rewrite Em; cbn [rules_of].
      - rewrite Hst. reflexivity.
      - reflexivity. }
    cbn [List.map concat].
    rewrite (id_rule_violations _ id (routed_id req id Hp)), Hm. reflexivity. }
  split; [|split; [|split; [|split; [|split]]]].
  - intros Hs. destruct (id_request_violations req id Hreq Hs) as [rest E].
    exists rest. split; [exact E|]. apply handle_rejected. rewrite E. discriminate.
  - intros Hid Hput Hs Hf.
    rewrite (handle_validated req w Hrules).
    rewrite (Hviol (object_id_is_mongo_id id Hid) Hput).
    rewrite (controller_absent _ _ id w); try assumption; [reflexivity|].
    apply validated_id, Hreq.
  - intros Hm Hid Hput Hs.
    rewrite (handle_validated req w Hrules), (Hviol Hm Hput).
    rewrite (controller_cast_fails _ _ id w); try assumption; [reflexivity|].
    apply validated_id, Hreq.
  - apply object_id_is_mongo_id.
  - apply mongo_id_shape.
  - discriminate.
Qed.

Lemma identifier_errors_witness :
  id_request (request GET (Segment absent_id) ∅ ∅) absent_id
  /\ isObjectIdSyntax absent_id = true
  /\ served one_bug_world
  /\ List.find (has_id (List.map lower_hex absent_id)) (collection one_bug_world) = None
  /\ handle (request GET (Segment absent_id) ∅ ∅) one_bug_world
     = (Next (Some (AppError (js "Bug not found") 404)),
        enter (FindById (JStr absent_id)) one_bug_world).
Proof.
  assert (id_request (request GET (Segment absent_id) ∅ ∅) absent_id) as Hreq.
  { split; [reflexivity|]. left. split; [reflexivity|]. vm_compute. reflexivity. }
  assert (isObjectIdSyntax absent_id = true) as Hid by (vm_compute; reflexivity).
  assert (served one_bug_world) as Hs by (vm_compute; exact I).
  assert (List.find (has_id (List.map lower_hex absent_id)) (collection one_bug_world) = None)
    as Hf by (vm_compute; reflexivity).
  repeat (split; [assumption|]).
  apply (proj1 (proj2 (identifier_errors _ one_bug_world absent_id Hreq)) Hid);
    [discriminate | exact Hs | exact Hf].
Defined.

(** C5 as stated fails on a text that is not of the 24-hexadecimal-digit
    syntax and yet passes the rule: the request is not rejected before the
    storage is consulted; the look-up is made and its cast error is what
    comes out. *)
Lemma prefixed_identifier_reaches_storage :
  isObjectIdSyntax prefixed_id = false
  /\ handle (request GET (Segment prefixed_id) ∅ ∅) one_bug_world
     = (Next (Some (Thrown (castError "_id"))),
        enter (FindById (JStr prefixed_id)) one_bug_world)
  /\ calls (snd (handle (request GET (Segment prefixed_id) ∅ ∅) one_bug_world))
     = FindById (JStr prefixed_id) :: calls one_bug_world.
Proof. vm_compute. repeat split. Qed.

(** ** Failures of the storage collaborator *)

(** C6.  When the storage rejects a create or an update with an error
    named [ValidationError], the operation hands on an [AppError] of status
    400 whose message joins the per-field messages of that error; any other
    failure is handed on as it is (never answered as a success, never
    dropped), which the error handler reports as a server error. *)
Theorem storage_rejection_classified
    (op : Request -> M Outcome) (req : Request) (w w' : World) (e : ErrorObject) :
  rejected op req w e w' ->
  (name e = js "ValidationError" ->
     op req w
     = (Ok (Next (Some (AppError (join (js ", ") (List.map snd (errors e))) 400))), w')
     /\ errorHandler (Next (Some (AppError (join (js ", ") (List.map snd (errors e))) 400)))
        = 400%Z)
  /\ (name e <> js "ValidationError" ->
      op req w = (Ok (Next (Some (Thrown e))), w')
      /\ errorHandler (Next (Some (Thrown e))) = 500%Z).
Proof.
  intros Hrej.
  assert (forall v : World, handle_validation_error e v
            = (Ok (if jseqb (name e) (js "ValidationError")
                   then Next (Some (AppError (join (js ", ") (List.map snd (errors e))) 400))
                   else Next (Some (Thrown e))), v)) as Hh.
  { intros v. unfold handle_validation_error. destruct (jseqb _ _); reflexivity. }
  assert (op req w = handle_validation_error e w') as Hop.
  { inversion Hrej as [r v e' v' H | r v e' v' H | r v bug v1 e' v' H1 H2]; subst.
    - unfold createBug, try_catch, mbind, M_bind. cbv zeta. rewrite H. reflexivity.
    - unfold updateBug, try_catch, mbind, M_bind. rewrite H. reflexivity.
    - unfold updateBug, try_catch, mbind, M_bind. rewrite H1. cbv zeta. rewrite H2.
      reflexivity. }
  rewrite Hop, Hh. split; intros Hn.
  - unfold jseqb. rewrite bool_decide_eq_true_2 by exact Hn. split; reflexivity.
  - unfold jseqb. rewrite bool_decide_eq_false_2 by exact Hn. split; reflexivity.
Qed.

Lemma storage_rejection_classified_witness :
  rejected createBug (validated (request POST Root ∅ brackets_bug)) empty_world
           (validationError brackets_errors)
           (enter (Create (bugData (body (validated (request POST Root ∅ brackets_bug)))))
                  empty_world)
  /\ createBug (validated (request POST Root ∅ brackets_bug)) empty_world
     = (Ok (Next (Some (AppError
                          (join (js ", ")
                                (List.map snd (errors (validationError brackets_errors))))
                          400))),
        enter (Create (bugData (body (validated (request POST Root ∅ brackets_bug)))))
              empty_world).
Proof.
  assert (rejected createBug (validated (request POST Root ∅ brackets_bug)) empty_world
            (validationError brackets_errors)
            (enter (Create (bugData (body (validated (request POST Root ∅ brackets_bug)))))
                   empty_world)) as Hrej.
  { constructor. vm_compute. reflexivity. }
  split; [exact Hrej|].
  exact (proj1 (proj1 (storage_rejection_classified _ _ _ _ _ Hrej) eq_refl)).
Defined.

Example brackets_bug_end_to_end :
  fst (handle (request POST Root ∅ brackets_bug) empty_world)
  = Next (Some (AppError
                  (js "Bug title is required, `bogus` is not a valid enum value for path `status`.")
                  400)).
Proof. vm_compute. reflexivity. Qed.

(** ** The status on create and on update *)

Section Status.
Lemma createBug_calls r w :
  calls (snd (createBug r w)) = Create (bugData (body r)) :: calls w.
Proof.
  unfold createBug, try_catch, mbind, M_bind, Bug_create, storage. cbv zeta.
  destruct (faults w) as [|[e|] rest]; cbn [handle_validation_error];
    try (unfold handle_validation_error; destruct (jseqb _ _); reflexivity);
    destruct (document_errors _); try reflexivity;
    unfold handle_validation_error; destruct (jseqb _ _); reflexivity.
Qed.

Lemma handle_snd_controller req w :
  rules_of (method req) (path req) <> [] ->
  violations req = [] ->
  snd (handle req w) = snd (controller_of (method req) (validated req) w).
Proof.
  intros Hr Hv. rewrite (handle_validated req w Hr), Hv.
  destruct (controller_of _ _ w) as [[o|e] w']; reflexivity.
Qed.

Lemma existsb_pointwise {A} (f g : A -> bool) l :
  (forall x, f x = g x) -> existsb f l = existsb g l.
Proof.
  intros H. induction l as [|x l IH]; cbn [existsb]; [reflexivity|].
  rewrite H, IH. reflexivity.
Qed.

Lemma status_rule_violations r v :
  get (body r) "status" = v ->
  v <> JUndefined ->
  outside_statuses v = true ->
  In (js "Invalid status") (rule_violations status_rule r).
Proof.
  intros Hs Hu Hn. unfold rule_violations, field_value.
  change (ExpressValidator.source (ExpressValidator.location status_rule) r) with (body r).
  change (ExpressValidator.field status_rule) with "status". rewrite Hs.
  assert (strict_eq v JUndefined = false) as Hund.
  { destruct (strict_eq v JUndefined) eqn:E; [|reflexivity].
    apply strict_eq_true in E. contradiction. }
  apply (run_stack_complete status_rule v 1
           (ExpressValidator.isIn ["open"; "in-progress"; "resolved"; "closed"]
                                  "Invalid status") eq_refl).
  unfold value_at, item_violated.
  change (ExpressValidator.is_optional status_rule) with true.
  change (take 1 (ExpressValidator.stack status_rule)) with [ExpressValidator.Optional].
  cbn [fold_left ExpressValidator.run_item andb]. rewrite Hund. cbn [fst negb andb].
  rewrite Hund. cbn [negb andb].
  unfold ExpressValidator.isIn. unfold outside_statuses in Hn.
  etransitivity; [apply existsb_pointwise | exact Hn]. intros e.
  cbn [ExpressValidator.validate]. destruct (existsb _ _); reflexivity.
Qed.

End Status.

(** The create rules have no rule for [status]; a valid create request
    reaches the storage with the caller's status as it came whenever that
    status is truthy, and with ['open'] otherwise, that is when it is
    absent, [null], [false], [0] or the empty text. *)
Lemma create_status_unchecked :
  (forall c, In c Validation.createBugValidation -> ExpressValidator.field c <> "status")
  /\ (forall req w,
        method req = POST -> path req = Root -> violations req = [] ->
        exists data,
          calls (snd (handle req w)) = Create data :: calls w
          /\ get data "status"
             = if truthy (get (body req) "status") then get (body req) "status"
               else JStr (js "open")).
Proof.
  split.
  - intros c Hc. simpl in Hc.
    repeat (destruct Hc as [<- | Hc]; [discriminate|]). destruct Hc.
  - intros req w Hm Hp Hv.
    exists (bugData (body (validated req))). split.
    + rewrite handle_snd_controller; [|rewrite Hm, Hp; discriminate | exact Hv].
      rewrite Hm. apply createBug_calls.
    + assert (get (body (validated req)) "status" = get (body req) "status") as E.
      { unfold validated. rewrite Hm, Hp. cbn [rules_of].
        rewrite fold_run_body_other; [reflexivity|].
        vm_compute. intuition discriminate. }
      unfold bugData at 1. unfold get at 1, obj.
      change (list_to_map ?l !! "status") with (Some (js_or (get (body (validated req)) "status")
                                                            (JStr (js "open")))).
      cbn [default]. rewrite E. reflexivity.
Qed.

(** C7 as stated fails in its parenthesis: a status that is present in the
    payload, the empty text, is replaced by ['open'] on the way to the
    storage. *)
Lemma create_replaces_present_empty_status :
  empty_status_bug !! "status" = Some (JStr [])
  /\ violations (request POST Root ∅ empty_status_bug) = []
  /\ exists data,
       calls (snd (handle (request POST Root ∅ empty_status_bug) empty_world))
       = [Create data]
       /\ get data "status" = JStr (js "open").
Proof.
  split; [vm_compute; reflexivity|]. split; [vm_compute; reflexivity|].
  eexists. split; vm_compute; reflexivity.
Qed.

(** ** Statistics *)

Section Grouping.

Lemma tally_add v u groups :
  tally v (add_to_group u groups)
  = (tally v groups + if strict_eq u v then 1 else 0)%Z.
Proof.
  induction groups as [|[g n] r IH]; cbn [add_to_group tally fst snd].
  - destruct (strict_eq u v); lia.
  - destruct (strict_eq g u) eqn:Egu; cbn [tally fst snd].
    + apply strict_eq_true in Egu. subst g. destruct (strict_eq u v); lia.
    + rewrite IH. destruct (strict_eq g v); lia.
Qed.

Lemma groups_of_add v u groups :
  length (groups_of v (add_to_group u groups))
  = length (groups_of v groups)
    + (if strict_eq u v && negb (existsb (fun g => strict_eq (fst g) u) groups)
       then 1 else 0).
Proof.
  unfold groups_of.
  induction groups as [|[g n] r IH]; cbn [add_to_group List.filter existsb fst].
  - destruct (strict_eq u v); reflexivity.
  - destruct (strict_eq g u) eqn:Egu; cbn [List.filter fst orb negb].
    + rewrite andb_false_r. destruct (strict_eq g v); simpl; lia.
    + cbn [orb]. destruct (strict_eq g v); cbn [length]; rewrite IH; lia.
Qed.

Lemma groups_of_none v groups :
  existsb (fun g => strict_eq (fst g) v) groups = false -> groups_of v groups = [].
Proof.
  unfold groups_of. induction groups as [|g r IH]; cbn [existsb List.filter]; [reflexivity|].
  intros H. apply orb_false_elim in H as [-> H]. exact (IH H).
Qed.

Lemma add_to_group_positive u groups :
  Forall (fun g => (0 < snd g)%Z) groups ->
  Forall (fun g => (0 < snd g)%Z) (add_to_group u groups).
Proof.
  induction 1 as [|[g n] r Hg Hr IH]; cbn [add_to_group].
  - repeat constructor.
  - destruct (strict_eq g u); constructor; simpl in *; try assumption; lia.
Qed.

Lemma add_to_group_well u groups :
  well_grouped groups -> well_grouped (add_to_group u groups).
Proof.
  intros [Hu Hp]. split; [|apply add_to_group_positive, Hp].
  intros v. rewrite groups_of_add.
  destruct (strict_eq u v) eqn:E; cbn [andb]; [|specialize (Hu v); lia].
  destruct (existsb _ groups) eqn:Ex; cbn [negb]; [specialize (Hu v); lia|].
  apply strict_eq_true in E. subst v. rewrite (groups_of_none u groups Ex). simpl. lia.
Qed.

Lemma fold_groups path docs : forall acc v,
  well_grouped acc ->
  well_grouped (fold_left (fun groups doc => add_to_group (group_key doc path) groups) docs acc)
  /\ tally v (fold_left (fun groups doc => add_to_group (group_key doc path) groups) docs acc)
     = (tally v acc + count_docs path v docs)%Z.
Proof.
  unfold count_docs.
  induction docs as [|d docs IH]; intros acc v Hw; cbn [fold_left List.filter].
  - split; [exact Hw | simpl; lia].
  - destruct (IH (add_to_group (group_key d path) acc) v (add_to_group_well _ _ Hw))
      as [Hw' Ht].
    split; [exact Hw'|]. rewrite Ht, tally_add.
    destruct (strict_eq (group_key d path) v); cbn [length]; lia.
Qed.

Lemma tally_groups_of v groups : tally v groups = tally v (groups_of v groups).
Proof.
  unfold groups_of. induction groups as [|g r IH]; cbn [tally List.filter]; [reflexivity|].
  destruct (strict_eq (fst g) v) eqn:E; cbn [tally]; rewrite ?E, IH; reflexivity.
Qed.

(** The groups of a collection, as the specification reads them. *)
Lemma group_count_spec path docs v :
  primitive v ->
  let n := count_docs path v docs in
  ((0 < n)%Z -> In (v, n) (group_count path docs))
  /\ (forall m, In (v, m) (group_count path docs) -> m = n /\ (0 < n)%Z)
  /\ length (groups_of v (group_count path docs)) <= 1.
Proof.
  intros Hv n. unfold group_count.
  destruct (fold_groups path docs [] v) as [[Hu Hp] Ht].
  { split; [intros; simpl; lia | constructor]. }
  set (gs := fold_left _ docs []) in *. cbn [tally] in Ht. fold n in Ht.
  rewrite tally_groups_of in Ht. specialize (Hu v).
  assert (forall g, In g (groups_of v gs) -> fst g = v /\ In g gs) as Hin.
  { intros g Hg. apply filter_In in Hg as [Hg E]. split; [apply strict_eq_true, E | exact Hg]. }
  split; [|split].
  - intros Hn. destruct (groups_of v gs) as [|[g m] [|? ?]] eqn:E; cbn [tally fst snd length] in *;
      try lia.
    destruct (Hin (g, m) (or_introl eq_refl)) as [Eg Hg]. simpl in Eg. subst g.
    rewrite Hv in Ht. assert (m = n) by lia. subst m. exact Hg.
  - intros m Hm.
    assert (In (v, m) (groups_of v gs)) as Hm'.
    { apply filter_In. split; [exact Hm | exact Hv]. }
    destruct (groups_of v gs) as [|[g k] [|? ?]] eqn:E; cbn [tally fst snd length] in *;
      try lia; [destruct Hm'|].
    destruct Hm' as [Hm'|[]]. injection Hm' as -> ->.
    rewrite Hv in Ht. split; [lia|].
    apply Forall_forall with (x := (v, m)) in Hp; [simpl in Hp; lia|].
    apply list_elem_of_In. exact Hm.
  - exact Hu.
Qed.

End Grouping.

Lemma getBugStats_served req w :
  served w ->
  served (enter (Aggregate "status") w) ->
  getBugStats req w
  = (Ok (Respond 200
           (obj [("success", JBool true);
                 ("data",
                  JObj (obj [("byStatus",
                              JArr (List.map group_object (group_count "status" (collection w))));
                             ("byPriority",
                              JArr (List.map group_object
                                             (group_count "priority" (collection w))))]))])),
     enter (Aggregate "priority") (enter (Aggregate "status") w)).
Proof.
  intros H1 H2. unfold getBugStats, try_catch, mbind, M_bind, Bug_aggregate.
  rewrite (storage_served _ _ _ H1), (storage_served _ _ _ H2). reflexivity.
Qed.

(** C8, as amended.  When the storage serves its two calls, the stats
    operation answers 200 with [success: true] and a [data] object whose
    [byStatus] and [byPriority] are the groupings of the whole collection by
    status and by priority.  Each element is an object with exactly the keys
    [_id] (the value) and [count]; a value that compares by content has a
    group exactly when a record holds it, has one group only, and its count
    is the number of records of the entire collection that hold it. *)
Theorem stats_response (req : Request) (w : World) :
  method req = GET ->
  path req = Segment (js "stats") ->
  served w ->
  served (enter (Aggregate "status") w) ->
  fst (handle req w)
  = Respond 200
      (obj [("success", JBool true);
            ("data",
             JObj (obj [("byStatus",
                         JArr (List.map group_object (group_count "status" (collection w))));
                        ("byPriority",
                         JArr (List.map group_object
                                        (group_count "priority" (collection w))))]))])
  /\ (forall g, exists o,
        group_object g = JObj o
        /\ dom o = {["_id"; "count"]}
        /\ o !! "_id" = Some (fst g)
        /\ o !! "count" = Some (JNum (snd g)))
  /\ (forall path v,
        primitive v ->
        ((0 < count_docs path v (collection w))%Z ->
           In (v, count_docs path v (collection w)) (group_count path (collection w)))
        /\ (forall m, In (v, m) (group_count path (collection w)) ->
              m = count_docs path v (collection w)
              /\ (0 < count_docs path v (collection w))%Z)
        /\ length (groups_of v (group_count path (collection w))) <= 1).
Proof.
  intros Hm Hp H1 H2. split; [|split].
  - unfold handle. rewrite Hm, Hp. cbn [router].
    replace (is_stats (js "stats")) with true by (vm_compute; reflexivity).
    cbn [run_middleware]. unfold controller.
    rewrite (getBugStats_served _ w H1 H2). reflexivity.
  - intros g. eexists. split; [reflexivity|]. unfold obj. cbn [list_to_map foldr].
    split; [|split].
    + rewrite !dom_insert_L, dom_empty_L. set_solver.
    + apply lookup_insert_eq.
    + rewrite lookup_insert_ne by discriminate. apply lookup_insert_eq.
  - intros path v Hv. apply (group_count_spec path (collection w) v Hv).
Qed.

Lemma stats_response_witness :
  fst (handle (request GET (Segment (js "stats")) ∅ ∅) one_bug_world)
  = Respond 200
      (obj [("success", JBool true);
            ("data",
             JObj (obj [("byStatus",
                         JArr (List.map group_object
                                        (group_count "status" (collection one_bug_world))));
                        ("byPriority",
                         JArr (List.map group_object
                                        (group_count "priority" (collection one_bug_world))))]))]).
Proof.
  apply (stats_response (request GET (Segment (js "stats")) ∅ ∅) one_bug_world).
  - reflexivity.
  - reflexivity.
  - exact I.
  - exact I.
Defined.

(** C8 as stated fails in the names of the members: with one open bug
    stored, the one element of [byStatus] has the members [_id] and [count]
    and no member [value]. *)
Lemma stats_groups_have_no_value_member :
  let g := first_status_group
             (fst (handle (request GET (Segment (js "stats")) ∅ ∅) one_bug_world)) in
  g !! "value" = None
  /\ g !! "_id" = Some (JStr (js "open"))
  /\ g !! "count" = Some (JNum 1).
Proof. vm_compute. repeat split. Qed.

(** ** Listing with filters *)

Lemma compile_filter_text q l : forall test k s doc,
  compile_filter q l = inr test ->
  In (k, JStr s) l -> test doc = true -> get doc k = JStr s.
Proof.
  induction l as [|[p v] l IH]; intros test k s doc Hc Hin Ht; [destruct Hin|].
  cbn [compile_filter] in Hc.
  destruct (test_of q p v) as [e|f] eqn:Ef; [discriminate|].
  destruct (compile_filter q l) as [e|g] eqn:Eg; [discriminate|].
  injection Hc as <-. apply andb_prop in Ht as [Hf Hg].
  destruct Hin as [Hin|Hin]; [|exact (IH g k s doc eq_refl Hin Hg)].
  injection Hin as -> ->. cbn [test_of] in Ef. injection Ef as <-.
  exact (strict_eq_true _ _ Hf).
Qed.

Lemma compile_filter_texts q l :
  Forall (fun kv => exists s, snd kv = JStr s) l ->
  exists test, compile_filter q l = inr test.
Proof.
  induction 1 as [|[p v] l (s & Hs) _ (g & IH)]; [eexists; reflexivity|].
  cbn [snd] in Hs. subst v. cbn [compile_filter test_of]. rewrite IH. eexists. reflexivity.
Qed.

Lemma filter_outside_nothing q (filter : Obj) docs test :
  schema_ok docs ->
  compile_filter q (map_to_list filter) = inr test ->
  (exists s, filter !! "status" = Some (JStr s) /\ existsb (jseqb s) validStatuses = false)
  \/ (exists s, filter !! "priority" = Some (JStr s)
                /\ existsb (jseqb s) validPriorities = false) ->
  List.filter test docs = [].
Proof.
  unfold schema_ok. intros Hok Hc Hout.
  induction docs as [|d docs IH]; cbn [List.filter forallb] in *; [reflexivity|].
  apply andb_prop in Hok as [Hd Hok]. apply andb_prop in Hd as [Hst Hpr].
  destruct (test d) eqn:Em; [|exact (IH Hok)].
  exfalso. destruct Hout as [(s & Hf & Hn) | (s & Hf & Hn)];
    apply elem_of_map_to_list, list_elem_of_In in Hf;
    pose proof (compile_filter_text _ _ _ _ _ _ Hc Hf Em) as E.
  - rewrite E in Hst. unfold isValidStatus, includes in Hst. congruence.
  - rewrite E in Hpr. unfold isValidPriority, includes in Hpr. congruence.
Qed.

(** What [getAllBugs] does: one [find] with the filter and the sort
    argument; the answer lists what the store finds, or the error of the
    store is handed on. *)
Lemma getAllBugs_result req w :
  getAllBugs req w
  = (match faults w with
     | Some e :: _ => Ok (Next (Some (Thrown e)))
     | _ =>
         match compile_filter (language w) (map_to_list (list_filter req)),
               order_of (language w) (list_sort req) with
         | inl e, _ => Ok (Next (Some (Thrown e)))
         | inr _, inl e => Ok (Next (Some (Thrown e)))
         | inr test, inr cmp =>
             let bugs := sort_docs cmp (List.filter test (collection w)) in
             Ok (Respond 200
                   (obj [("success", JBool true);
                         ("count", JNum (Z.of_nat (length bugs)));
                         ("data", JArr (List.map (fun b => JObj (formatBugResponse b)) bugs))]))
         end
     end,
     enter (Find (list_filter req) (list_sort req)) w).
Proof.
  unfold getAllBugs, try_catch, mbind, M_bind, Bug_find, storage. cbv zeta.
  fold (list_filter req). fold (list_sort req).
  destruct (faults w) as [|[e|] rest]; cbn [language enter collection];
    try reflexivity;
    (destruct (compile_filter _ _) as [e|test]; [reflexivity|]);
    (destruct (order_of _ _) as [e|cmp]; reflexivity).
Qed.

Lemma list_filter_keeps req :
  (truthy (get (query req) "status") = true ->
   list_filter req !! "status" = Some (get (query req) "status"))
  /\ (truthy (get (query req) "priority") = true ->
      list_filter req !! "priority" = Some (get (query req) "priority")).
Proof.
  unfold list_filter, query_param. split; intros Ht.
  - rewrite Ht.
    destruct (truthy (get (query req) "priority"));
      [rewrite lookup_insert_ne by discriminate|]; apply lookup_insert_eq.
  - rewrite Ht. apply lookup_insert_eq.
Qed.

Lemma list_filter_drops req :
  (truthy (get (query req) "status") = false -> list_filter req !! "status" = None)
  /\ (truthy (get (query req) "priority") = false -> list_filter req !! "priority" = None).
Proof.
  unfold list_filter, query_param. split; intros Ht; rewrite Ht.
  - destruct (truthy (get (query req) "priority"));
      [rewrite lookup_insert_ne by discriminate|]; apply lookup_empty.
  - destruct (truthy (get (query req) "status"));
      [rewrite lookup_insert_ne by discriminate|]; apply lookup_empty.
Qed.

Lemma list_filter_values req k v :
  list_filter req !! k = Some v ->
  (k = "status" \/ k = "priority") /\ v = get (query req) k.
Proof.
  unfold list_filter, query_param.
  destruct (truthy (get (query req) "status")), (truthy (get (query req) "priority"));
    intros H; cbv beta iota zeta in H;
    repeat match type of H with
           | (<[?a := _]> _) !! k = _ =>
               let Hn := fresh "Hn" in
               destruct (decide (a = k)) as [<-|Hn];
               [rewrite lookup_insert_eq in H; injection H as <-;
                split; [auto | reflexivity]
               |rewrite lookup_insert_ne in H by exact Hn]
           end;
    rewrite lookup_empty in H; discriminate H.
Qed.

(** A query of texts is one the store accepts. *)
Lemma text_query_accepted w req : text_query req -> accepted w req.
Proof.
  intros (Hs & Hp & Ho). split.
  - apply compile_filter_texts. apply List.Forall_forall. intros [k v] Hin.
    apply list_elem_of_In, elem_of_map_to_list in Hin.
    pose proof Hin as Hin'. apply list_filter_values in Hin as [Hk ->]. cbn [snd].
    assert (Ht : truthy (get (query req) k) = true).
    { destruct (truthy (get (query req) k)) eqn:E; [reflexivity|]. exfalso.
      destruct (list_filter_drops req) as [H1 H2].
      destruct Hk as [-> | ->]; [rewrite (H1 E) in Hin' | rewrite (H2 E) in Hin'];
        discriminate Hin'. }
    destruct Hk as [-> | ->];
      [destruct Hs as [E|(s & E)] | destruct Hp as [E|(s & E)]];
      rewrite E in Ht |- *; try discriminate Ht; eexists; reflexivity.
  - unfold list_sort, query_param.
    destruct Ho as [-> | (s & -> & Hpl)]; [eexists; reflexivity|].
    cbn [order_of]. rewrite Hpl. eexists. reflexivity.
Qed.

(** C10, as amended.  The list route has no validation rule and never
    answers with a validation error: it answers 200 with [success: true],
    or hands on the error of the store.  A status or priority parameter
    that is truthy, whatever it is (a text, an array, an object), goes
    into the filter as it is, unchecked; one that is not (absent, empty) is
    no filter.  When the store serves the call and accepts the query, as
    it does every query of texts, the answer is 200 with [success: true];
    and when moreover the stored records satisfy the enumerations of the
    schema, a status or priority that is a non-empty text outside its
    enumeration gives [success: true], [count: 0] and an empty [data]. *)
Theorem list_has_no_validation (req : Request) (w : World) :
  method req = GET ->
  path req = Root ->
  rules_of (method req) (path req) = []
  /\ ((exists json, fst (handle req w) = Respond 200 json /\ get json "success" = JBool true)
      \/ (exists e, fst (handle req w) = Next (Some (Thrown e))))
  /\ snd (handle req w) = enter (Find (list_filter req) (list_sort req)) w
  /\ (forall k, k = "status" \/ k = "priority" ->
        list_filter req !! k
        = if truthy (get (query req) k) then Some (get (query req) k) else None)
  /\ (text_query req -> accepted w req)
  /\ (served w -> accepted w req ->
      exists json, fst (handle req w) = Respond 200 json /\ get json "success" = JBool true)
  /\ (served w -> accepted w req ->
      schema_ok (collection w) ->
      outside validStatuses (get (query req) "status")
      \/ outside validPriorities (get (query req) "priority") ->
      fst (handle req w)
      = Respond 200 (obj [("success", JBool true); ("count", JNum 0); ("data", JArr [])])).
Proof.
  intros Hm Hp.
  assert (handle req w = match getAllBugs (routed req) w with
                         | (Ok o, w') => (o, w')
                         | (Throw e, w') => (Next (Some (Thrown e)), w')
                         end) as Hh.
  { unfold handle. rewrite Hm, Hp. cbn [router run_middleware]. unfold controller.
    destruct (getAllBugs (routed req) w) as [[o|e] w']; reflexivity. }
  rewrite Hh, getAllBugs_result.
  change (list_filter (routed req)) with (list_filter req).
  change (list_sort (routed req)) with (list_sort req).
  destruct (list_filter_keeps req) as [Hks Hkp].
  destruct (list_filter_drops req) as [Hds Hdp].
  split; [rewrite Hm, Hp; reflexivity|].
  split; [|split; [|split; [|split; [apply text_query_accepted|split]]]].
  - destruct (faults w) as [|[e|] rest]; cbn [fst];
      try (right; eexists; reflexivity);
      (destruct (compile_filter _ _) as [e|test]; [right; eexists; reflexivity|]);
      (destruct (order_of _ _) as [e|cmp]; [right; eexists; reflexivity|]);
      left; eexists; split; reflexivity.
  - destruct (faults w) as [|[e|] rest]; try reflexivity;
      (destruct (compile_filter _ _) as [e|test]; [reflexivity|]);
      (destruct (order_of _ _) as [e|cmp]; reflexivity).
  - intros k [-> | ->].
    + destruct (truthy (get (query req) "status")); [exact (Hks eq_refl) | exact (Hds eq_refl)].
    + destruct (truthy (get (query req) "priority")); [exact (Hkp eq_refl) | exact (Hdp eq_refl)].
  - intros Hs [(test & Ht) (cmp & Hc)]. unfold served in Hs. rewrite Ht, Hc.
    destruct (faults w) as [|[e|] rest]; [|destruct Hs|]; cbn [fst];
      eexists; split; reflexivity.
  - intros Hs [(test & Ht) (cmp & Hc)] Hok Hout. unfold served in Hs. rewrite Ht, Hc.
    assert (List.filter test (collection w) = []) as Hnone.
    { apply (filter_outside_nothing _ _ _ _ Hok Ht).
      destruct Hout as [(s & E & Hne & Hn) | (s & E & Hne & Hn)]; [left | right];
        exists s; (split; [|exact Hn]); rewrite <- E; [apply Hks | apply Hkp];
        rewrite E; (destruct s; [congruence | reflexivity]). }
    destruct (faults w) as [|[e|] rest]; [|destruct Hs|]; cbv zeta; rewrite Hnone; reflexivity.
Qed.

Lemma list_has_no_validation_witness :
  outside validStatuses
          (get (query (request GET Root {["status" := JStr (js "pending")]} ∅)) "status")
  /\ fst (handle (request GET Root {["status" := JStr (js "pending")]} ∅) one_bug_world)
     = Respond 200 (obj [("success", JBool true); ("count", JNum 0); ("data", JArr [])]).
Proof.
  assert (outside validStatuses
            (get (query (request GET Root {["status" := JStr (js "pending")]} ∅)) "status"))
    as Hout.
  { exists (js "pending"). split; [vm_compute; reflexivity|].
    split; [vm_compute; discriminate | vm_compute; reflexivity]. }
  split; [exact Hout|].
  apply (list_has_no_validation (request GET Root {["status" := JStr (js "pending")]} ∅)
           one_bug_world eq_refl eq_refl).
  - exact I.
  - split; eexists; vm_compute; reflexivity.
  - vm_compute. reflexivity.
  - left. exact Hout.
Defined.

(** C10 as stated fails at the empty filter value: it is outside the
    enumeration, it is not applied as a filter, and the one stored bug is
    listed. *)
Lemma list_ignores_empty_status :
  existsb (jseqb []) validStatuses = false
  /\ list_filter (request GET Root {["status" := JStr []]} ∅) = ∅
  /\ count_member (fst (handle (request GET Root {["status" := JStr []]} ∅) one_bug_world))
     = JNum 1.
Proof. vm_compute. repeat split. Qed.

(** A parameter written with brackets is an object, and goes to the store
    as a condition of its query language: with a store that reads
    [$ne], the request [?status[$ne]=bogus] lists the stored bug. *)
Example list_with_operator :
  let req := request GET Root {["status" := JObj {["$ne" := JStr (js "bogus")]}]} ∅ in
  list_filter req = {["status" := JObj {["$ne" := JStr (js "bogus")]}]}
  /\ count_member (fst (handle req one_bug_world)) = JNum 1.
Proof. vm_compute. repeat split. Qed.

(** ** Partial update *)

Section Update.

Lemma update_first_frame (p : Obj -> bool) (f : Obj -> Obj) l :
  forall old new l',
    update_first p f l = Some (old, new, l') ->
    length l' = length l
    /\ forall i d d', l !! i = Some d -> l' !! i = Some d' ->
                      d' = d \/ (p d = true /\ d' = f d).
Proof.
  induction l as [|x r IH]; intros old new l' H; cbn [update_first] in H; [discriminate|].
  destruct (p x) eqn:Ep.
  - injection H as <- <- <-. split; [reflexivity|].
    intros [|i] d d' Hd Hd'; simpl in *.
    + injection Hd as <-. injection Hd' as <-. right. split; [exact Ep | reflexivity].
    + left. congruence.
  - destruct (update_first p f r) as [[[o n] r']|] eqn:E; [|discriminate].
    injection H as <- <- <-. destruct (IH _ _ _ eq_refl) as [Hl Hi].
    split; [simpl; congruence|].
    intros [|i] d d' Hd Hd'; simpl in *.
    + left. congruence.
    + exact (Hi i d d' Hd Hd').
Qed.

Lemma apply_updates_frame sets now (d : Obj) k :
  k <> "updatedAt" ->
  ~ In k (List.map path_of sets) ->
  apply_updates sets now d !! k = d !! k.
Proof.
  intros Hk Hn. unfold apply_updates. rewrite lookup_insert_ne by congruence.
  induction sets as [|ptv sets IH]; cbn [foldr]; [reflexivity|].
  cbn [List.map In] in Hn. rewrite lookup_insert_ne.
  - apply IH. tauto.
  - intros E. apply Hn. left. exact E.
Qed.

Lemma cast_updates_paths l : forall sets,
  cast_updates l = inr sets -> List.map path_of sets = List.map path_of l.
Proof.
  induction l as [|[[p t] v] l IH]; intros sets H; cbn [cast_updates] in H.
  - injection H as <-. reflexivity.
  - destruct (castPath t v) as [v'|]; [|discriminate].
    destruct (cast_updates l) as [q|sets'] eqn:E; [discriminate|].
    injection H as <-. cbn [List.map]. rewrite (IH _ eq_refl). reflexivity.
Qed.

Lemma cast_updates_member l : forall sets p t v,
  cast_updates l = inr sets ->
  In (p, t, v) l ->
  exists v', castPath t v = Some v' /\ In (p, t, v') sets.
Proof.
  induction l as [|[[p0 t0] v0] l IH]; intros sets p t v H Hin; cbn [cast_updates] in H;
    [destruct Hin|].
  destruct (castPath t0 v0) as [v0'|] eqn:Ec; [|discriminate].
  destruct (cast_updates l) as [q|sets'] eqn:E; [discriminate|].
  injection H as <-. destruct Hin as [Hin|Hin].
  - injection Hin as -> -> ->. exists v0'. split; [exact Ec | left; reflexivity].
  - destruct (IH _ _ _ _ eq_refl Hin) as (v' & Hc & Hs).
    exists v'. split; [exact Hc | right; exact Hs].
Qed.

Lemma update_paths_defined (u : Obj) k :
  In k (List.map path_of (update_paths u)) -> get u k <> JUndefined.
Proof.
  intros H. apply in_map_iff in H as ([[p t] v] & <- & Hin).
  apply list_elem_of_In, list_elem_of_omap in Hin as ([p' t'] & _ & Hf).
  cbn [fst snd] in Hf. cbn [path_of fst].
  destruct (get u p') eqn:E; try discriminate; injection Hf as <- <- <-; congruence.
Qed.

Lemma update_paths_member (u : Obj) p t v :
  In (p, t) bugSchema -> get u p = v -> v <> JUndefined -> In (p, t, v) (update_paths u).
Proof.
  intros Hin Hg Hv. apply list_elem_of_In, list_elem_of_omap.
  exists (p, t). split; [apply list_elem_of_In, Hin|].
  cbn [fst snd]. rewrite Hg. destruct v; congruence.
Qed.

Lemma update_errors_member sets p t v msg :
  In (p, t, v) sets -> validatePath t p v = Some msg -> In (p, msg) (update_errors sets).
Proof.
  intros Hin Hv. apply list_elem_of_In, list_elem_of_omap.
  exists (p, t, v). split; [apply list_elem_of_In, Hin|].
  cbn [fst snd]. rewrite Hv. reflexivity.
Qed.

(** One conditional assignment [if (c) updates.k' = x]. *)
Lemma conditional_insert (c : bool) k' (x : JsValue) (m : Obj) k v :
  (if c then <[k' := x]> m else m) !! k = Some v ->
  (k = k' /\ c = true /\ v = x) \/ m !! k = Some v.
Proof.
  destruct c; [|tauto]. destruct (decide (k' = k)) as [->|Hne].
  - rewrite lookup_insert_eq. intros [= <-]. left. tauto.
  - rewrite lookup_insert_ne by exact Hne. tauto.
Qed.

(** What [build_updates] holds: for each of the six fields it knows, the
    field as the request gives it, sanitized if it is a free-text field,
    and only if the request gives it. *)
Lemma build_updates_lookup (b : Obj) k v :
  build_updates b !! k = Some v ->
  get b k <> JUndefined
  /\ (In k ["title"; "description"; "assignedTo"] -> v = sanitizeInput (get b k)).
Proof.
  unfold build_updates. intros H.
  repeat (apply conditional_insert in H as [(-> & Hc & ->) | H];
          [split;
           [intros E; rewrite E in Hc; discriminate Hc
           |intros Hin; cbn in Hin; try reflexivity; exfalso; intuition discriminate]|]).
  rewrite lookup_empty in H. discriminate.
Qed.

Lemma build_updates_defined (b : Obj) k :
  get (build_updates b) k <> JUndefined -> get b k <> JUndefined.
Proof.
  unfold get at 1. destruct (build_updates b !! k) as [v|] eqn:E;
    [|intros H; exfalso; apply H; reflexivity].
  intros _. exact (proj1 (build_updates_lookup b k v E)).
Qed.

Lemma sanitizeInput_is_text x s :
  sanitizeInput x = JStr s -> no_angle s /\ length s <= 1000.
Proof.
  destruct x; cbn [sanitizeInput]; try discriminate. intros [= <-].
  destruct (sanitizeInput_text s0) as (t & E & Ha & Hl).
  cbn [sanitizeInput] in E. injection E as <-. split; assumption.
Qed.

End Update.

Section UpdateOperation.

Lemma run_items_undefined items : forall errs,
  fold_left (ExpressValidator.run_item true) items (JUndefined, errs) = (JUndefined, errs).
Proof.
  induction items as [|i items IH]; intros errs; cbn [fold_left]; [reflexivity|].
  assert (ExpressValidator.run_item true (JUndefined, errs) i = (JUndefined, errs)) as ->
    by reflexivity.
  apply IH.
Qed.

(** An optional rule does nothing to a field the request does not have. *)
Lemma run_keeps_undefined c r k :
  (ExpressValidator.location c = ExpressValidator.InBody ->
   ExpressValidator.is_optional c = true) ->
  get (body r) k = JUndefined ->
  get (body (ExpressValidator.run c r)) k = JUndefined.
Proof.
  intros Hopt Hk.
  destruct (decide ((ExpressValidator.location c, ExpressValidator.field c)
                    = (ExpressValidator.InBody, k))) as [E|Hne].
  - injection E as El Ef. unfold ExpressValidator.run, ExpressValidator.run_stack.
    rewrite (Hopt El), El, Ef. cbn [ExpressValidator.source]. rewrite Hk.
    rewrite run_items_undefined. cbn [strict_eq body]. exact Hk.
  - rewrite <- Hk. exact (run_source_other c r ExpressValidator.InBody k Hne).
Qed.

Lemma fold_keeps_undefined rules k : forall r,
  Forall (fun c => ExpressValidator.location c = ExpressValidator.InBody ->
                   ExpressValidator.is_optional c = true) rules ->
  get (body r) k = JUndefined ->
  get (body (fold_left (fun r c => ExpressValidator.run c r) rules r)) k = JUndefined.
Proof.
  induction rules as [|c rules IH]; intros r H Hk; cbn [fold_left]; [exact Hk|].
  apply Forall_cons in H as [Hc H]. apply IH; [exact H|].
  apply run_keeps_undefined; assumption.
Qed.

Lemma validated_keeps_undefined req id k :
  method req = PUT -> path req = Segment id ->
  get (body req) k = JUndefined ->
  get (body (validated req)) k = JUndefined.
Proof.
  intros Hm Hp Hk. unfold validated. rewrite Hm, Hp. cbn [rules_of].
  apply fold_keeps_undefined; [|exact Hk].
  repeat (apply Forall_cons; split; [intros E; vm_compute in E |- *; congruence|]).
  apply Forall_nil. exact I.
Qed.

Lemma handle_validation_error_world e w : snd (handle_validation_error e w) = w.
Proof. unfold handle_validation_error. destruct (jseqb _ _); reflexivity. Qed.

Lemma Bug_findById_world idv w : snd (Bug_findById idv w) = enter (FindById idv) w.
Proof.
  unfold Bug_findById, storage.
  destruct (faults w) as [|[e|] rest]; try reflexivity; destruct (castObjectId idv); reflexivity.
Qed.

(** What an update call leaves behind: its record in the log, and a
    collection that is the old one, or the old one with the first record of
    that identifier rewritten by the assignments that were cast. *)
Lemma Bug_findByIdAndUpdate_world idv u w :
  let w' := snd (Bug_findByIdAndUpdate idv u true true w) in
  calls w' = FindByIdAndUpdate idv u true true :: calls w
  /\ (collection w' = collection w
      \/ exists oid sets old new,
           castObjectId idv = Some oid
           /\ cast_updates (update_paths u) = inr sets
           /\ update_first (has_id oid)
                (apply_updates sets (clock (enter (FindByIdAndUpdate idv u true true) w)))
                (collection w)
              = Some (old, new, collection w')).
Proof.
  unfold Bug_findByIdAndUpdate, storage.
  set (c := FindByIdAndUpdate idv u true true).
  assert (let w' := snd
            (match castObjectId idv with
             | None => (Throw (castError "_id"), enter c w)
             | Some oid =>
                 match cast_updates (update_paths u) with
                 | inl path => (Throw (castError path), enter c w)
                 | inr sets =>
                     match update_errors sets with
                     | [] =>
                         match update_first (has_id oid) (apply_updates sets (clock (enter c w)))
                                 (collection (enter c w)) with
                         | Some (old, changed, c') => (Ok (Some changed), set_collection c' (enter c w))
                         | None => (Ok None, enter c w)
                         end
                     | errs => (Throw (validationError errs), enter c w)
                     end
                 end
             end : Result (option Obj) * World) in
          calls w' = c :: calls w
          /\ (collection w' = collection w
              \/ exists oid sets old new,
                   castObjectId idv = Some oid
                   /\ cast_updates (update_paths u) = inr sets
                   /\ update_first (has_id oid) (apply_updates sets (clock (enter c w)))
                        (collection w) = Some (old, new, collection w'))) as Hserved.
  { destruct (castObjectId idv) as [oid|] eqn:Eo; [|split; [reflexivity | left; reflexivity]].
    destruct (cast_updates (update_paths u)) as [p|sets] eqn:Ec;
      [split; [reflexivity | left; reflexivity]|].
    destruct (update_errors sets) as [|er errs]; [|split; [reflexivity | left; reflexivity]].
    cbn [collection enter].
    destruct (update_first _ _ (collection w)) as [[[old new] c']|] eqn:Eu;
      [|split; [reflexivity | left; reflexivity]].
    split; [reflexivity|]. right. exists oid, sets, old, new.
    split; [reflexivity|]. split; [reflexivity|]. exact Eu. }
  destruct (faults w) as [|[e|] rest]; [exact Hserved | | exact Hserved].
  split; [reflexivity | left; reflexivity].
Qed.

Lemma updateBug_world r w :
  let idv := get (params r) "id" in
  let u := build_updates (body r) in
  let w' := snd (updateBug r w) in
  (calls w' = FindById idv :: calls w /\ collection w' = collection w)
  \/ (calls w' = FindByIdAndUpdate idv u true true :: FindById idv :: calls w
      /\ (collection w' = collection w
          \/ exists oid sets old new now,
               castObjectId idv = Some oid
               /\ cast_updates (update_paths u) = inr sets
               /\ update_first (has_id oid) (apply_updates sets now) (collection w)
                  = Some (old, new, collection w'))).
Proof.
  intros idv u. unfold updateBug, try_catch, mbind, M_bind. fold idv. fold u.
  pose proof (Bug_findById_world idv w) as H1.
  destruct (Bug_findById idv w) as [[[bug|]|e] w1]; cbn [snd] in H1; subst w1.
  - pose proof (Bug_findByIdAndUpdate_world idv u (enter (FindById idv) w)) as H2.
    cbv zeta in H2. right.
    destruct (Bug_findByIdAndUpdate idv u true true (enter (FindById idv) w))
      as [[[ub|]|e] w2]; cbn [snd] in H2; unfold throw, mret, M_ret; cbn [snd];
      rewrite ?handle_validation_error_world;
      (destruct H2 as [Hcalls Hcoll]; split; [exact Hcalls|]);
      (destruct Hcoll as [Hcoll | (oid & sets & old & new & Ho & Hcu & Hu)];
       [left; exact Hcoll
       |right; exists oid, sets, old, new; eexists;
        split; [exact Ho|]; split; [exact Hcu|]; exact Hu]).
  - left. split; reflexivity.
  - left. rewrite handle_validation_error_world. split; reflexivity.
Qed.

Lemma updateBug_served r w id d0 :
  get (params r) "id" = JStr id ->
  isObjectIdSyntax id = true ->
  List.find (has_id (List.map lower_hex id)) (collection w) = Some d0 ->
  served w ->
  calls (snd (updateBug r w))
  = [FindByIdAndUpdate (JStr id) (build_updates (body r)) true true; FindById (JStr id)]
    ++ calls w.
Proof.
  intros Hid Hs Hf Hserved.
  destruct (updateBug_world r w) as [[Hc _] | [Hc _]]; rewrite Hid in Hc; [|exact Hc].
  exfalso. revert Hc.
  unfold updateBug, try_catch, mbind, M_bind. rewrite Hid.
  unfold Bug_findById at 1. rewrite (storage_served _ _ _ Hserved).
  cbn [castObjectId]. rewrite Hs. cbn [collection enter]. rewrite Hf.
  pose proof (Bug_findByIdAndUpdate_world (JStr id) (build_updates (body r))
                (enter (FindById (JStr id)) w)) as [H2 _].
  destruct (Bug_findByIdAndUpdate _ _ _ _ _) as [[[ub|]|e] w2]; cbn [snd] in H2 |- *;
    unfold throw, mret, M_ret; cbn [snd]; rewrite ?handle_validation_error_world;
    rewrite H2; intros E; apply (f_equal (@length _)) in E; simpl in E; lia.
Qed.

(** The storage layer checks the enumerations again. *)
Lemma storage_revalidates path values idv oid (u : Obj) s sets v :
  (path = "status" /\ values = validStatuses) \/ (path = "priority" /\ values = validPriorities) ->
  served v ->
  castObjectId idv = Some oid ->
  get u path = JStr s ->
  existsb (jseqb s) values = false ->
  cast_updates (update_paths u) = inr sets ->
  exists errs,
    Bug_findByIdAndUpdate idv u true true v
    = (Throw (validationError errs), enter (FindByIdAndUpdate idv u true true) v)
    /\ In (path, enumMessage path s) errs.
Proof.
  intros Hpath Hs Ho Hg Hn Hc.
  assert (exists t, In (path, t) bugSchema /\ castPath t (JStr s) = Some (JStr s)
                    /\ validatePath t path (JStr s) = Some (enumMessage path s))
    as (t & Ht & Hcast & Hval).
  { destruct Hpath as [[-> ->] | [-> ->]]; eexists; (split; [|split]).
    - right. right. left. reflexivity.
    - reflexivity.
    - cbn in Hn |- *. rewrite Hn. reflexivity.
    - right. right. right. left. reflexivity.
    - reflexivity.
    - cbn in Hn |- *. rewrite Hn. reflexivity. }
  assert (In (path, t, JStr s) (update_paths u)) as Hin
    by (apply update_paths_member; [exact Ht | exact Hg | discriminate]).
  destruct (cast_updates_member _ _ _ _ _ Hc Hin) as (v' & Hc' & Hin').
  rewrite Hcast in Hc'. injection Hc' as <-.
  pose proof (update_errors_member _ _ _ _ _ Hin' Hval) as Herr.
  unfold Bug_findByIdAndUpdate. rewrite (storage_served _ _ _ Hs), Ho, Hc.
  destruct (update_errors sets) as [|er errs]; [destruct Herr|].
  exists (er :: errs). split; [reflexivity | exact Herr].
Qed.

End UpdateOperation.

(** An update request that the validation rules accept and that targets
    an existing record leaves every record other than the target as it
    was, and in the target changes nothing but [updatedAt] and fields the
    request supplies: a field the request omits keeps its value.  The
    update object sent to the storage holds the free-text fields [title],
    [description] and [assignedTo] sanitized (no angle bracket, at most
    1000 code units) and is sent with [runValidators], under which the
    storage layer rejects a status or priority outside its enumeration. *)
Lemma update_frame (req : Request) (w : World) (id : jsstring) (d0 : Obj) :
  method req = PUT ->
  path req = Segment id ->
  violations req = [] ->
  List.find (has_id (List.map lower_hex id)) (collection w) = Some d0 ->
  (length (collection (snd (handle req w))) = length (collection w)
   /\ forall i d d',
        collection w !! i = Some d ->
        collection (snd (handle req w)) !! i = Some d' ->
        (has_id (List.map lower_hex id) d = false -> d' = d)
        /\ (forall k, k <> "updatedAt" -> get (body req) k = JUndefined -> d' !! k = d !! k))
  /\ (exists new,
        calls (snd (handle req w)) = new ++ calls w
        /\ forall idv u n rv,
             In (FindByIdAndUpdate idv u n rv) new ->
             rv = true
             /\ forall k v,
                  In k ["title"; "description"; "assignedTo"] ->
                  u !! k = Some v ->
                  v = sanitizeInput (get (body (validated req)) k)
                  /\ forall s, v = JStr s -> no_angle s /\ length s <= 1000)
  /\ (served w ->
      calls (snd (handle req w))
      = [FindByIdAndUpdate (JStr id) (build_updates (body (validated req))) true true;
         FindById (JStr id)] ++ calls w)
  /\ (forall path values idv oid (u : Obj) s sets v,
        (path = "status" /\ values = validStatuses)
        \/ (path = "priority" /\ values = validPriorities) ->
        served v ->
        castObjectId idv = Some oid ->
        get u path = JStr s ->
        existsb (jseqb s) values = false ->
        cast_updates (update_paths u) = inr sets ->
        exists errs,
          Bug_findByIdAndUpdate idv u true true v
          = (Throw (validationError errs), enter (FindByIdAndUpdate idv u true true) v)
          /\ In (path, enumMessage path s) errs).
Proof.
  intros Hm Hp Hv Hf.
  assert (id_request req id) as Hreq by (split; [exact Hp | right; left; exact Hm]).
  pose proof (found_id_well_formed id _ _ Hf) as Hs.
  assert (snd (handle req w) = snd (updateBug (validated req) w)) as Hw.
  { rewrite handle_snd_controller; [rewrite Hm; reflexivity | | exact Hv].
    rewrite Hm, Hp. discriminate. }
  pose proof (validated_id req id Hreq) as Hid.
  rewrite Hw.
  pose proof (updateBug_world (validated req) w) as Hworld. cbv zeta in Hworld.
  rewrite Hid in Hworld.
  set (u := build_updates (body (validated req))) in *.
  set (w' := snd (updateBug (validated req) w)) in *.
  assert (forall k v, In k ["title"; "description"; "assignedTo"] -> u !! k = Some v ->
            v = sanitizeInput (get (body (validated req)) k)
            /\ forall s, v = JStr s -> no_angle s /\ length s <= 1000) as Hsan.
  { intros k v Hk Hu. pose proof (proj2 (build_updates_lookup _ _ _ Hu) Hk) as E.
    split; [exact E|]. intros s0 Es. apply (sanitizeInput_is_text (get (body (validated req)) k)).
    congruence. }
  split; [|split; [|split]].
  - assert (collection w' = collection w
            \/ exists sets old new now,
                 cast_updates (update_paths u) = inr sets
                 /\ update_first (has_id (List.map lower_hex id)) (apply_updates sets now)
                      (collection w) = Some (old, new, collection w')) as Hcoll.
    { destruct Hworld as [[_ Hc] | [_ [Hc | (oid & sets & old & new & now & Ho & Hcu & Hu)]]];
        [left; exact Hc | left; exact Hc |].
      right. cbn [castObjectId] in Ho. rewrite Hs in Ho. injection Ho as <-.
      exists sets, old, new, now. split; assumption. }
    destruct Hcoll as [-> | (sets & old & new & now & Hcu & Hu)].
    + split; [reflexivity|]. intros i d d' Hd Hd'.
      assert (d' = d) as -> by congruence. split; [reflexivity | reflexivity].
    + destruct (update_first_frame _ _ _ _ _ _ Hu) as [Hl Hi].
      split; [exact Hl|]. intros i d d' Hd Hd'.
      destruct (Hi i d d' Hd Hd') as [-> | [Hp' ->]]; [split; reflexivity|].
      split; [congruence|]. intros k Hk Hk'.
      apply apply_updates_frame; [exact Hk|].
      rewrite (cast_updates_paths _ _ Hcu). intros Hin.
      apply update_paths_defined in Hin. apply build_updates_defined in Hin.
      apply Hin. exact (validated_keeps_undefined req id k Hm Hp Hk').
  - destruct Hworld as [[Hc _] | [Hc _]].
    + exists [FindById (JStr id)]. split; [exact Hc|].
      intros idv u' n rv [Hin|[]]. discriminate Hin.
    + exists [FindByIdAndUpdate (JStr id) u true true; FindById (JStr id)].
      split; [exact Hc|].
      intros idv u' n rv [Hin|[Hin|[]]]; [|discriminate Hin].
      injection Hin as <- <- <- <-. split; [reflexivity | exact Hsan].
  - intros Hserved. exact (updateBug_served (validated req) w id d0 Hid Hs Hf Hserved).
  - intros path values idv oid u0 s sets v Hpath Hsv Ho Hg Hn Hc.
    exact (storage_revalidates path values idv oid u0 s sets v Hpath Hsv Ho Hg Hn Hc).
Qed.

Example retitle_end_to_end :
  let w' := snd (handle (request PUT (Segment stored_id) ∅ retitle) one_bug_world) in
  first_record w' "title" = JStr (js "bNew title/b")
  /\ first_record w' "status" = JStr (js "resolved")
  /\ first_record w' "description" = first_record one_bug_world "description"
  /\ first_record w' "priority" = JStr (js "high")
  /\ first_record w' "reporter" = JStr (js "John Doe")
  /\ first_record w' "_id" = JStr stored_id.
Proof. vm_compute. repeat split. Qed.

(** The integration test "should validate status values on update": the
    request is rejected and the stored record is untouched. *)
Example invalid_status_update_end_to_end :
  handle (request PUT (Segment stored_id) ∅ (obj [("status", JStr (js "invalid-status"))]))
         one_bug_world
  = (Next (Some (AppError (js "Invalid status") 400)), one_bug_world).
Proof. vm_compute. reflexivity. Qed.

(** * Further properties of the program *)

(** ** White space around a text *)

Lemma trimStart_whitespace ws s : all_whitespace ws -> trimStart (ws ++ s) = trimStart s.
Proof.
  unfold all_whitespace. induction ws as [|c ws IH]; cbn [forallb app trimStart]; [reflexivity|].
  intros H. apply andb_prop in H as [Hc Hws]. rewrite Hc. exact (IH Hws).
Qed.

Lemma trimStart_all_whitespace ws : all_whitespace ws -> trimStart ws = [].
Proof.
  intros H. rewrite <- (app_nil_r ws). rewrite (trimStart_whitespace ws [] H). reflexivity.
Qed.

Lemma all_whitespace_rev ws : all_whitespace ws -> all_whitespace (rev ws).
Proof.
  unfold all_whitespace. rewrite !forallb_forall. intros H c Hc. apply H, in_rev, Hc.
Qed.

Lemma trimEnd_whitespace s ws : all_whitespace ws -> trimEnd (s ++ ws) = trimEnd s.
Proof.
  intros H. unfold trimEnd. rewrite rev_app_distr.
  rewrite (trimStart_whitespace _ _ (all_whitespace_rev ws H)). reflexivity.
Qed.

Lemma trimStart_split s : exists p, s = p ++ trimStart s /\ all_whitespace p.
Proof.
  unfold all_whitespace. induction s as [|c r (p & Hp & Hw)]; cbn [trimStart].
  - exists []. split; reflexivity.
  - destruct (is_whitespace c) eqn:E.
    + exists (c :: p). split; [simpl; congruence | simpl; rewrite E; exact Hw].
    + exists []. split; reflexivity.
Qed.

(** White space before and after a text does not count for [trim]. *)
Lemma trim_whitespace ws1 s ws2 :
  all_whitespace ws1 -> all_whitespace ws2 -> trim (ws1 ++ s ++ ws2) = trim s.
Proof.
  intros H1 H2. unfold trim. rewrite (trimStart_whitespace ws1 _ H1).
  destruct (trimStart_split s) as (p & Hp & Hw).
  destruct (trimStart s) as [|c r] eqn:E.
  - rewrite app_nil_r in Hp. subst p.
    assert (all_whitespace (s ++ ws2)) as Hall.
    { unfold all_whitespace in *. rewrite forallb_app, Hw, H2. reflexivity. }
    rewrite (trimStart_all_whitespace _ Hall). reflexivity.
  - assert (is_whitespace c = false) as Hc.
    { pose proof (trimStart_no_lead s) as Hn. rewrite E in Hn. exact Hn. }
    rewrite Hp at 1. rewrite <- app_assoc, (trimStart_whitespace p _ Hw).
    cbn [app trimStart]. rewrite Hc.
    change (c :: r ++ ws2) with ((c :: r) ++ ws2).
    apply trimEnd_whitespace, H2.
Qed.

Lemma filter_length_le {A} (f : A -> bool) l : length (List.filter f l) <= length l.
Proof. induction l as [|x l IH]; simpl; [lia|]. destruct (f x); simpl; lia. Qed.

Lemma filter_sublist {A} (f : A -> bool) l : sublist (List.filter f l) l.
Proof.
  induction l as [|x l IH]; simpl; [constructor|].
  destruct (f x); [apply sublist_skip | apply sublist_cons]; exact IH.
Qed.

Lemma trim_sublist s : sublist (trim s) s.
Proof.
  destruct (trim_infix s) as (p & q & E). rewrite E at 2.
  apply sublist_inserts_l, sublist_inserts_r. reflexivity.
Qed.

(** ** The sanitizer and the length check *)

(** X1.  [meetsMinLength] is false for whatever is not a text, whatever the
    minimum; for a text, white space put before or after it changes
    nothing; and a text that meets a minimum meets every smaller one. *)
Theorem meetsMinLength_properties :
  (forall v n, (forall s, v <> JStr s) -> meetsMinLength v n = false)
  /\ (forall ws1 s ws2 n,
        all_whitespace ws1 -> all_whitespace ws2 ->
        meetsMinLength (JStr (ws1 ++ s ++ ws2)) n = meetsMinLength (JStr s) n)
  /\ (forall v n m, m <= n -> meetsMinLength v n = true -> meetsMinLength v m = true).
Proof.
  split; [|split].
  - intros v n H. destruct v; try reflexivity. exfalso. exact (H s eq_refl).
  - intros ws1 s ws2 n H1 H2. cbn [meetsMinLength].
    rewrite (trim_whitespace ws1 s ws2 H1 H2). reflexivity.
  - intros v n m Hm H. destruct v; cbn [meetsMinLength] in *; try discriminate.
    apply Nat.leb_le in H. apply Nat.leb_le. lia.
Qed.

Lemma meetsMinLength_properties_witness :
  meetsMinLength (JStr (js "  hi  ")) 2 = meetsMinLength (JStr (js "hi")) 2
  /\ meetsMinLength (JStr (js "  hi  ")) 1 = true.
Proof.
  split.
  - apply (proj1 (proj2 meetsMinLength_properties) (js "  ") (js "hi") (js "  ") 2);
      reflexivity.
  - apply (proj2 (proj2 meetsMinLength_properties) (JStr (js "  hi  ")) 2 1);
      [lia | reflexivity].
Defined.

(** X2.  What is not a text passes through the sanitizer unchanged.  Of a
    text the sanitizer keeps a subsequence (it adds nothing and reorders
    nothing) that holds no angle bracket and has at most 1000 code units. *)
Theorem sanitizeInput_safe :
  (forall v, (forall s, v <> JStr s) -> sanitizeInput v = v)
  /\ (forall s, exists t,
        sanitizeInput (JStr s) = JStr t
        /\ no_angle t /\ length t <= 1000 /\ sublist t s).
Proof.
  split.
  - intros v H. destruct v; try reflexivity. exfalso. exact (H s eq_refl).
  - intros s. exists (slice0 1000 (strip_angle (trim s))).
    split; [reflexivity|]. split; [apply slice0_no_angle, strip_angle_no_angle|].
    split; [unfold slice0; rewrite length_take; lia|].
    transitivity (strip_angle (trim s)); [exact (sublist_take _ 1000)|].
    transitivity (trim s); [apply filter_sublist | apply trim_sublist].
Qed.

(** X3.  When at least 1000 code units are left after trimming and
    stripping, the sanitizer returns exactly 1000. *)
Theorem sanitizeInput_truncates (s : jsstring) :
  1000 <= length (strip_angle (trim s)) ->
  exists t, sanitizeInput (JStr s) = JStr t /\ length t = 1000.
Proof.
  intros H. eexists. split; [reflexivity|]. unfold slice0. rewrite length_take. lia.
Qed.

Lemma sanitizeInput_truncates_witness :
  exists t, sanitizeInput (JStr (repeat 97%N 1500)) = JStr t /\ length t = 1000.
Proof.
  apply sanitizeInput_truncates. vm_compute. lia.
Defined.

(** X4.  Sanitizing never makes a value meet a minimum length it did not
    meet before. *)
Theorem sanitizeInput_never_lengthens (v : JsValue) (n : nat) :
  meetsMinLength (sanitizeInput v) n = true -> meetsMinLength v n = true.
Proof.
  destruct v; cbn [sanitizeInput meetsMinLength]; try discriminate.
  intros H. apply Nat.leb_le in H. apply Nat.leb_le.
  pose proof (trim_length (slice0 1000 (strip_angle (trim s)))) as H1.
  assert (length (slice0 1000 (strip_angle (trim s))) <= length (strip_angle (trim s))) as H2
    by (unfold slice0; rewrite length_take; lia).
  pose proof (filter_length_le (fun c => negb (is_angle c)) (trim s)) as H3.
  unfold strip_angle in *. lia.
Qed.

Lemma sanitizeInput_never_lengthens_witness :
  meetsMinLength (JStr (js " <b>bold</b> ")) 4 = true.
Proof.
  apply sanitizeInput_never_lengthens. vm_compute. reflexivity.
Defined.

(** ** The e-mail pattern *)

Section Regex.

Lemma seq_inv a b s :
  matches_regex (RSeq a b) s
  <-> exists s1 s2, s = s1 ++ s2 /\ matches_regex a s1 /\ matches_regex b s2.
Proof.
  split.
  - intros H. inversion H; subst. eexists _, _. repeat split; assumption.
  - intros (s1 & s2 & -> & H1 & H2). constructor; assumption.
Qed.

Lemma class_inv (p : N -> bool) s :
  matches_regex (RClass p) s <-> exists c, s = [c] /\ p c = true.
Proof.
  split.
  - intros H. inversion H; subst. eexists. split; [reflexivity | assumption].
  - intros (c & -> & H). constructor. exact H.
Qed.

Lemma nullable_spec r : nullable r = true <-> matches_regex r [].
Proof.
  induction r as [| |p|a IHa b IHb|a IHa b IHb|a IHa]; cbn [nullable].
  - split; [discriminate | intros H; inversion H].
  - split; [constructor | reflexivity].
  - split; [discriminate | intros H; inversion H].
  - rewrite andb_true_iff, IHa, IHb. split.
    + intros [Ha Hb]. exact (m_seq a b [] [] Ha Hb).
    + intros H. apply seq_inv in H as (s1 & s2 & E & H1 & H2).
      symmetry in E. apply app_eq_nil in E as [-> ->]. split; assumption.
  - rewrite orb_true_iff, IHa, IHb. split.
    + intros [H|H]; [apply m_alt_l | apply m_alt_r]; exact H.
    + intros H. inversion H; subst; [left | right]; assumption.
  - split; [constructor | reflexivity].
Qed.

(** A match of [a*] that starts with [c] starts with a match of [a] that
    starts with [c]. *)
Lemma star_cons a c s :
  matches_regex (RStar a) (c :: s) ->
  exists s1 s2, s = s1 ++ s2 /\ matches_regex a (c :: s1) /\ matches_regex (RStar a) s2.
Proof.
  intros H. remember (RStar a) as r eqn:Er. remember (c :: s) as t eqn:Et.
  revert s Et. induction H as [| | | | | |a' u1 u2 H1 _ H2 IH2]; intros s0 Et; try discriminate.
  injection Er as ->. destruct u1 as [|c1 u1].
  - simpl in Et. exact (IH2 eq_refl s0 Et).
  - simpl in Et. injection Et as -> <-. exists u1, u2. repeat split; assumption.
Qed.

Lemma deriv_spec r : forall c s, matches_regex (deriv c r) s <-> matches_regex r (c :: s).
Proof.
  induction r as [| |p|a IHa b IHb|a IHa b IHb|a IHa]; intros c s; cbn [deriv].
  - split; intros H; inversion H.
  - split; intros H; inversion H.
  - destruct (p c) eqn:E; split; intros H; inversion H; subst.
    + constructor. exact E.
    + constructor.
    + congruence.
  - assert (matches_regex (RSeq (deriv c a) b) s
            <-> exists s1 s2, s = s1 ++ s2 /\ matches_regex a (c :: s1) /\ matches_regex b s2)
      as Hseq.
    { split.
      - intros H. inversion H as [| |a' b' s1 s2 H1 H2| | | |]; subst.
        exists s1, s2. split; [reflexivity|]. split; [apply IHa, H1 | exact H2].
      - intros (s1 & s2 & -> & H1 & H2). constructor; [apply IHa, H1 | exact H2]. }
    assert (matches_regex (RSeq a b) (c :: s)
            <-> (exists s1 s2, s = s1 ++ s2 /\ matches_regex a (c :: s1) /\ matches_regex b s2)
                \/ (matches_regex a [] /\ matches_regex b (c :: s))) as Hcons.
    { split.
      - intros H. apply seq_inv in H as (s1 & s2 & E & H1 & H2).
        destruct s1 as [|c1 s1]; simpl in E.
        + right. subst s2. split; assumption.
        + injection E as <- ->. left. exists s1, s2. repeat split; assumption.
      - intros [(s1 & s2 & -> & H1 & H2) | [H1 H2]].
        + exact (m_seq a b (c :: s1) s2 H1 H2).
        + exact (m_seq a b [] (c :: s) H1 H2). }
    rewrite Hcons. destruct (nullable a) eqn:En.
    + split.
      * intros H. inversion H; subst; [left; apply Hseq; assumption|].
        right. split; [apply nullable_spec, En | apply IHb; assumption].
      * intros [H | [_ H]]; [apply m_alt_l, Hseq, H | apply m_alt_r, IHb, H].
    + rewrite Hseq. split; [intros H; left; exact H|].
      intros [H | [H _]]; [exact H|]. apply nullable_spec in H. congruence.
  - split; intros H; inversion H; subst;
      first [apply m_alt_l; apply IHa; assumption | apply m_alt_r; apply IHb; assumption].
  - split.
    + intros H. inversion H as [| |a' b' s1 s2 H1 H2| | | |]; subst.
      exact (m_star_app a (c :: s1) s2 (proj1 (IHa c s1) H1) H2).
    + intros H. destruct (star_cons a c s H) as (s1 & s2 & -> & H1 & H2).
      constructor; [apply IHa, H1 | exact H2].
Qed.

(** The derivative test decides the matching. *)
Lemma regex_match_spec s : forall r, regex_match r s = true <-> matches_regex r s.
Proof.
  induction s as [|c s IH]; intros r; cbn [regex_match].
  - apply nullable_spec.
  - rewrite IH. apply deriv_spec.
Qed.

Lemma star_class p s : matches_regex (RStar (RClass p)) s <-> forallb p s = true.
Proof.
  split.
  - intros H. remember (RStar (RClass p)) as r eqn:Er.
    induction H as [| | | | | |a s1 s2 H1 _ H2 IH2]; try discriminate; [reflexivity|].
    injection Er as ->. inversion H1; subst. simpl.
    rewrite (IH2 eq_refl). rewrite H0. reflexivity.
  - induction s as [|c s IH]; cbn [forallb]; intros H; [constructor|].
    apply andb_prop in H as [Hc Hs].
    exact (m_star_app (RClass p) [c] s (m_class p c Hc) (IH Hs)).
Qed.

Lemma plus_class s : matches_regex (RPlus (RClass plain_char)) s <-> plain s.
Proof.
  unfold RPlus, plain. split.
  - intros H. inversion H as [| |a b s1 s2 H1 H2| | | |]; subst.
    inversion H1; subst. apply star_class in H2. split; [discriminate|].
    simpl. rewrite H3, H2. reflexivity.
  - intros [Hne Hall]. destruct s as [|c s]; [congruence|].
    cbn [forallb] in Hall. apply andb_prop in Hall as [Hc Hs].
    exact (m_seq _ _ [c] s (m_class _ c Hc) (proj2 (star_class _ s) Hs)).
Qed.

End Regex.

(** X5.  [isValidEmail] accepts a text exactly when it is
    [local @ domain . rest], each of the three parts being one or more
    characters that are neither white space nor ['@'] (the domain and the
    rest may hold further dots).  So an accepted text has exactly one ['@']
    and no white space at all. *)
Theorem isValidEmail_shape (s : jsstring) :
  (isValidEmail (JStr s) = true
   <-> exists l a b, s = l ++ [64%N] ++ a ++ [46%N] ++ b /\ plain l /\ plain a /\ plain b)
  /\ (isValidEmail (JStr s) = true ->
      length (List.filter (fun c => (c =? 64)%N) s) = 1
      /\ forallb (fun c => negb (is_whitespace c)) s = true).
Proof.
  assert (isValidEmail (JStr s) = true
          <-> exists l a b, s = l ++ [64%N] ++ a ++ [46%N] ++ b /\ plain l /\ plain a /\ plain b)
    as Hshape.
  { unfold isValidEmail, emailRegex. cbn [ToString]. rewrite regex_match_spec. split.
    - intros H.
      apply seq_inv in H as (l & r1 & -> & Hl & H).
      apply seq_inv in H as (at1 & r2 & -> & Hat & H).
      apply seq_inv in H as (a & r3 & -> & Ha & H).
      apply seq_inv in H as (dot & b & -> & Hdot & Hb).
      apply class_inv in Hat as (c1 & -> & Hc1). apply N.eqb_eq in Hc1. subst c1.
      apply class_inv in Hdot as (c2 & -> & Hc2). apply N.eqb_eq in Hc2. subst c2.
      exists l, a, b. split; [reflexivity|].
      split; [apply plus_class, Hl|]. split; [apply plus_class, Ha | apply plus_class, Hb].
    - intros (l & a & b & -> & Hl & Ha & Hb).
      apply m_seq; [apply plus_class, Hl|].
      apply m_seq; [apply m_class; reflexivity|].
      apply m_seq; [apply plus_class, Ha|].
      apply m_seq; [apply m_class; reflexivity | apply plus_class, Hb]. }
  split; [exact Hshape|].
  intros H. apply Hshape in H as (l & a & b & -> & [_ Hl] & [_ Ha] & [_ Hb]).
  assert (forall x, forallb plain_char x = true ->
            List.filter (fun c => (c =? 64)%N) x = []
            /\ forallb (fun c => negb (is_whitespace c)) x = true) as Hplain.
  { induction x as [|c x IH]; cbn [forallb List.filter]; [split; reflexivity|].
    intros Hx. apply andb_prop in Hx as [Hc Hx]. destruct (IH Hx) as [IH1 IH2].
    unfold plain_char in Hc. apply andb_prop in Hc as [Hw Hat].
    apply negb_true_iff in Hat. rewrite Hat, Hw, IH2. split; [exact IH1 | reflexivity]. }
  destruct (Hplain l Hl) as [Fl Wl]. destruct (Hplain a Ha) as [Fa Wa].
  destruct (Hplain b Hb) as [Fb Wb].
  rewrite !List.filter_app, !forallb_app, Fl, Fa, Fb, Wl, Wa, Wb. split; reflexivity.
Qed.

Lemma isValidEmail_shape_witness :
  length (List.filter (fun c => (c =? 64)%N) (js "user.name@domain.co.uk")) = 1
  /\ forallb (fun c => negb (is_whitespace c)) (js "user.name@domain.co.uk") = true.
Proof.
  apply (proj2 (isValidEmail_shape (js "user.name@domain.co.uk"))).
  vm_compute. reflexivity.
Defined.

Example isValidEmail_tests :
  isValidEmail (JStr (js "test@example.com")) = true
  /\ isValidEmail (JStr (js "invalid")) = false
  /\ isValidEmail (JStr (js "test@")) = false
  /\ isValidEmail (JStr (js "@domain.com")) = false
  /\ isValidEmail (JStr []) = false.
Proof. vm_compute. repeat split. Qed.

(** ** How the operations change the collection *)

Section Changes.

Lemma Bug_findByIdAndUpdate_change idv u w :
  collection (snd (Bug_findByIdAndUpdate idv u true true w)) = collection w
  \/ exists oid sets old new,
       cast_updates (update_paths u) = inr sets
       /\ update_errors sets = []
       /\ update_first (has_id oid)
            (apply_updates sets (clock (enter (FindByIdAndUpdate idv u true true) w)))
            (collection w)
          = Some (old, new, collection (snd (Bug_findByIdAndUpdate idv u true true w))).
Proof.
  unfold Bug_findByIdAndUpdate, storage.
  set (c := FindByIdAndUpdate idv u true true).
  destruct (faults w) as [|[e|] rest]; try (left; reflexivity);
    (destruct (castObjectId idv) as [oid|]; [|left; reflexivity]);
    (destruct (cast_updates (update_paths u)) as [p|sets] eqn:Ec; [left; reflexivity|]);
    (destruct (update_errors sets) as [|er errs] eqn:Ee; [|left; reflexivity]);
    cbn [collection enter];
    (destruct (update_first _ _ (collection w)) as [[[old new] c']|] eqn:Eu;
     [|left; reflexivity]);
    right; exists oid, sets, old, new;
    (split; [first [exact Ec | reflexivity]|]);
    (split; [first [exact Ee | reflexivity] | exact Eu]).
Qed.

Lemma updateBug_change r w :
  collection (snd (updateBug r w)) = collection w
  \/ exists oid sets now old new,
       cast_updates (update_paths (build_updates (body r))) = inr sets
       /\ update_errors sets = []
       /\ update_first (has_id oid) (apply_updates sets now) (collection w)
          = Some (old, new, collection (snd (updateBug r w))).
Proof.
  unfold updateBug, try_catch, mbind, M_bind.
  set (idv := get (params r) "id"). set (u := build_updates (body r)).
  pose proof (Bug_findById_world idv w) as H1.
  destruct (Bug_findById idv w) as [[[bug|]|e] w1]; cbn [snd] in H1; subst w1.
  - pose proof (Bug_findByIdAndUpdate_change idv u (enter (FindById idv) w)) as H2.
    destruct (Bug_findByIdAndUpdate idv u true true (enter (FindById idv) w))
      as [[[ub|]|e] w2]; cbn [snd] in H2; unfold throw, mret, M_ret; cbn [snd];
      rewrite ?handle_validation_error_world;
      (destruct H2 as [H2 | (oid & sets & old & new & Hc & He & Hu)];
       [left; exact H2 | right; exists oid, sets; eexists; exists old, new;
                         split; [exact Hc|]; split; [exact He | exact Hu]]).
  - left. reflexivity.
  - left. rewrite handle_validation_error_world. reflexivity.
Qed.

Lemma createBug_change r w :
  collection (snd (createBug r w)) = collection w
  \/ (document_errors (bugData (body r)) = []
      /\ collection (snd (createBug r w))
         = collection w
           ++ [pre_save (clock w + 1 + lag w)
                 (new_document (bugData (body r)) (objectId (serial w)) (clock w + 1))]).
Proof.
  unfold createBug, try_catch, mbind, M_bind, Bug_create, storage. cbv zeta.
  destruct (faults w) as [|[e|] rest];
    try (left; rewrite handle_validation_error_world; reflexivity);
    (destruct (document_errors (bugData (body r))) as [|er errs] eqn:E;
     [right; split; reflexivity | left; rewrite handle_validation_error_world; reflexivity]).
Qed.

Lemma deleteBug_change r w :
  collection (snd (deleteBug r w)) = collection w
  \/ exists oid d,
       remove_first (has_id oid) (collection w) = Some (d, collection (snd (deleteBug r w))).
Proof.
  unfold deleteBug, try_catch, mbind, M_bind, forward, mret, M_ret.
  set (idv := get (params r) "id").
  pose proof (Bug_findById_world idv w) as H1.
  destruct (Bug_findById idv w) as [[[bug|]|e] w1]; cbn [snd] in H1; subst w1;
    [|left; reflexivity | left; reflexivity].
  unfold Bug_findByIdAndDelete, storage. cbn [faults enter collection].
  destruct (tail (faults w)) as [|[e|] rest]; try (left; reflexivity);
    (destruct (castObjectId idv) as [oid|]; [|left; reflexivity]);
    (destruct (remove_first (has_id oid) (collection w)) as [[d c']|] eqn:Er;
     [right; exists oid, d; exact Er | left; reflexivity]).
Qed.

Lemma getBugById_change r w : collection (snd (getBugById r w)) = collection w.
Proof.
  unfold getBugById, try_catch, mbind, M_bind, forward, mret, M_ret.
  pose proof (Bug_findById_world (get (params r) "id") w) as H1.
  destruct (Bug_findById _ w) as [[[bug|]|e] w1]; cbn [snd] in H1; subst w1; reflexivity.
Qed.

Lemma Bug_aggregate_change path w :
  collection (snd (Bug_aggregate path w)) = collection w.
Proof.
  unfold Bug_aggregate, storage. destruct (faults w) as [|[e|] rest]; reflexivity.
Qed.

Lemma getBugStats_change r w : collection (snd (getBugStats r w)) = collection w.
Proof.
  unfold getBugStats, try_catch, mbind, M_bind, forward, mret, M_ret.
  pose proof (Bug_aggregate_change "status" w) as H1.
  destruct (Bug_aggregate "status" w) as [[a|e] w1]; cbn [snd] in H1 |- *; [|exact H1].
  pose proof (Bug_aggregate_change "priority" w1) as H2.
  destruct (Bug_aggregate "priority" w1) as [[b|e] w2]; cbn [snd] in H2 |- *; congruence.
Qed.

Lemma handle_no_rules_snd req w (c : Request -> M Outcome) :
  router (method req) (path req) = Some [controller c] ->
  snd (handle req w) = snd (c (routed req) w).
Proof.
  intros H. unfold handle. rewrite H. cbn [run_middleware]. unfold controller.
  destruct (c (routed req) w) as [[o|e] w']; reflexivity.
Qed.

(** Every request changes the collection in one of the four ways. *)
Lemma handle_change req w : change req w (collection (snd (handle req w))).
Proof.
  destruct (decide (rules_of (method req) (path req) = [])) as [Hr|Hr].
  - destruct (method req) eqn:Hm, (path req) as [|seg] eqn:Hp; cbn [rules_of] in Hr;
      try discriminate Hr;
      try (unfold handle; rewrite Hm, Hp; cbn [router]; apply change_none).
    + rewrite (handle_no_rules_snd req w getAllBugs) by (rewrite Hm, Hp; reflexivity).
      rewrite getAllBugs_result.
      destruct (faults w) as [|[e|] rest]; cbv zeta; cbn [snd collection enter];
        apply change_none.
    + destruct (is_stats seg) eqn:Es; [|discriminate Hr].
      rewrite (handle_no_rules_snd req w getBugStats)
        by (rewrite Hm, Hp; cbn [router]; rewrite Es; reflexivity).
      rewrite getBugStats_change. apply change_none.
  - destruct (violations req) as [|m ms] eqn:Hv.
    + rewrite (handle_snd_controller req w Hr Hv).
      destruct (method req) eqn:Hm; cbn [controller_of].
      * rewrite getBugById_change. apply change_none.
      * assert (Hp : path req = Root)
          by (revert Hr; destruct (path req); intros Hr;
              [reflexivity | contradiction Hr; reflexivity]).
        destruct (createBug_change (validated req) w) as [-> | [He ->]];
          [apply change_none
          |apply change_create; [exact Hm | exact Hp | reflexivity | exact He]].
      * assert (Hp : exists id, path req = Segment id)
          by (revert Hr; destruct (path req) as [|id]; intros Hr;
              [contradiction Hr; reflexivity | exists id; reflexivity]).
        destruct (updateBug_change (validated req) w)
          as [-> | (oid & sets & now & old & new & Hc & He & Hu)]; [apply change_none|].
        exact (change_update req w oid sets now old new _ Hm Hp Hc He Hu).
      * destruct (deleteBug_change (validated req) w) as [-> | (oid & d & Hd)];
          [apply change_none|].
        exact (change_delete req w oid d _ Hm Hd).
    + rewrite handle_rejected by (rewrite Hv; discriminate). apply change_none.
Qed.

End Changes.

Lemma remove_first_spec (p : Obj -> bool) l : forall d l',
  remove_first p l = Some (d, l') ->
  exists l1 l2, l = l1 ++ d :: l2 /\ l' = l1 ++ l2 /\ p d = true
                /\ Forall (fun x => p x = false) l1.
Proof.
  induction l as [|x r IH]; intros d l' H; cbn [remove_first] in H; [discriminate|].
  destruct (p x) eqn:Ep.
  - injection H as <- <-. exists [], r. repeat split; [exact Ep | constructor].
  - destruct (remove_first p r) as [[y r']|] eqn:E; [|discriminate].
    injection H as <- <-. destruct (IH _ _ eq_refl) as (l1 & l2 & -> & -> & Hd & Hl).
    exists (x :: l1), l2. repeat split; [exact Hd | constructor; assumption].
Qed.

Lemma build_updates_keys (b : Obj) k v : build_updates b !! k = Some v -> In k updatable.
Proof.
  unfold build_updates. intros H.
  repeat (apply conditional_insert in H as [(-> & _ & _) | H];
          [cbn; tauto|]).
  rewrite lookup_empty in H. discriminate.
Qed.

Lemma sets_paths_updatable (b : Obj) sets k :
  cast_updates (update_paths (build_updates b)) = inr sets ->
  In k (List.map path_of sets) -> In k updatable.
Proof.
  intros Hc Hin. rewrite (cast_updates_paths _ _ Hc) in Hin.
  apply update_paths_defined in Hin. unfold get in Hin.
  destruct (build_updates b !! k) as [v|] eqn:E; [|exfalso; apply Hin; reflexivity].
  exact (build_updates_keys b k v E).
Qed.

(** X6.  What each kind of request can do to the collection, whatever the
    payload and whatever the storage answers: a [GET] leaves it as it is; a
    [POST] leaves it as it is or adds one record at its end; a [PUT] keeps
    the number of records; a [DELETE] leaves it as it is or takes one
    record out, the others staying in their order. *)
Theorem request_effects (req : Request) (w : World) :
  (method req = GET -> collection (snd (handle req w)) = collection w)
  /\ (method req = POST ->
      collection (snd (handle req w)) = collection w
      \/ exists d, collection (snd (handle req w)) = collection w ++ [d])
  /\ (method req = PUT ->
      length (collection (snd (handle req w))) = length (collection w))
  /\ (method req = DELETE ->
      collection (snd (handle req w)) = collection w
      \/ exists l1 d l2,
           collection w = l1 ++ d :: l2
           /\ collection (snd (handle req w)) = l1 ++ l2).
Proof.
  pose proof (handle_change req w) as H.
  split; [|split; [|split]]; intros Hm;
    inversion H as [E | data Hm' _ Hd He E | oid sets now old new c' Hm' _ Hc He Hu E
                    | oid d c' Hm' Hr E]; try congruence.
  - left. reflexivity.
  - right. eexists. reflexivity.
  - exact (proj1 (update_first_frame _ _ _ _ _ _ Hu)).
  - left. reflexivity.
  - right. destruct (remove_first_spec _ _ _ _ Hr) as (l1 & l2 & E1 & E2 & _).
    exists l1, d, l2. split; assumption.
Qed.

Lemma request_effects_witness :
  collection (snd (handle (request GET Root ∅ ∅) one_bug_world)) = collection one_bug_world.
Proof.
  apply (proj1 (request_effects (request GET Root ∅ ∅) one_bug_world)). reflexivity.
Defined.

(** X7.  No update request, whatever its payload, changes a field of a
    record other than the six it can set and [updatedAt]: the identifier,
    the reporter and the creation time of every record stay as they are,
    also when the payload names them. *)
Theorem update_keeps_identity (req : Request) (w : World) :
  method req = PUT ->
  forall i d d' k,
    collection w !! i = Some d ->
    collection (snd (handle req w)) !! i = Some d' ->
    ~ In k updatable -> k <> "updatedAt" ->
    d' !! k = d !! k.
Proof.
  intros Hm i d d' k Hd Hd' Hk Hu.
  pose proof (handle_change req w) as H.
  inversion H as [E | data Hm' _ _ _ E | oid sets now old new c' Hm' _ Hc He Hf E
                  | oid x c' Hm' Hr E]; try congruence.
  destruct (proj2 (update_first_frame _ _ _ _ _ _ Hf) i d d' Hd Hd') as [-> | [_ ->]];
    [reflexivity|].
  apply apply_updates_frame; [exact Hu|].
  intros Hin. apply Hk. exact (sets_paths_updatable _ sets k Hc Hin).
Qed.

Lemma update_keeps_identity_witness :
  exists d',
    collection (snd (handle (request PUT (Segment stored_id) ∅
                               (obj [("reporter", JStr (js "Someone else"));
                                     ("title", JStr (js "Another title"))]))
                       one_bug_world)) !! 0 = Some d'
    /\ d' !! "reporter" = stored_bug !! "reporter".
Proof.
  eexists. split; [vm_compute; reflexivity|].
  apply (update_keeps_identity
           (request PUT (Segment stored_id) ∅
              (obj [("reporter", JStr (js "Someone else"));
                    ("title", JStr (js "Another title"))]))
           one_bug_world eq_refl 0 stored_bug _ "reporter").
  - vm_compute; reflexivity.
  - vm_compute; reflexivity.
  - cbn. intuition discriminate.
  - discriminate.
Defined.

(** ** What stored records never hold *)


Lemma uint_no_angle u : no_angle (js (NilEmpty.string_of_uint u)).
Proof.
  unfold no_angle, js. induction u; cbn; try reflexivity; exact IHu.
Qed.

Lemma decimal_no_angle n : no_angle (decimal n).
Proof.
  unfold decimal. destruct n; [reflexivity| |];
    (destruct (Z.to_int _) as [u|u]; cbn [NilEmpty.string_of_int];
     [apply uint_no_angle | exact (uint_no_angle u)]).
Qed.

Lemma castString_clean tr x s :
  (forall o, x <> JObj o) ->
  castString tr (sanitizeInput x) = Some (JStr s) -> no_angle s.
Proof.
  assert (Ht : forall u, no_angle u -> no_angle (if tr then trim u else u))
    by (intros u Hu; destruct tr; [apply trim_no_angle|]; exact Hu).
  intros Ho.
  destruct x as [| |b|n|s0|l|o]; try (cbn [sanitizeInput castString]; discriminate).
  - cbn [sanitizeInput castString]. intros [= <-]. apply Ht. destruct b; reflexivity.
  - cbn [sanitizeInput castString]. intros [= <-]. apply Ht. apply decimal_no_angle.
  - destruct (sanitizeInput_text s0) as (t & E & Ha & _).
    rewrite E. cbn [castString]. intros [= <-]. apply Ht, Ha.
  - destruct (Ho o eq_refl).
Qed.

Lemma castPath_clean t x s :
  (forall o, x <> JObj o) ->
  castPath t (sanitizeInput x) = Some (JStr s) -> no_angle s.
Proof.
  intros Ho. destruct t as [o|tr]; cbn [castPath]; [apply castString_clean, Ho|].
  intros H. exfalso.
  destruct (sanitizeInput x); cbv beta iota in H; try discriminate H;
    match type of H with context [castItems ?a ?b] => destruct (castItems a b) end;
    discriminate H.
Qed.

Lemma set_path_lookup path t v (doc : Obj) k x :
  set_path path t v doc !! k = Some x ->
  (k = path /\ castPath t v = Some x) \/ doc !! k = Some x.
Proof.
  unfold set_path. destruct (castPath t v) as [v'|]; [|tauto].
  destruct (decide (path = k)) as [->|Hne].
  - destruct v'; rewrite ?lookup_insert_eq; try tauto; intros [= <-]; left; tauto.
  - destruct v'; rewrite ?lookup_insert_ne by exact Hne; tauto.
Qed.

Lemma new_document_lookup (data : Obj) id now k x :
  new_document data id now !! k = Some x ->
  (exists t, In (k, t) bugSchema /\ castPath t (incoming data k t) = Some x)
  \/ obj [("_id", JStr id); ("createdAt", JNum now); ("updatedAt", JNum now);
          ("__v", JNum 0)] !! k = Some x.
Proof.
  unfold new_document. generalize bugSchema as l.
  induction l as [|[p t] l IH]; cbn [foldr fst snd]; [tauto|].
  intros H. apply set_path_lookup in H as [[-> H]|H].
  - left. exists t. split; [left; reflexivity | exact H].
  - destruct (IH H) as [(t' & Hin & Hc)|Hb]; [left|right; exact Hb].
    exists t'. split; [right; exact Hin | exact Hc].
Qed.

Lemma apply_updates_lookup sets now (d : Obj) k x :
  apply_updates sets now d !! k = Some x ->
  k = "updatedAt" \/ (exists t, In (k, t, x) sets) \/ d !! k = Some x.
Proof.
  unfold apply_updates. destruct (decide ("updatedAt" = k)) as [<-|Hne]; [tauto|].
  rewrite lookup_insert_ne by exact Hne. intros H. right.
  induction sets as [|[[p t] v] sets IH]; cbn [foldr fst snd] in H; [tauto|].
  destruct (decide (p = k)) as [->|Hp].
  - rewrite lookup_insert_eq in H. injection H as ->. left. exists t. left. reflexivity.
  - rewrite lookup_insert_ne in H by exact Hp.
    destruct (IH H) as [(t' & Hin)|Hd]; [left; exists t'; right; exact Hin | tauto].
Qed.

Lemma cast_updates_origin l : forall sets p t v',
  cast_updates l = inr sets ->
  In (p, t, v') sets ->
  exists v, In (p, t, v) l /\ castPath t v = Some v'.
Proof.
  induction l as [|[[p0 t0] v0] l IH]; intros sets p t v' H Hin; cbn [cast_updates] in H.
  - injection H as <-. destruct Hin.
  - destruct (castPath t0 v0) as [v0'|] eqn:Ec; [|discriminate].
    destruct (cast_updates l) as [q|sets'] eqn:E; [discriminate|].
    injection H as <-. destruct Hin as [Hin|Hin].
    + injection Hin as <- <- <-. exists v0. split; [left; reflexivity | exact Ec].
    + destruct (IH _ _ _ _ eq_refl Hin) as (v & Hl & Hc).
      exists v. split; [right; exact Hl | exact Hc].
Qed.

Lemma update_paths_origin (u : Obj) p t v :
  In (p, t, v) (update_paths u) -> In (p, t) bugSchema /\ u !! p = Some v.
Proof.
  intros Hin. apply list_elem_of_In, list_elem_of_omap in Hin as ([p' t'] & Hs & Hf).
  cbn [fst snd] in Hf. unfold get in Hf.
  destruct (u !! p') as [y|] eqn:E; simpl in Hf; [|discriminate].
  destruct y; try discriminate; injection Hf as <- <- <-;
    (split; [apply list_elem_of_In, Hs | exact E]).
Qed.

(** An assignment of an update, traced back to the request: the value
    assigned is the cast of what [build_updates] holds for the path. *)
Lemma sets_origin (b : Obj) sets p t v' :
  cast_updates (update_paths (build_updates b)) = inr sets ->
  In (p, t, v') sets ->
  exists v, In (p, t) bugSchema /\ build_updates b !! p = Some v /\ castPath t v = Some v'.
Proof.
  intros Hc Hin. destruct (cast_updates_origin _ _ _ _ _ Hc Hin) as (v & Hl & Hv).
  destruct (update_paths_origin _ _ _ _ Hl) as [Hs Hu].
  exists v. split; [exact Hs | split; [exact Hu | exact Hv]].
Qed.

Lemma bugData_text (b : Obj) k :
  In k text_fields ->
  exists x, get (bugData b) k = sanitizeInput x /\ (x = get b k \/ x = JUndefined).
Proof.
  intros Hk. cbn [text_fields In] in Hk.
  destruct Hk as [<-|[<-|[<-|[<-|[]]]]]; unfold bugData, obj, get;
    cbn [list_to_map foldr]; rewrite ?lookup_insert_ne by discriminate;
    rewrite lookup_insert_eq; simpl.
  - eexists; split; [reflexivity | left; reflexivity].
  - eexists; split; [reflexivity | left; reflexivity].
  - eexists; split; [reflexivity | left; reflexivity].
  - destruct (truthy _); [eexists; split; [reflexivity | left; reflexivity]|].
    exists JUndefined. split; [reflexivity | right; reflexivity].
Qed.

(** A payload none of whose free-text fields is an object. *)
Lemma new_document_clean (b : Obj) id now :
  (forall k o, In k text_fields -> get b k <> JObj o) ->
  clean_record (new_document (bugData b) id now).
Proof.
  intros Hb k s Hk Hg. unfold get in Hg.
  destruct (new_document (bugData b) id now !! k) as [x|] eqn:E; simpl in Hg; [|discriminate].
  subst x. apply new_document_lookup in E as [(t & Hin & Hc)|Hb'].
  - destruct (bugData_text b k Hk) as (x & Hx & Hxb). unfold incoming in Hc. rewrite Hx in Hc.
    assert (Hxo : forall o, x <> JObj o).
    { intros o ->. destruct Hxb as [E|E]; [exact (Hb k o Hk (eq_sym E)) | discriminate E]. }
    destruct (sanitizeInput x) eqn:Es;
      try (rewrite <- Es in Hc; exact (castPath_clean _ _ _ Hxo Hc)).
    exfalso. clear - Hk Hin Hc. cbn [text_fields In] in Hk. unfold bugSchema in Hin.
    cbn [In] in Hin.
    destruct Hk as [<-|[<-|[<-|[<-|[]]]]];
      repeat (destruct Hin as [Hin|Hin];
              [try discriminate Hin; injection Hin as <-; cbn in Hc; discriminate Hc|]);
      destruct Hin.
  - exfalso. cbn [text_fields In] in Hk. unfold obj in Hb'. cbn [list_to_map foldr] in Hb'.
    destruct Hk as [<-|[<-|[<-|[<-|[]]]]];
      rewrite !lookup_insert_ne in Hb' by discriminate; rewrite lookup_empty in Hb';
      discriminate Hb'.
Qed.

Lemma pre_save_get now (d : Obj) k : k <> "updatedAt" -> get (pre_save now d) k = get d k.
Proof.
  intros Hk. unfold pre_save, get. rewrite lookup_insert_ne by congruence. reflexivity.
Qed.

Lemma pre_save_clean now d : clean_record d -> clean_record (pre_save now d).
Proof.
  intros Hd k s Hk Hg. apply (Hd k s Hk). rewrite <- Hg. symmetry. apply pre_save_get.
  intros ->. cbn in Hk. intuition discriminate.
Qed.

Lemma apply_updates_clean (b : Obj) sets now d :
  (forall k o, In k ["title"; "description"; "assignedTo"] -> get b k <> JObj o) ->
  cast_updates (update_paths (build_updates b)) = inr sets ->
  clean_record d -> clean_record (apply_updates sets now d).
Proof.
  intros Hb Hc Hd k s Hk Hg. unfold get in Hg.
  destruct (apply_updates sets now d !! k) as [x|] eqn:E; simpl in Hg; [|discriminate].
  subst x. apply apply_updates_lookup in E as [->|[(t & Hin)|E]].
  - exfalso. cbn in Hk. intuition discriminate.
  - destruct (sets_origin _ _ _ _ _ Hc Hin) as (v & _ & Hu & Hv).
    pose proof (build_updates_keys _ _ _ Hu) as Hup.
    destruct (build_updates_lookup _ _ _ Hu) as [_ Hs].
    assert (Hk' : In k ["title"; "description"; "assignedTo"]).
    { cbn in Hk, Hup |- *. destruct Hk as [<-|[<-|[<-|[<-|[]]]]]; try tauto.
      exfalso. intuition discriminate. }
    rewrite (Hs Hk') in Hv. exact (castPath_clean _ _ _ (fun o => Hb k o Hk') Hv).
  - apply (Hd k s Hk). unfold get. rewrite E. reflexivity.
Qed.

Lemma update_first_Forall (P : Obj -> Prop) (p : Obj -> bool) (f : Obj -> Obj) l :
  forall old new l',
    update_first p f l = Some (old, new, l') ->
    (forall d, P d -> P (f d)) -> Forall P l -> Forall P l'.
Proof.
  induction l as [|x r IH]; intros old new l' H Hf Hl; cbn [update_first] in H; [discriminate|].
  apply Forall_cons in Hl as [Hx Hr]. destruct (p x).
  - injection H as <- <- <-. constructor; [apply Hf, Hx | exact Hr].
  - destruct (update_first p f r) as [[[o n] r']|] eqn:E; [|discriminate].
    injection H as <- <- <-. constructor; [exact Hx | exact (IH _ _ _ eq_refl Hf Hr)].
Qed.

Lemma remove_first_Forall (P : Obj -> Prop) (p : Obj -> bool) l d l' :
  remove_first p l = Some (d, l') -> Forall P l -> Forall P l'.
Proof.
  intros H Hl. destruct (remove_first_spec _ _ _ _ H) as (l1 & l2 & -> & -> & _).
  apply Forall_app in Hl as [H1 H2]. apply Forall_cons in H2 as [_ H2].
  apply Forall_app. split; assumption.
Qed.

(** What every kind of change keeps: a property of records that new
    documents have and that the assignments of an update maintain. *)
Lemma change_Forall (P : Obj -> Prop) req w c' :
  change req w c' ->
  (forall b id now later,
      document_errors (bugData b) = [] ->
      P (pre_save later (new_document (bugData b) id now))) ->
  (forall b sets now d,
      cast_updates (update_paths (build_updates b)) = inr sets ->
      update_errors sets = [] -> P d -> P (apply_updates sets now d)) ->
  Forall P (collection w) -> Forall P c'.
Proof.
  intros H Hnew Hupd Hw.
  destruct H as [|data _ _ -> He|oid sets now old new c' _ _ Hc He Hf|oid d c' _ Hr].
  - exact Hw.
  - apply Forall_app. split; [exact Hw|]. constructor; [|constructor].
    apply Hnew, He.
  - refine (update_first_Forall P _ _ _ _ _ _ Hf _ Hw).
    intros d Hd. exact (Hupd _ _ _ _ Hc He Hd).
  - exact (remove_first_Forall P _ _ _ _ Hr Hw).
Qed.

(** ** The enumerations of stored records *)

Lemma schema_ok_Forall docs : schema_ok docs <-> Forall in_enums docs.
Proof.
  unfold schema_ok, in_enums. rewrite forallb_forall, List.Forall_forall. reflexivity.
Qed.

Lemma omap_nil {A B} (f : A -> option B) l x : omap f l = [] -> In x l -> f x = None.
Proof.
  induction l as [|y l IH]; cbn; [tauto|].
  destruct (f y) eqn:E; [discriminate|]. intros H [<-|Hin]; [exact E | exact (IH H Hin)].
Qed.

(** A truthy value given for a path with an enumeration and no other
    validator, if it casts and passes the validators, is one of the
    enumeration. *)
Lemma enum_cast o p values v v' :
  enum o = Some values ->
  truthy v = true ->
  castString (trimmed_on_set o) v = Some v' ->
  validateString o p v' = None ->
  includes values v' = true.
Proof.
  intros Ho Ht Hc Hv.
  assert (Hs : exists s, v' = JStr s).
  { destruct v as [| |b|n|s0|l|g]; cbn [castString truthy] in Ht, Hc; try discriminate;
      try (injection Hc as <-; eexists; reflexivity).
    destruct (g !! "_id") as [[| | | |[|c s]| |]|]; try discriminate Hc.
    injection Hc as <-. eexists. reflexivity. }
  destruct Hs as (s & ->). cbn [includes]. unfold validateString in Hv. rewrite Ho in Hv.
  destruct (existsb (jseqb s) values); [reflexivity|]. exfalso.
  destruct (required o), s; try discriminate Hv;
    destruct (minlength o) as [[? ?]|]; destruct (maxlength o) as [[? ?]|];
    repeat match type of Hv with context [if ?c then _ else _] => destruct c end;
    discriminate Hv.
Qed.

Lemma js_or_truthy a b : truthy b = true -> truthy (js_or a b) = true.
Proof. unfold js_or. destruct (truthy a) eqn:E; [intros _; exact E | tauto]. Qed.

Lemma incoming_truthy (data : Obj) p t :
  truthy (get data p) = true -> incoming data p t = get data p /\ truthy (incoming data p t) = true.
Proof.
  unfold incoming. destruct (get data p); cbn; try discriminate; intros H; split; try reflexivity;
    exact H.
Qed.

Lemma set_path_get path t v (doc : Obj) k :
  get (set_path path t v doc) k
  = if decide (k = path)
    then match castPath t v with
         | Some JUndefined | None => get doc k
         | Some v' => v'
         end
    else get doc k.
Proof.
  unfold set_path, get. destruct (decide (k = path)) as [->|Hne].
  - destruct (castPath t v) as [[]|]; rewrite ?lookup_insert_eq; reflexivity.
  - destruct (castPath t v) as [[]|]; rewrite ?lookup_insert_ne by congruence; reflexivity.
Qed.

Lemma new_document_enum (data : Obj) id now p o values :
  In (p, SString o) bugSchema ->
  enum o = Some values ->
  truthy (get data p) = true ->
  document_errors data = [] ->
  NoDup (List.map fst bugSchema) ->
  includes values (get (new_document data id now) p) = true.
Proof.
  intros Hin Ho Ht He. unfold new_document.
  pose proof (omap_nil _ _ (p, SString o) He Hin) as Hp. cbn [fst snd] in Hp.
  revert Hin Hp. unfold document_errors in He. clear He. generalize bugSchema as l.
  induction l as [|[q t] l IH]; intros Hin Hp Hnd; [destruct Hin|].
  cbn [foldr fst snd]. cbn [List.map fst] in Hnd. apply NoDup_cons in Hnd as [Hq Hnd].
  rewrite set_path_get. destruct Hin as [Hin|Hin].
  - injection Hin as -> ->. rewrite decide_True by reflexivity.
    destruct (incoming_truthy data p (SString o) Ht) as [_ Hi].
    unfold path_error in Hp. cbn [castPath] in Hp |- *.
    destruct (castString (trimmed_on_set o) (incoming data p (SString o))) as [v'|] eqn:Ec;
      [|discriminate Hp].
    cbn [validatePath] in Hp.
    destruct (validateString o p v') as [m|] eqn:Ev; [discriminate Hp|].
    pose proof (enum_cast o p values _ v' Ho Hi Ec Ev) as Hinc.
    destruct v'; try discriminate Hinc. exact Hinc.
  - rewrite decide_False.
    + exact (IH Hin Hp Hnd).
    + intros E. apply Hq. apply list_elem_of_In. rewrite <- E.
      exact (in_map fst l (p, SString o) Hin).
Qed.

Lemma bugSchema_NoDup : NoDup (List.map fst bugSchema).
Proof. apply (bool_decide_unpack _); vm_compute; reflexivity. Qed.

Lemma schema_type p t t' : In (p, t) bugSchema -> In (p, t') bugSchema -> t = t'.
Proof.
  pose proof bugSchema_NoDup as Hnd. revert Hnd. generalize bugSchema as l.
  induction l as [|[q u] l IH]; intros Hnd H H'; [destruct H|].
  cbn [List.map fst] in Hnd. apply NoDup_cons in Hnd as [Hq Hnd].
  assert (Hout : forall x, In (q, x) l -> False).
  { intros x Hx. apply Hq, list_elem_of_In. exact (in_map fst l (q, x) Hx). }
  destruct H as [H|H], H' as [H'|H'].
  - congruence.
  - injection H as -> ->. destruct (Hout _ H').
  - injection H' as -> ->. destruct (Hout _ H).
  - exact (IH Hnd H H').
Qed.

Lemma apply_updates_get sets now (d : Obj) k :
  k <> "updatedAt" ->
  get (apply_updates sets now d) k = get d k
  \/ exists t x, In (k, t, x) sets /\ get (apply_updates sets now d) k = x.
Proof.
  intros Hk. unfold apply_updates, get. rewrite lookup_insert_ne by congruence.
  induction sets as [|[[p t] v] sets IH]; cbn [foldr fst snd]; [left; reflexivity|].
  destruct (decide (p = k)) as [->|Hp].
  - rewrite lookup_insert_eq. right. exists t, v. split; [left; reflexivity | reflexivity].
  - rewrite lookup_insert_ne by exact Hp.
    destruct IH as [IH|(t' & x & Hin & IH)]; [left; exact IH|].
    right. exists t', x. split; [right; exact Hin | exact IH].
Qed.

(** The status and the priority of an update are assigned only when the
    request gives a truthy value for them. *)
Lemma build_updates_enum (b : Obj) k v :
  build_updates b !! k = Some v -> In k ["status"; "priority"] -> truthy v = true.
Proof.
  unfold build_updates. intros H Hk.
  repeat (apply conditional_insert in H as [(-> & Hc & ->) | H];
          [try exact Hc; exfalso; cbn in Hk; intuition discriminate|]).
  rewrite lookup_empty in H. discriminate.
Qed.

Lemma update_errors_nil sets p t v :
  update_errors sets = [] -> In (p, t, v) sets -> validatePath t p v = None.
Proof.
  intros He Hin. pose proof (omap_nil _ _ _ He Hin) as H. cbn [fst snd] in H.
  destruct (validatePath t p v); [discriminate H | reflexivity].
Qed.

Lemma apply_updates_enum (b : Obj) sets now d p o values :
  In (p, SString o) bugSchema ->
  enum o = Some values ->
  In p ["status"; "priority"] ->
  cast_updates (update_paths (build_updates b)) = inr sets ->
  update_errors sets = [] ->
  includes values (get d p) = true ->
  includes values (get (apply_updates sets now d) p) = true.
Proof.
  intros Hin Ho Hp Hc He Hd.
  destruct (apply_updates_get sets now d p) as [E|(t & x & Hx & E)].
  - cbn in Hp. intuition (subst; discriminate).
  - rewrite E. exact Hd.
  - rewrite E. destruct (sets_origin _ _ _ _ _ Hc Hx) as (v & Ht & Hu & Hv).
    rewrite (schema_type _ _ _ Ht Hin) in Hv, Hx. cbn [castPath] in Hv.
    apply (enum_cast o p values v x Ho (build_updates_enum _ _ _ Hu Hp) Hv).
    exact (update_errors_nil _ _ _ _ He Hx).
Qed.

Lemma bugData_enum (b : Obj) k :
  In k ["status"; "priority"] -> truthy (get (bugData b) k) = true.
Proof.
  intros Hk. cbn [In] in Hk.
  destruct Hk as [<-|[<-|[]]]; unfold bugData, obj, get;
    cbn [list_to_map foldr]; rewrite ?lookup_insert_ne by discriminate;
    rewrite lookup_insert_eq; simpl; apply js_or_truthy; reflexivity.
Qed.

(** X9.  No request stores a status or a priority outside the
    enumerations: if every record of the collection has its status among
    the four statuses and its priority among the four priorities, the same
    holds after the request, whatever the request is. *)
Theorem enumerations_stay_valid (req : Request) (w : World) :
  schema_ok (collection w) -> schema_ok (collection (snd (handle req w))).
Proof.
  rewrite !schema_ok_Forall.
  apply (change_Forall in_enums req w _ (handle_change req w)).
  - intros b id now later He. unfold in_enums, isValidStatus, isValidPriority.
    rewrite !pre_save_get by discriminate.
    apply andb_true_intro. split.
    + eapply (new_document_enum _ id now "status");
        [right; right; left; reflexivity | reflexivity
        | apply bugData_enum; cbn; tauto | exact He | exact bugSchema_NoDup].
    + eapply (new_document_enum _ id now "priority");
        [right; right; right; left; reflexivity | reflexivity
        | apply bugData_enum; cbn; tauto | exact He | exact bugSchema_NoDup].
  - intros b sets now d Hc He Hd. unfold in_enums, isValidStatus, isValidPriority in Hd |- *.
    apply andb_prop in Hd as [Hs Hp]. apply andb_true_intro. split.
    + eapply (apply_updates_enum b sets now d "status");
        [right; right; left; reflexivity | reflexivity | cbn; tauto
        | exact Hc | exact He | exact Hs].
    + eapply (apply_updates_enum b sets now d "priority");
        [right; right; right; left; reflexivity | reflexivity | cbn; tauto
        | exact Hc | exact He | exact Hp].
Qed.

Lemma enumerations_stay_valid_witness :
  schema_ok (collection (snd (handle (request POST Root ∅ login_bug) empty_world))).
Proof.
  apply (enumerations_stay_valid (request POST Root ∅ login_bug) empty_world).
  reflexivity.
Defined.

(** ** Storage calls that fail *)

Ltac storage_cases :=
  repeat match goal with
         | H : faults ?w = _ |- context [faults ?w] => rewrite H; cbn [tail]
         | |- context [faults (enter _ _)] => cbn [faults enter]
         | |- context [handle_validation_error ?e] =>
             unfold handle_validation_error; destruct (jseqb (name e) _)
         | |- context [match faults ?w with _ => _ end] =>
             let E := fresh "Ef" in destruct (faults w) as [|[?|] ?] eqn:E; cbn [tail]
         | |- context [tail (faults ?w)] =>
             let E := fresh "Ef" in destruct (faults w) as [|[?|] ?] eqn:E; cbn [tail]
         | |- context [match ?x with _ => _ end] =>
             lazymatch x with
             | context [match _ with _ => _ end] => fail
             | _ => let E := fresh "E" in destruct x eqn:E; cbv beta iota
             end
         end.

Ltac quiet_done :=
  cbn [fst snd calls collection enter set_collection next_serial pass length];
  (split; [eexists; reflexivity|]);
  let n := fresh "n" in
  let Hn := fresh "Hn" in
  let Hf := fresh "Hf" in
  intros n ? Hn Hf;
  try (exfalso;
       repeat match goal with H : faults _ = _ |- _ => rewrite H in Hf end;
       subst;
       destruct n as [|[|?]]; cbn in Hf; try discriminate Hf; cbn in Hn; lia);
  (split; [eexists; reflexivity | reflexivity]).

Lemma getBugById_quiet : quiet getBugById.
Proof.
  intros r w.
  unfold getBugById, try_catch, mbind, M_bind, Bug_findById, storage, mret, M_ret, forward.
  storage_cases; quiet_done.
Qed.

Lemma getAllBugs_quiet : quiet getAllBugs.
Proof.
  intros r w.
  unfold getAllBugs, try_catch, mbind, M_bind, Bug_find, storage, mret, M_ret, forward.
  cbv zeta. storage_cases; quiet_done.
Qed.

Lemma getBugStats_quiet : quiet getBugStats.
Proof.
  intros r w.
  unfold getBugStats, try_catch, mbind, M_bind, Bug_aggregate, storage, mret, M_ret, forward.
  storage_cases; quiet_done.
Qed.

Lemma createBug_quiet : quiet createBug.
Proof.
  intros r w.
  unfold createBug, try_catch, mbind, M_bind, Bug_create, storage, mret, M_ret, forward.
  cbv zeta. storage_cases; quiet_done.
Qed.

Lemma deleteBug_quiet : quiet deleteBug.
Proof.
  intros r w.
  unfold deleteBug, try_catch, mbind, M_bind, Bug_findById, Bug_findByIdAndDelete, storage,
    mret, M_ret, forward.
  storage_cases; quiet_done.
Qed.

Lemma updateBug_quiet : quiet updateBug.
Proof.
  intros r w.
  unfold updateBug, try_catch, mbind, M_bind, Bug_findById, Bug_findByIdAndUpdate, storage,
    mret, M_ret, forward, throw.
  cbv zeta. storage_cases; quiet_done.
Qed.

Lemma controller_of_quiet m : quiet (controller_of m).
Proof.
  destruct m; cbn [controller_of];
    [apply getBugById_quiet | apply createBug_quiet | apply updateBug_quiet
    | apply deleteBug_quiet].
Qed.

Lemma quiet_handle (c : Request -> M Outcome) r req w :
  quiet c ->
  handle req w = match c r w with
                 | (Ok o, w') => (o, w')
                 | (Throw e, w') => (Next (Some (Thrown e)), w')
                 end ->
  call_failed req w ->
  (exists x, fst (handle req w) = Next (Some x))
  /\ collection (snd (handle req w)) = collection w.
Proof.
  intros Hq Hh (n & e & Hn & Hf). unfold calls_made in Hn. rewrite Hh in Hn |- *.
  destruct (Hq r w) as [(o & Ho) H]. specialize (H n e).
  destruct (c r w) as [[o'|e'] w']; cbn [fst snd] in *; [|discriminate Ho].
  destruct (H Hn Hf) as [(x & Hx) Hc]. injection Hx as ->.
  split; [exists x; reflexivity | exact Hc].
Qed.

Lemma handle_no_rules req w (c : Request -> M Outcome) :
  router (method req) (path req) = Some [controller c] ->
  handle req w = match c (routed req) w with
                 | (Ok o, w') => (o, w')
                 | (Throw e, w') => (Next (Some (Thrown e)), w')
                 end.
Proof.
  intros H. unfold handle. rewrite H. cbn [run_middleware]. unfold controller.
  destruct (c (routed req) w) as [[o|e] w']; reflexivity.
Qed.

(** X10.  A request during which a call on the storage layer fails is
    answered with no success response and writes nothing: its outcome is
    [next(error)], an error handed to the error handler, and the
    collection is as it was.  This holds whichever call of the request
    fails, the first or the second. *)
Theorem failed_call_no_success (req : Request) (w : World) :
  call_failed req w ->
  (exists error, fst (handle req w) = Next (Some error))
  /\ collection (snd (handle req w)) = collection w.
Proof.
  intros Hf.
  destruct (decide (rules_of (method req) (path req) = [])) as [Hr|Hr].
  - destruct (method req) eqn:Hm, (path req) as [|seg] eqn:Hp; cbn [rules_of] in Hr;
      try discriminate Hr;
      try (destruct Hf as (n & e & Hn & _); exfalso; revert Hn;
           unfold calls_made, handle; rewrite Hm, Hp; cbn [router snd]; lia).
    + apply (quiet_handle getAllBugs (routed req) req w getAllBugs_quiet); [|exact Hf].
      apply handle_no_rules. rewrite Hm, Hp. reflexivity.
    + destruct (is_stats seg) eqn:Es; [|discriminate Hr].
      apply (quiet_handle getBugStats (routed req) req w getBugStats_quiet); [|exact Hf].
      apply handle_no_rules. rewrite Hm, Hp. cbn [router]. rewrite Es. reflexivity.
  - destruct (violations req) as [|m ms] eqn:Hv.
    + apply (quiet_handle (controller_of (method req)) (validated req) req w
               (controller_of_quiet _)); [|exact Hf].
      rewrite (handle_validated req w Hr), Hv. reflexivity.
    + rewrite handle_rejected by (rewrite Hv; discriminate).
      split; [eexists; reflexivity | reflexivity].
Qed.

Lemma failed_call_no_success_witness :
  (exists error,
      fst (handle (request DELETE (Segment stored_id) ∅ ∅) failing_world) = Next (Some error))
  /\ collection (snd (handle (request DELETE (Segment stored_id) ∅ ∅) failing_world))
     = collection failing_world.
Proof.
  apply (failed_call_no_success (request DELETE (Segment stored_id) ∅ ∅) failing_world).
  exists 1, connection_lost. split; [vm_compute; lia | reflexivity].
Defined.

(** ** Requests that succeed *)

Lemma new_document_get (data : Obj) id now p t :
  In (p, t) bugSchema ->
  get (new_document data id now) p = default JUndefined (castPath t (incoming data p t)).
Proof.
  intros Hin. unfold new_document.
  assert (Hb : get (obj [("_id", JStr id); ("createdAt", JNum now); ("updatedAt", JNum now);
                         ("__v", JNum 0)]) p = JUndefined).
  { unfold bugSchema in Hin. cbn [In] in Hin. unfold obj, get. cbn [list_to_map foldr].
    repeat (destruct Hin as [Hin|Hin];
            [injection Hin as <- _; rewrite !lookup_insert_ne by discriminate;
             rewrite lookup_empty; reflexivity|]).
    destruct Hin. }
  revert Hb. generalize (obj [("_id", JStr id); ("createdAt", JNum now);
                              ("updatedAt", JNum now); ("__v", JNum 0)]) as base.
  pose proof bugSchema_NoDup as Hnd. revert Hnd Hin. generalize bugSchema as l.
  induction l as [|[q u] l IH]; intros Hnd Hin base Hb; [destruct Hin|].
  cbn [foldr fst snd]. cbn [List.map fst] in Hnd. apply NoDup_cons in Hnd as [Hq Hnd].
  rewrite set_path_get. destruct Hin as [Hin|Hin].
  - injection Hin as -> ->. rewrite decide_True by reflexivity.
    destruct (castPath t (incoming data p t)) as [[]|] eqn:Ec; try reflexivity; simpl.
    + clear IH. induction l as [|[q u] l IH]; [exact Hb|].
      cbn [foldr fst snd]. rewrite set_path_get.
      cbn [List.map fst] in Hq, Hnd. apply NoDup_cons in Hnd as [_ Hnd].
      rewrite decide_False by (intros ->; apply Hq; left).
      apply IH; [|exact Hnd]. intros H. apply Hq. right. exact H.
    + clear IH. induction l as [|[q u] l IH]; [exact Hb|].
      cbn [foldr fst snd]. rewrite set_path_get.
      cbn [List.map fst] in Hq, Hnd. apply NoDup_cons in Hnd as [_ Hnd].
      rewrite decide_False by (intros ->; apply Hq; left).
      apply IH; [|exact Hnd]. intros H. apply Hq. right. exact H.
  - rewrite decide_False.
    + exact (IH Hnd Hin base Hb).
    + intros E. apply Hq. apply list_elem_of_In. rewrite <- E.
      exact (in_map fst l (p, t) Hin).
Qed.

Lemma new_document_stamp (data : Obj) id now p :
  ~ In p (List.map fst bugSchema) ->
  new_document data id now !! p
  = obj [("_id", JStr id); ("createdAt", JNum now); ("updatedAt", JNum now);
         ("__v", JNum 0)] !! p.
Proof.
  unfold new_document. generalize bugSchema as l.
  induction l as [|[q u] l IH]; intros Hn; [reflexivity|].
  cbn [foldr fst snd]. cbn [List.map fst In] in Hn.
  unfold set_path. destruct (castPath u _) as [[]|];
    rewrite ?lookup_insert_ne by tauto; apply IH; tauto.
Qed.

Lemma createBug_served r w :
  served w ->
  document_errors (bugData (body r)) = [] ->
  createBug r w
  = let d := pre_save (clock w + 1 + lag w)
               (new_document (bugData (body r)) (objectId (serial w)) (clock w + 1)) in
    (Ok (Respond 201 (obj [("success", JBool true); ("data", JObj (formatBugResponse d))])),
     next_serial (set_collection (collection w ++ [d])
                    (pass (enter (Create (bugData (body r))) w)))).
Proof.
  intros Hs He. unfold createBug, try_catch, mbind, M_bind, Bug_create. cbv zeta.
  rewrite (storage_served _ _ _ Hs), He. reflexivity.
Qed.

Lemma fold_keeps rules k : forall req,
  forallb (keeps k) rules = true ->
  get (body (fold_left (fun r c => ExpressValidator.run c r) rules req)) k = get (body req) k.
Proof.
  induction rules as [|c rules IH]; intros req H; cbn [fold_left]; [reflexivity|].
  cbn [forallb] in H. apply andb_prop in H as [Hc H]. rewrite (IH _ H).
  unfold keeps in Hc. apply orb_prop in Hc as [Hc|Hc].
  - apply (run_source_other c req ExpressValidator.InBody k).
    apply negb_true_iff, bool_decide_eq_false in Hc. exact Hc.
  - apply (run_no_sanitizer c req ExpressValidator.InBody k).
    apply List.Forall_forall. intros i Hi ->.
    rewrite forallb_forall in Hc. specialize (Hc _ Hi). discriminate Hc.
Qed.

Lemma create_rules_keep req k :
  method req = POST -> path req = Root ->
  In k ["status"; "priority"; "tags"] ->
  get (body (validated req)) k = get (body req) k.
Proof.
  intros Hm Hp Hk. unfold validated. rewrite Hm, Hp. cbn [rules_of].
  rewrite fold_keeps.
  - unfold routed. rewrite Hp. reflexivity.
  - cbn [In] in Hk. destruct Hk as [<-|[<-|[<-|[]]]]; vm_compute; reflexivity.
Qed.

Lemma create_rules : rules_of POST Root <> [].
Proof. discriminate. Qed.

(** X12.  The defaults of a created record: when the payload of an
    accepted create request has no status, or a falsy one such as the
    empty text, the record is stored as open; with no priority it is stored
    with priority medium; with no tags it is stored with an empty list of
    tags. *)
Theorem create_defaults (req : Request) (w : World) (d : Obj) :
  method req = POST -> path req = Root ->
  violations req = [] ->
  collection (snd (handle req w)) = collection w ++ [d] ->
  (truthy (get (body req) "status") = false -> get d "status" = JStr (js "open"))
  /\ (truthy (get (body req) "priority") = false -> get d "priority" = JStr (js "medium"))
  /\ (truthy (get (body req) "tags") = false -> get d "tags" = JArr []).
Proof.
  intros Hm Hp Hv Hc.
  pose proof (handle_change req w) as H. rewrite Hc in H.
  inversion H as [E | data _ _ Hd He E | oid sets now old new c' Hm' _ _ _ _ E
                  | oid x c' Hm' _ E]; try congruence.
  - exfalso. apply (f_equal (@length _)) in E. rewrite length_app in E. simpl in E. lia.
  - apply app_inj_tail in E as [_ <-]. subst data.
    assert (Hdef : forall k v t,
               In (k, v) [("status", JStr (js "open")); ("priority", JStr (js "medium"));
                          ("tags", JArr [])] ->
               In (k, t) bugSchema ->
               castPath t v = Some v ->
               truthy (get (body req) k) = false ->
               get (new_document (bugData (body (validated req))) (objectId (serial w))
                      (clock w + 1)) k = v).
    { intros k v t Hk Ht Hcast Hf. rewrite (new_document_get _ _ _ k t Ht).
      assert (Hi : incoming (bugData (body (validated req))) k t = v).
      { unfold incoming.
        assert (Hg : get (bugData (body (validated req))) k = v).
        { cbn [In] in Hk. destruct Hk as [Hk|[Hk|[Hk|[]]]]; injection Hk as <- <-;
            unfold bugData, obj, get at 1; cbn [list_to_map foldr];
            rewrite ?lookup_insert_ne by discriminate; rewrite lookup_insert_eq; simpl;
            rewrite create_rules_keep by (try assumption; cbn; tauto);
            unfold js_or; rewrite Hf; reflexivity. }
        rewrite Hg. cbn [In] in Hk.
        destruct Hk as [Hk|[Hk|[Hk|[]]]]; injection Hk as <- <-; reflexivity. }
      rewrite Hi, Hcast. reflexivity. }
    split; [|split]; intros Hf; rewrite pre_save_get by discriminate.
    + apply (Hdef "status" _ _ ltac:(cbn; tauto) ltac:(right; right; left; reflexivity));
        [reflexivity | exact Hf].
    + apply (Hdef "priority" _ _ ltac:(cbn; tauto)
                  ltac:(right; right; right; left; reflexivity));
        [reflexivity | exact Hf].
    + apply (Hdef "tags" _ (SStringArray true) ltac:(cbn; tauto));
        [cbn; tauto | reflexivity | exact Hf].
Qed.

Lemma create_defaults_witness :
  (truthy (get (body (request POST Root ∅ login_bug)) "status") = false ->
   get stored_bug "status" = JStr (js "open"))
  /\ (truthy (get (body (request POST Root ∅ login_bug)) "priority") = false ->
      get stored_bug "priority" = JStr (js "medium"))
  /\ (truthy (get (body (request POST Root ∅ login_bug)) "tags") = false ->
      get stored_bug "tags" = JArr []).
Proof.
  apply (create_defaults (request POST Root ∅ login_bug) empty_world stored_bug).
  - reflexivity.
  - reflexivity.
  - vm_compute; reflexivity.
  - vm_compute; reflexivity.
Defined.

Lemma well_formed_id_request req id :
  path req = Segment id ->
  method req = GET \/ method req = PUT \/ method req = DELETE ->
  isObjectIdSyntax id = true ->
  id_request req id.
Proof.
  intros Hp Hm Hs. split; [exact Hp|].
  destruct Hm as [Hm|[Hm|Hm]]; [left | right; left; exact Hm | right; right; exact Hm].
  split; [exact Hm|]. exact (object_id_not_stats id Hs).
Qed.

Lemma id_request_has_rules req id : id_request req id -> rules_of (method req) (path req) <> [].
Proof.
  intros Hreq. destruct (id_request_rules req id Hreq) as (rest & E & _).
  rewrite E. discriminate.
Qed.

(** X13.  A get-by-id request with a well-formed identifier that a record
    bears is answered with status 200 and that record, formatted: the
    first of the collection whose identifier is the requested one, the
    hexadecimal digits compared without regard to case.  The storage layer
    is called once and the collection is as it was. *)
Theorem get_success (req : Request) (w : World) (id : jsstring) (d : Obj) :
  method req = GET -> path req = Segment id ->
  isObjectIdSyntax id = true ->
  served w ->
  List.find (has_id (List.map lower_hex id)) (collection w) = Some d ->
  handle req w
  = (Respond 200 (obj [("success", JBool true); ("data", JObj (formatBugResponse d))]),
     enter (FindById (JStr id)) w).
Proof.
  intros Hm Hp Hs Hserved Hf.
  assert (Hreq : id_request req id) by (apply well_formed_id_request; tauto).
  rewrite (handle_validated req w (id_request_has_rules req id Hreq)).
  rewrite (id_only_violations req id Hreq) by (congruence || assumption).
  rewrite Hm. cbn [controller_of].
  unfold getBugById, try_catch, mbind, M_bind. rewrite (validated_id req id Hreq).
  unfold Bug_findById. rewrite (storage_served _ _ _ Hserved).
  cbn [castObjectId]. rewrite Hs. cbn [collection enter]. rewrite Hf. reflexivity.
Qed.

Lemma get_success_witness :
  handle (request GET (Segment stored_id) ∅ ∅) one_bug_world
  = (Respond 200 (obj [("success", JBool true); ("data", JObj (formatBugResponse stored_bug))]),
     enter (FindById (JStr stored_id)) one_bug_world).
Proof.
  apply (get_success (request GET (Segment stored_id) ∅ ∅) one_bug_world stored_id stored_bug).
  - reflexivity.
  - reflexivity.
  - vm_compute; reflexivity.
  - exact I.
  - vm_compute; reflexivity.
Defined.

Lemma find_remove_first (p : Obj -> bool) l d :
  List.find p l = Some d ->
  exists l1 l2, l = l1 ++ d :: l2 /\ remove_first p l = Some (d, l1 ++ l2)
                /\ List.find p l1 = None.
Proof.
  induction l as [|x r IH]; cbn [List.find remove_first]; [discriminate|].
  destruct (p x) eqn:Ep.
  - intros [= ->]. exists [], r. repeat split.
  - intros H. destruct (IH H) as (l1 & l2 & -> & Hr & Hn).
    exists (x :: l1), l2. rewrite Hr. cbn [List.find]. rewrite Ep. repeat split. exact Hn.
Qed.

Lemma find_app_none {A} (p : A -> bool) l1 l2 :
  List.find p l1 = None -> List.find p (l1 ++ l2) = List.find p l2.
Proof.
  induction l1 as [|x l1 IH]; cbn [List.find app]; [reflexivity|].
  destruct (p x); [discriminate | exact IH].
Qed.

(** X14.  A delete request with a well-formed identifier that a record
    bears, when the storage layer serves its two calls, is answered with
    status 200 and the message "Bug deleted successfully"; the first
    record that bears the identifier is taken out of the collection and
    every other record stays, in its place.  If no later record bears
    the same identifier, none does after the request. *)
Theorem delete_success (req : Request) (w : World) (id : jsstring) (d : Obj) :
  method req = DELETE -> path req = Segment id ->
  isObjectIdSyntax id = true ->
  served w -> served (enter (FindById (JStr id)) w) ->
  List.find (has_id (List.map lower_hex id)) (collection w) = Some d ->
  fst (handle req w)
  = Respond 200 (obj [("success", JBool true);
                      ("message", JStr (js "Bug deleted successfully"))])
  /\ calls (snd (handle req w)) = [FindByIdAndDelete (JStr id); FindById (JStr id)] ++ calls w
  /\ exists l1 l2,
       collection w = l1 ++ d :: l2
       /\ collection (snd (handle req w)) = l1 ++ l2
       /\ List.find (has_id (List.map lower_hex id)) l1 = None
       /\ (List.find (has_id (List.map lower_hex id)) l2 = None ->
           List.find (has_id (List.map lower_hex id)) (collection (snd (handle req w))) = None).
Proof.
  intros Hm Hp Hs Hs1 Hs2 Hf.
  assert (Hreq : id_request req id) by (apply well_formed_id_request; tauto).
  rewrite (handle_validated req w (id_request_has_rules req id Hreq)).
  rewrite (id_only_violations req id Hreq) by (congruence || assumption).
  rewrite Hm. cbn [controller_of].
  unfold deleteBug, try_catch, mbind, M_bind. rewrite (validated_id req id Hreq).
  unfold Bug_findById. rewrite (storage_served _ _ _ Hs1).
  cbn [castObjectId]. rewrite Hs. cbn [collection enter]. rewrite Hf.
  unfold Bug_findByIdAndDelete. rewrite (storage_served _ _ _ Hs2).
  cbn [castObjectId]. rewrite Hs. cbn [collection enter].
  destruct (find_remove_first _ _ _ Hf) as (l1 & l2 & Hl & Hr & Hn).
  rewrite Hr. unfold mret, M_ret. cbn [fst snd calls collection set_collection enter].
  split; [reflexivity|]. split; [reflexivity|].
  exists l1, l2. split; [exact Hl|]. split; [reflexivity|]. split; [exact Hn|].
  intros H2. rewrite (find_app_none _ _ _ Hn). exact H2.
Qed.

Lemma delete_success_witness :
  fst (handle (request DELETE (Segment stored_id) ∅ ∅) one_bug_world)
  = Respond 200 (obj [("success", JBool true);
                      ("message", JStr (js "Bug deleted successfully"))])
  /\ calls (snd (handle (request DELETE (Segment stored_id) ∅ ∅) one_bug_world))
     = [FindByIdAndDelete (JStr stored_id); FindById (JStr stored_id)] ++ calls one_bug_world
  /\ exists l1 l2,
       collection one_bug_world = l1 ++ stored_bug :: l2
       /\ collection (snd (handle (request DELETE (Segment stored_id) ∅ ∅) one_bug_world))
          = l1 ++ l2
       /\ List.find (has_id (List.map lower_hex stored_id)) l1 = None
       /\ (List.find (has_id (List.map lower_hex stored_id)) l2 = None ->
           List.find (has_id (List.map lower_hex stored_id))
             (collection (snd (handle (request DELETE (Segment stored_id) ∅ ∅) one_bug_world)))
           = None).
Proof.
  apply (delete_success (request DELETE (Segment stored_id) ∅ ∅) one_bug_world stored_id
           stored_bug).
  - reflexivity.
  - reflexivity.
  - vm_compute; reflexivity.
  - exact I.
  - exact I.
  - vm_compute; reflexivity.
Defined.

Lemma insert_sorted_Permutation cmp d l : insert_sorted cmp d l ≡ₚ d :: l.
Proof.
  induction l as [|x r IH]; cbn [insert_sorted]; [reflexivity|].
  destruct (cmp d x); try reflexivity.
  rewrite IH. apply Permutation_swap.
Qed.

Lemma sort_docs_Permutation cmp l : sort_docs cmp l ≡ₚ l.
Proof.
  unfold sort_docs. induction l as [|x r IH]; cbn [foldr]; [reflexivity|].
  rewrite insert_sorted_Permutation, IH. reflexivity.
Qed.

Lemma filter_all {A} (p : A -> bool) l : (forall x, p x = true) -> List.filter p l = l.
Proof.
  intros H. induction l as [|x r IH]; cbn [List.filter]; [reflexivity|].
  rewrite H, IH. reflexivity.
Qed.

Lemma filter_same {A} (p q : A -> bool) l :
  (forall x, p x = q x) -> List.filter p l = List.filter q l.
Proof.
  intros H. induction l as [|x r IH]; cbn [List.filter]; [reflexivity|].
  rewrite H, IH. reflexivity.
Qed.

Lemma list_filter_empty req :
  truthy (query_param req "status") = false ->
  truthy (query_param req "priority") = false ->
  list_filter req = ∅.
Proof. unfold list_filter. intros -> ->. reflexivity. Qed.

(** The test a filter of texts compiles to: equality, path by path. *)
Lemma compile_filter_plain q l : forall test,
  Forall (fun kv => exists s, snd kv = JStr s) l ->
  compile_filter q l = inr test ->
  forall b, test b = forallb (fun kv => strict_eq (get b (fst kv)) (snd kv)) l.
Proof.
  induction l as [|[k v] l IH]; intros test Hl Hc b; cbn [compile_filter] in Hc.
  - injection Hc as <-. reflexivity.
  - apply Forall_cons in Hl as [(s & Hs) Hl]. cbn [snd] in Hs. subst v.
    cbn [test_of] in Hc.
    destruct (compile_filter q l) as [e|g] eqn:Eg; [discriminate|]. injection Hc as <-.
    cbn [forallb fst snd]. rewrite (IH g Hl eq_refl b). reflexivity.
Qed.

Lemma text_truthy v :
  text_or_absent v -> truthy v = true -> exists c s, v = JStr (c :: s).
Proof.
  intros [-> | (s & ->)] Ht; [discriminate Ht|].
  destruct s as [|c s]; [discriminate Ht|]. exists c, s. reflexivity.
Qed.

Lemma list_filter_texts req :
  text_or_absent (get (query req) "status") ->
  text_or_absent (get (query req) "priority") ->
  Forall (fun kv => exists s, snd kv = JStr s) (map_to_list (list_filter req)).
Proof.
  intros Hs Hp. apply List.Forall_forall. intros [k v] Hin.
  apply list_elem_of_In, elem_of_map_to_list in Hin.
  pose proof Hin as Hin'. apply list_filter_values in Hin as [Hk ->]. cbn [snd].
  assert (Ht : truthy (get (query req) k) = true).
  { destruct (truthy (get (query req) k)) eqn:E; [reflexivity|]. exfalso.
    destruct (list_filter_drops req) as [H1 H2].
    destruct Hk as [-> | ->]; [rewrite (H1 E) in Hin' | rewrite (H2 E) in Hin'];
      discriminate Hin'. }
  destruct Hk as [-> | ->];
    [destruct (text_truthy _ Hs Ht) as (c & s & ->)
    |destruct (text_truthy _ Hp Ht) as (c & s & ->)];
    eexists; reflexivity.
Qed.

Lemma list_filter_asked req b :
  text_or_absent (get (query req) "status") ->
  text_or_absent (get (query req) "priority") ->
  forallb (fun kv => strict_eq (get b (fst kv)) (snd kv)) (map_to_list (list_filter req))
  = asked_for req b.
Proof.
  intros Hs Hp. destruct (list_filter_keeps req) as [Hks Hkp].
  destruct (list_filter_drops req) as [Hds Hdp].
  apply Bool.eq_iff_eq_true. rewrite forallb_forall. unfold asked_for. cbn [forallb].
  rewrite andb_true_r, andb_true_iff. split.
  - intros H. split.
    + destruct (get (query req) "status") as [| | | |[|c s]| |] eqn:E; try reflexivity.
      apply (H ("status", JStr (c :: s))). apply list_elem_of_In, elem_of_map_to_list.
      exact (Hks eq_refl).
    + destruct (get (query req) "priority") as [| | | |[|c s]| |] eqn:E; try reflexivity.
      apply (H ("priority", JStr (c :: s))). apply list_elem_of_In, elem_of_map_to_list.
      exact (Hkp eq_refl).
  - intros [H1 H2] [k v] Hin. apply list_elem_of_In, elem_of_map_to_list in Hin.
    pose proof Hin as Hin'. apply list_filter_values in Hin as [Hk ->]. cbn [fst snd].
    assert (Ht : truthy (get (query req) k) = true).
    { destruct (truthy (get (query req) k)) eqn:E; [reflexivity|]. exfalso.
      destruct Hk as [-> | ->]; [rewrite (Hds E) in Hin' | rewrite (Hdp E) in Hin'];
        discriminate Hin'. }
    destruct Hk as [-> | ->].
    + destruct (text_truthy _ Hs Ht) as (c & s & E). rewrite E in H1 |- *. exact H1.
    + destruct (text_truthy _ Hp Ht) as (c & s & E). rewrite E in H2 |- *. exact H2.
Qed.

(** X15.  What the list route answers when the storage layer serves the
    call and accepts the query, as it does every query of texts: status
    200, with [count] the number of records in [data], the records of
    [data] being those of the collection that meet the filter, each of
    them once, formatted.  A status (a priority) asked for as a text, if
    not empty, is the status (priority) of every listed record; when the
    status and the priority are texts or absent, the listed records are
    exactly those that have the status and the priority asked for; with
    neither, every record of the collection is listed.  Of a parameter
    that is not a text, the store decides which records meet it. *)
Theorem list_content (req : Request) (w : World) :
  method req = GET -> path req = Root ->
  served w ->
  accepted w req ->
  exists bugs test,
    fst (handle req w)
    = Respond 200
        (obj [("success", JBool true);
              ("count", JNum (Z.of_nat (length bugs)));
              ("data", JArr (List.map (fun b => JObj (formatBugResponse b)) bugs))])
    /\ compile_filter (language w) (map_to_list (list_filter req)) = inr test
    /\ bugs ≡ₚ List.filter test (collection w)
    /\ (forall k s, k = "status" \/ k = "priority" ->
                    get (query req) k = JStr s -> s <> [] ->
                    Forall (fun b => get b k = JStr s) bugs)
    /\ (text_or_absent (get (query req) "status") ->
        text_or_absent (get (query req) "priority") ->
        bugs ≡ₚ List.filter (asked_for req) (collection w))
    /\ (truthy (get (query req) "status") = false ->
        truthy (get (query req) "priority") = false ->
        bugs ≡ₚ collection w).
Proof.
  intros Hm Hp Hs [(test & Ht) (cmp & Hc)].
  rewrite (handle_no_rules req w getAllBugs) by (rewrite Hm, Hp; reflexivity).
  rewrite getAllBugs_result.
  change (list_filter (routed req)) with (list_filter req).
  change (list_sort (routed req)) with (list_sort req).
  unfold served in Hs. rewrite Ht, Hc.
  set (bugs := sort_docs cmp (List.filter test (collection w))).
  assert (Hperm : bugs ≡ₚ List.filter test (collection w))
    by apply sort_docs_Permutation.
  destruct (list_filter_keeps req) as [Hks Hkp].
  exists bugs, test.
  split; [destruct (faults w) as [|[e|] rest]; [reflexivity | destruct Hs | reflexivity]|].
  split; [reflexivity|]. split; [exact Hperm|]. split; [|split].
  - intros k s Hk E Hne. rewrite Hperm. apply List.Forall_forall. intros b Hb.
    apply filter_In in Hb as [_ Hb].
    apply (compile_filter_text _ _ _ _ _ _ Ht); [|exact Hb].
    apply list_elem_of_In, elem_of_map_to_list. rewrite <- E.
    destruct Hk as [-> | ->]; [apply Hks | apply Hkp]; rewrite E;
      (destruct s; [congruence | reflexivity]).
  - intros H1 H2. rewrite Hperm. erewrite filter_same; [reflexivity|].
    intros b. rewrite (compile_filter_plain _ _ _ (list_filter_texts req H1 H2) Ht b).
    apply list_filter_asked; assumption.
  - intros H1 H2. rewrite Hperm. revert Ht. rewrite (list_filter_empty req H1 H2).
    rewrite map_to_list_empty. cbn [compile_filter]. intros [= <-].
    rewrite filter_all; [reflexivity|]. intros x. reflexivity.
Qed.

Lemma list_content_witness :
  exists bugs test,
    fst (handle (request GET Root {["status" := JStr (js "open")]} ∅) one_bug_world)
    = Respond 200
        (obj [("success", JBool true);
              ("count", JNum (Z.of_nat (length bugs)));
              ("data", JArr (List.map (fun b => JObj (formatBugResponse b)) bugs))])
    /\ compile_filter (language one_bug_world)
         (map_to_list (list_filter (request GET Root {["status" := JStr (js "open")]} ∅)))
       = inr test
    /\ bugs ≡ₚ List.filter test (collection one_bug_world)
    /\ Forall (fun b => get b "status" = JStr (js "open")) bugs
    /\ bugs ≡ₚ List.filter (asked_for (request GET Root {["status" := JStr (js "open")]} ∅))
                  (collection one_bug_world).
Proof.
  destruct (list_content (request GET Root {["status" := JStr (js "open")]} ∅) one_bug_world)
    as (bugs & test & Hr & Ht & Hp & Hall & Hask & _).
  - reflexivity.
  - reflexivity.
  - exact I.
  - split; eexists; vm_compute; reflexivity.
  - exists bugs, test. split; [exact Hr|]. split; [exact Ht|]. split; [exact Hp|]. split.
    + apply (Hall "status" (js "open")); [left; reflexivity | vm_compute; reflexivity|].
      vm_compute. discriminate.
    + apply Hask; [right | left]; [eexists|]; vm_compute; reflexivity.
Defined.

(** ** What the rules make of the payload *)

Lemma trimmed_value_defined v : strict_eq (trimmed_value v) JUndefined = false.
Proof. destruct v; reflexivity. Qed.

Lemma run_items_value opt items : forall v errs,
  opt && strict_eq v JUndefined = false ->
  fst (fold_left (ExpressValidator.run_item opt) items (v, errs))
  = fold_left (fun x i => if is_sanitizer i then trimmed_value x else x) items v.
Proof.
  induction items as [|i items IH]; intros v errs Hv; cbn [fold_left]; [reflexivity|].
  unfold ExpressValidator.run_item at 2. rewrite Hv.
  destruct i; cbn [is_sanitizer]; try (apply IH; exact Hv).
  fold (trimmed_value v). apply IH.
  rewrite trimmed_value_defined. apply andb_false_r.
Qed.

Lemma run_stack_value c v : fst (ExpressValidator.run_stack c v) = sanitized c v.
Proof.
  unfold ExpressValidator.run_stack, sanitized.
  destruct (ExpressValidator.is_optional c && strict_eq v JUndefined) eqn:E.
  - apply andb_prop in E as [Ho Hv]. rewrite Ho.
    apply strict_eq_true in Hv. subst v. rewrite run_items_undefined. reflexivity.
  - apply run_items_value. exact E.
Qed.

Lemma run_field c req :
  ExpressValidator.location c = ExpressValidator.InBody ->
  get (body (ExpressValidator.run c req)) (ExpressValidator.field c)
  = fst (ExpressValidator.run_stack c (get (body req) (ExpressValidator.field c))).
Proof.
  intros Hl. unfold ExpressValidator.run. rewrite Hl. cbn [ExpressValidator.source].
  destruct (ExpressValidator.run_stack c _) as [v' errs]. cbn [body fst].
  destruct (strict_eq _ v') eqn:E.
  - apply strict_eq_true in E. exact E.
  - unfold get. rewrite lookup_insert_eq. reflexivity.
Qed.

Lemma fold_run_field rules c :
  NoDup (List.map rule_key rules) ->
  In c rules ->
  ExpressValidator.location c = ExpressValidator.InBody ->
  forall req,
    get (body (fold_left (fun r c => ExpressValidator.run c r) rules req))
        (ExpressValidator.field c)
    = sanitized c (get (body req) (ExpressValidator.field c)).
Proof.
  intros Hnd Hin Hl. assert (Hk : rule_key c = (ExpressValidator.InBody, ExpressValidator.field c))
    by (unfold rule_key; rewrite Hl; reflexivity).
  induction rules as [|c0 rules IH]; intros req; [destruct Hin|].
  cbn [fold_left]. cbn [List.map] in Hnd. apply NoDup_cons in Hnd as [H0 Hnd].
  destruct Hin as [->|Hin].
  - rewrite fold_run_body_other.
    + rewrite run_field by exact Hl. apply run_stack_value.
    + rewrite <- Hk. intros H. apply H0, list_elem_of_In, H.
  - rewrite (IH Hnd Hin). f_equal.
    apply (run_source_other c0 req ExpressValidator.InBody (ExpressValidator.field c)).
    fold (rule_key c0). rewrite <- Hk. intros E. apply H0. rewrite E.
    apply list_elem_of_In, in_map, Hin.
Qed.

Lemma validated_field req k :
  get (body (validated req)) k
  = match rule_on (method req) (path req) k with
    | Some c => sanitized c (get (body req) k)
    | None => get (body req) k
    end.
Proof.
  unfold rule_on, validated.
  destruct (List.find _ _) as [c|] eqn:E.
  - apply find_some in E as [Hin Hk]. apply bool_decide_eq_true in Hk.
    unfold rule_key in Hk. injection Hk as Hl Hf.
    rewrite <- Hf. rewrite (fold_run_field _ c (rules_of_NoDup _ _) Hin Hl). reflexivity.
  - rewrite fold_run_body_other; [reflexivity|].
    intros Hin. apply in_map_iff in Hin as (c & Hk & Hin).
    pose proof (find_none _ _ E c Hin) as Hn. cbn beta in Hn.
    apply bool_decide_eq_false in Hn. exact (Hn Hk).
Qed.

Lemma sanitizing_rules m p c :
  In c (rules_of m p) ->
  existsb is_sanitizer (ExpressValidator.stack c) = true ->
  ExpressValidator.location c = ExpressValidator.InBody
  /\ In (ExpressValidator.field c) text_fields.
Proof.
  assert (H : forallb (fun c => negb (existsb is_sanitizer (ExpressValidator.stack c))
                               || bool_decide (ExpressValidator.location c
                                               = ExpressValidator.InBody)
                                  && bool_decide (In (ExpressValidator.field c) text_fields))
                (rules_of m p) = true).
  { destruct m, p as [|s]; cbn [rules_of]; try destruct (is_stats s); vm_compute; reflexivity. }
  rewrite forallb_forall in H. intros Hin Hs. specialize (H c Hin). rewrite Hs in H.
  cbn [negb orb] in H. apply andb_prop in H as [H1 H2].
  apply bool_decide_eq_true in H1, H2. split; assumption.
Qed.

Lemma sanitized_without c v :
  existsb is_sanitizer (ExpressValidator.stack c) = false -> sanitized c v = v.
Proof.
  unfold sanitized. intros H. destruct (_ && _); [reflexivity|].
  revert v. induction (ExpressValidator.stack c) as [|i l IH]; intros v; [reflexivity|].
  cbn [existsb] in H. apply orb_false_elim in H as [Hi Hl].
  cbn [fold_left]. rewrite Hi. exact (IH Hl v).
Qed.

Lemma trimmed_value_not_object v o : trimmed_value v <> JObj o.
Proof. destruct v; discriminate. Qed.

(** After the rules, a free-text field the record operation reads is the
    text the [trim] sanitizer made (a list of such texts, of a list), or
    absent: never an object. *)
Lemma validated_text_value req k :
  method req = POST /\ path req = Root /\ In k text_fields
  \/ method req = PUT /\ (exists id, path req = Segment id)
     /\ In k ["title"; "description"; "assignedTo"] ->
  get (body (validated req)) k = trimmed_value (get (body req) k)
  \/ get (body (validated req)) k = JUndefined.
Proof.
  intros H.
  destruct H as [(Hm & Hp & Hk) | (Hm & (id & Hp) & Hk)];
    rewrite validated_field, Hm, Hp; cbn [In text_fields] in Hk.
  - destruct Hk as [<-|[<-|[<-|[<-|[]]]]]; try (left; reflexivity).
    change (rule_on POST Root "assignedTo")
      with (Some (ExpressValidator.body "assignedTo"
                    [ExpressValidator.optional; ExpressValidator.trim])).
    unfold sanitized. cbn [ExpressValidator.is_optional ExpressValidator.stack
                             ExpressValidator.body existsb ExpressValidator.optional orb andb].
    destruct (strict_eq _ _) eqn:E;
      [right; exact (strict_eq_true _ _ E) | left; reflexivity].
  - destruct Hk as [<-|[<-|[<-|[]]]];
      match goal with
      | |- match rule_on ?m ?p ?k with _ => _ end = _ \/ _ =>
          let c := eval vm_compute in (rule_on m p k) in
          change (rule_on m p k) with c
      end;
      unfold sanitized; cbn [ExpressValidator.is_optional ExpressValidator.stack existsb orb andb];
      (destruct (strict_eq _ _) eqn:E;
       [right; exact (strict_eq_true _ _ E) | left; reflexivity]).
Qed.

Lemma validated_text req k o :
  method req = POST /\ path req = Root /\ In k text_fields
  \/ method req = PUT /\ (exists id, path req = Segment id)
     /\ In k ["title"; "description"; "assignedTo"] ->
  get (body (validated req)) k <> JObj o.
Proof.
  intros H. destruct (validated_text_value req k H) as [-> | ->];
    [apply trimmed_value_not_object | discriminate].
Qed.

(** On a create, the title, the description and the reporter are always
    the text the [trim] sanitizer made. *)
Lemma validated_required req k :
  method req = POST -> path req = Root ->
  In k ["title"; "description"; "reporter"] ->
  get (body (validated req)) k = trimmed_value (get (body req) k).
Proof.
  intros Hm Hp Hk. rewrite validated_field, Hm, Hp. cbn [In] in Hk.
  destruct Hk as [<-|[<-|[<-|[]]]]; reflexivity.
Qed.

Lemma bugData_get (b : Obj) :
  (forall k, In k ["title"; "description"; "reporter"] ->
             get (bugData b) k = sanitizeInput (get b k))
  /\ get (bugData b) "assignedTo"
     = (if truthy (get b "assignedTo") then sanitizeInput (get b "assignedTo")
        else JUndefined)
  /\ get (bugData b) "status" = js_or (get b "status") (JStr (js "open"))
  /\ get (bugData b) "priority" = js_or (get b "priority") (JStr (js "medium"))
  /\ get (bugData b) "tags" = js_or (get b "tags") (JArr []).
Proof.
  unfold bugData, obj. cbn [list_to_map foldr].
  split; [intros k Hk; cbn [In] in Hk; destruct Hk as [<-|[<-|[<-|[]]]]|repeat split];
    unfold get at 1; rewrite ?lookup_insert_ne by discriminate;
    rewrite lookup_insert_eq; reflexivity.
Qed.

(** X8.  No request puts an angle bracket into a free-text field of a
    stored record: if no record of the collection has one in its title,
    description, reporter or assignee, none has after the request,
    whatever the request is. *)
Theorem stored_text_stays_clean (req : Request) (w : World) :
  clean (collection w) -> clean (collection (snd (handle req w))).
Proof.
  intros Hw. pose proof (handle_change req w) as H. revert H.
  generalize (collection (snd (handle req w))). intros c H.
  destruct H as [|data Hm Hp -> He|oid sets now old new c' Hm Hp Hc He Hf|oid d c' _ Hr].
  - exact Hw.
  - apply Forall_app. split; [exact Hw|]. constructor; [|constructor].
    apply pre_save_clean, new_document_clean. intros k o Hk.
    apply validated_text. left. tauto.
  - refine (update_first_Forall clean_record _ _ _ _ _ _ Hf _ Hw).
    intros d Hd. apply (apply_updates_clean (body (validated req))); [|exact Hc|exact Hd].
    intros k o Hk. apply validated_text. right. tauto.
  - exact (remove_first_Forall _ _ _ _ _ Hr Hw).
Qed.

Lemma stored_text_stays_clean_witness :
  clean (collection one_bug_world)
  /\ first_record (snd (handle (request PUT (Segment stored_id) ∅ retitle) one_bug_world))
                  "title"
     = JStr (js "bNew title/b")
  /\ clean (collection (snd (handle (request PUT (Segment stored_id) ∅ retitle)
                               one_bug_world))).
Proof.
  assert (H : clean (collection one_bug_world)).
  { constructor; [|constructor]. intros k s Hk Hg. cbn [text_fields In] in Hk.
    destruct Hk as [<-|[<-|[<-|[<-|[]]]]]; vm_compute in Hg; try discriminate Hg;
      injection Hg as <-; vm_compute; reflexivity. }
  split; [exact H|]. split; [vm_compute; reflexivity|].
  apply (stored_text_stays_clean (request PUT (Segment stored_id) ∅ retitle) one_bug_world).
  exact H.
Defined.

(** X11.  A create request that the rules accept, that the storage layer
    serves and whose data pass the schema is answered with status 201
    and the new record, formatted; the record is added at the end of the
    collection, the records that were there stay as they are, and the
    storage layer is called once, with the sanitized data: the title, the
    description and the reporter are the texts of the payload, trimmed by
    the rules and passed through [sanitizeInput]; the assignee is absent
    or is such a text; the status, the priority and the tags are those of
    the payload or, where it has none, [open], [medium] and no tag.  The
    record bears the next identifier, the time of its construction as
    [createdAt], and as [updatedAt] the time at which the hook that runs
    before the save stamps it, which is not earlier. *)
Theorem create_success (req : Request) (w : World) :
  method req = POST -> path req = Root ->
  violations req = [] ->
  served w ->
  document_errors (bugData (body (validated req))) = [] ->
  exists d data,
    fst (handle req w)
    = Respond 201 (obj [("success", JBool true); ("data", JObj (formatBugResponse d))])
    /\ collection (snd (handle req w)) = collection w ++ [d]
    /\ calls (snd (handle req w)) = Create data :: calls w
    /\ (forall k, In k ["title"; "description"; "reporter"] ->
                  get data k = sanitizeInput (trimmed_value (get (body req) k)))
    /\ (get data "assignedTo" = JUndefined
        \/ get data "assignedTo"
           = sanitizeInput (trimmed_value (get (body req) "assignedTo")))
    /\ get data "status" = js_or (get (body req) "status") (JStr (js "open"))
    /\ get data "priority" = js_or (get (body req) "priority") (JStr (js "medium"))
    /\ get data "tags" = js_or (get (body req) "tags") (JArr [])
    /\ get d "_id" = JStr (objectId (serial w))
    /\ get d "createdAt" = JNum (clock w + 1)
    /\ get d "updatedAt" = JNum (clock w + 1 + lag w)
    /\ (0 <= lag w)%Z
    /\ get (formatBugResponse d) "id" = JStr (objectId (serial w)).
Proof.
  intros Hm Hp Hv Hs He.
  assert (Hr : rules_of (method req) (path req) <> []) by (rewrite Hm, Hp; discriminate).
  rewrite (handle_validated req w Hr), Hv, Hm. cbn [controller_of].
  rewrite (createBug_served _ w Hs He). cbv zeta. cbn [fst snd].
  eexists. exists (bugData (body (validated req))).
  split; [reflexivity|]. split; [reflexivity|]. split; [reflexivity|].
  destruct (bugData_get (body (validated req))) as (Ht & Ha & Est & Epr & Etg).
  split; [|split; [|split; [|split; [|split]]]].
  - intros k Hk. rewrite (Ht k Hk), (validated_required req k Hm Hp Hk). reflexivity.
  - rewrite Ha. destruct (truthy _) eqn:Et; [|left; reflexivity].
    destruct (validated_text_value req "assignedTo") as [E|E];
      [left; split; [exact Hm | split; [exact Hp | cbn; tauto]]
      |right; rewrite E; reflexivity
      |rewrite E in Et; discriminate Et].
  - rewrite Est, create_rules_keep by (try assumption; cbn; tauto). reflexivity.
  - rewrite Epr, create_rules_keep by (try assumption; cbn; tauto). reflexivity.
  - rewrite Etg, create_rules_keep by (try assumption; cbn; tauto). reflexivity.
  - set (doc := new_document (bugData (body (validated req))) (objectId (serial w))
                  (clock w + 1)).
    assert (Hstamp : forall p, In p ["_id"; "createdAt"] ->
              get doc p
              = get (obj [("_id", JStr (objectId (serial w)));
                          ("createdAt", JNum (clock w + 1));
                          ("updatedAt", JNum (clock w + 1)); ("__v", JNum 0)]) p).
    { intros p Hin. unfold get at 1 2. unfold doc. rewrite new_document_stamp; [reflexivity|].
      cbn in Hin |- *. intuition (subst; discriminate). }
    assert (Hid : get (pre_save (clock w + 1 + lag w) doc) "_id" = JStr (objectId (serial w))).
    { rewrite pre_save_get by discriminate. rewrite Hstamp by (cbn; tauto). reflexivity. }
    split; [exact Hid|].
    split; [rewrite pre_save_get by discriminate; rewrite Hstamp by (cbn; tauto);
            reflexivity|].
    split; [unfold pre_save, get; rewrite lookup_insert_eq; reflexivity|].
    split; [unfold lag; lia|].
    unfold formatBugResponse. unfold get at 1. rewrite lookup_insert_eq. exact Hid.
Qed.

Lemma create_success_witness :
  exists d data,
    fst (handle (request POST Root ∅ login_bug) slow_world)
    = Respond 201 (obj [("success", JBool true); ("data", JObj (formatBugResponse d))])
    /\ collection (snd (handle (request POST Root ∅ login_bug) slow_world)) = [d]
    /\ calls (snd (handle (request POST Root ∅ login_bug) slow_world)) = [Create data]
    /\ get data "title" = JStr (js "Login button not working")
    /\ get data "status" = JStr (js "open")
    /\ get d "_id" = JStr (objectId 1)
    /\ get d "createdAt" = JNum 1700000000001
    /\ get d "updatedAt" = JNum 1700000000004.
Proof.
  destruct (create_success (request POST Root ∅ login_bug) slow_world)
    as (d & data & Hr & Hc & Hcalls & Ht & _ & Hst & _ & _ & Hid & Hca & Hua & _).
  - reflexivity.
  - reflexivity.
  - vm_compute; reflexivity.
  - exact I.
  - vm_compute; reflexivity.
  - exists d, data. split; [exact Hr|]. split; [exact Hc|]. split; [exact Hcalls|].
    split; [rewrite (Ht "title") by (cbn; tauto); vm_compute; reflexivity|].
    split; [rewrite Hst; vm_compute; reflexivity|].
    split; [exact Hid|]. split; [exact Hca | exact Hua].
Defined.

(** X16.  What the validation rules make of the payload before the record
    operation sees it.  On a create, the title, the description and the
    reporter are replaced by their text, trimmed (an absent one by the
    empty text).  The assignee on a create, and the title, the description
    and the assignee on an update, are left absent if absent and are
    otherwise replaced by their text, trimmed.  Every field that is not a
    free-text field is handed on as it came, on every route. *)
Theorem rules_trim_text (req : Request) (k : string) :
  (method req = POST -> path req = Root ->
   In k ["title"; "description"; "reporter"] ->
   get (body (validated req)) k = trimmed_value (get (body req) k))
  /\ (method req = POST /\ path req = Root /\ k = "assignedTo"
      \/ method req = PUT /\ (exists id, path req = Segment id)
         /\ In k ["title"; "description"; "assignedTo"] ->
      get (body (validated req)) k
      = if strict_eq (get (body req) k) JUndefined then JUndefined
        else trimmed_value (get (body req) k))
  /\ (~ In k text_fields -> get (body (validated req)) k = get (body req) k).
Proof.
  split; [|split].
  - intros Hm Hp Hk. rewrite validated_field, Hm, Hp. cbn [In] in Hk.
    destruct Hk as [<-|[<-|[<-|[]]]]; reflexivity.
  - intros [(Hm & Hp & ->) | (Hm & (id & Hp) & Hk)]; rewrite validated_field, Hm, Hp.
    + change (rule_on POST Root "assignedTo")
        with (Some (ExpressValidator.body "assignedTo"
                      [ExpressValidator.optional; ExpressValidator.trim])).
      unfold sanitized. cbn [ExpressValidator.is_optional ExpressValidator.stack
                               ExpressValidator.body existsb ExpressValidator.optional orb andb].
      destruct (strict_eq _ _) eqn:E; [exact (strict_eq_true _ _ E) | reflexivity].
    + cbn [In] in Hk.
      destruct Hk as [<-|[<-|[<-|[]]]];
        match goal with
        | |- match rule_on ?m ?p ?k with _ => _ end = _ =>
            let c := eval vm_compute in (rule_on m p k) in
            change (rule_on m p k) with c
        end;
        unfold sanitized; cbn [ExpressValidator.is_optional ExpressValidator.stack existsb orb andb];
        (destruct (strict_eq _ _) eqn:E; [exact (strict_eq_true _ _ E) | reflexivity]).
  - intros Hk. rewrite validated_field. unfold rule_on.
    destruct (List.find _ _) as [c|] eqn:E; [|reflexivity].
    apply find_some in E as [Hin Hc]. apply bool_decide_eq_true in Hc.
    unfold rule_key in Hc. injection Hc as Hl Hf.
    apply sanitized_without.
    destruct (existsb is_sanitizer (ExpressValidator.stack c)) eqn:Es; [|reflexivity].
    destruct (sanitizing_rules _ _ c Hin Es) as [_ Ht]. rewrite Hf in Ht. contradiction.
Qed.

Lemma rules_trim_text_witness :
  get (body (validated (request POST Root ∅ retitle))) "title"
  = trimmed_value (get (body (request POST Root ∅ retitle)) "title").
Proof.
  apply (proj1 (rules_trim_text (request POST Root ∅ retitle) "title")).
  - reflexivity.
  - reflexivity.
  - cbn. tauto.
Defined.

(** ** The form of the client *)

Lemma split_pieces sep s : forall x, In x (split sep s) -> ~ In sep x.
Proof.
  induction s as [|c r IH]; cbn [split]; intros x Hx.
  - destruct Hx as [<-|[]]. intros [].
  - destruct (c =? sep)%N eqn:Ec.
    + destruct Hx as [<-|Hx]; [intros [] | exact (IH x Hx)].
    + apply N.eqb_neq in Ec. destruct (split sep r) as [|y ys] eqn:Es.
      * destruct Hx as [<-|[]]. intros [E|[]]. congruence.
      * destruct Hx as [<-|Hx].
        -- intros [E|Hin]; [congruence|]. exact (IH y (or_introl eq_refl) Hin).
        -- exact (IH x (or_intror Hx)).
Qed.

Lemma split_whole sep a : ~ In sep a -> split sep a = [a].
Proof.
  induction a as [|c a IH]; intros Hn; cbn [split]; [reflexivity|].
  destruct (c =? sep)%N eqn:Ec.
  - apply N.eqb_eq in Ec. exfalso. apply Hn. left. exact Ec.
  - rewrite IH; [reflexivity|]. intros H. apply Hn. right. exact H.
Qed.

Lemma split_app sep a r : ~ In sep a -> split sep (a ++ sep :: r) = a :: split sep r.
Proof.
  induction a as [|c a IH]; intros Hn; cbn [split app].
  - rewrite N.eqb_refl. reflexivity.
  - destruct (c =? sep)%N eqn:Ec.
    + apply N.eqb_eq in Ec. exfalso. apply Hn. left. exact Ec.
    + rewrite IH; [reflexivity|]. intros H. apply Hn. right. exact H.
Qed.

Lemma split_join ts :
  Forall tag ts ->
  List.map trim (split 44 (join (js ", ") ts)) = match ts with [] => [[]] | _ => ts end.
Proof.
  induction ts as [|t ts IH]; intros H; [reflexivity|].
  apply Forall_cons in H as [(Hne & Htr & Hc) Hts].
  destruct ts as [|u ts].
  - cbn [join]. rewrite (split_whole _ _ Hc). cbn [List.map]. rewrite (trim_fixed _ Htr).
    reflexivity.
  - change (join (js ", ") (t :: u :: ts)) with (t ++ 44%N :: 32%N :: join (js ", ") (u :: ts)).
    rewrite (split_app _ _ _ Hc). cbn [List.map]. rewrite (trim_fixed _ Htr). f_equal.
    specialize (IH Hts). apply Forall_cons in Hts as [(Hne' & Htr' & Hc') _].
    destruct (split 44 (join (js ", ") (u :: ts))) as [|x xs] eqn:Es; [discriminate IH|].
    cbn [split]. change (32 =? 44)%N with false. cbv iota. rewrite Es.
    cbn [List.map] in IH |- *. injection IH as Hx Hxs. rewrite Hxs. f_equal.
    replace (32%N :: x) with ([32%N] ++ x ++ []) by (rewrite app_nil_r; reflexivity).
    rewrite (trim_whitespace [32%N] x []) by reflexivity. exact Hx.
Qed.

Lemma filter_keeps_all {A} (p : A -> bool) l :
  Forall (fun x => p x = true) l -> List.filter p l = l.
Proof.
  induction 1 as [|x l Hx _ IH]; cbn [List.filter]; [reflexivity|].
  rewrite Hx, IH. reflexivity.
Qed.

(** X17.  The tags the form submits.  Whatever the tags input holds, each
    submitted tag is not empty, has no white space at its ends and no
    comma.  And the form of an existing bug hands back the tags it
    started with: a list of such tags, joined for the input and
    submitted unchanged, is submitted as it was; no tags give no tags. *)
Theorem submitted_tags_spec :
  (forall text t, In t (BugForm.submitted_tags text) -> tag t)
  /\ (forall ts, Forall tag ts ->
                 BugForm.submitted_tags (BugForm.initial_tags (Some ts)) = ts)
  /\ BugForm.submitted_tags (BugForm.initial_tags None) = [].
Proof.
  split; [|split].
  - intros text t Hin. unfold BugForm.submitted_tags in Hin.
    apply filter_In in Hin as [Hin Hlen]. apply in_map_iff in Hin as (x & <- & Hx).
    split; [|split].
    + intros E. rewrite E in Hlen. discriminate Hlen.
    + apply trim_trimmed.
    + intros H. apply (split_pieces _ _ _ Hx).
      destruct (trim_infix x) as (p & q & E). rewrite E.
      apply in_or_app. right. apply in_or_app. left. exact H.
  - intros ts Hts. unfold BugForm.submitted_tags, BugForm.initial_tags.
    assert (E : match join (js ", ") ts with [] => [] | text => text end = join (js ", ") ts)
      by (destruct (join _ ts); reflexivity).
    rewrite E, (split_join ts Hts). destruct ts as [|t ts]; [reflexivity|].
    apply filter_keeps_all. eapply Forall_impl; [exact Hts|].
    intros u (Hne & _). destruct u; [congruence | reflexivity].
  - reflexivity.
Qed.

Lemma submitted_tags_spec_witness :
  BugForm.submitted_tags (BugForm.initial_tags (Some [js "ui"; js "login page"]))
  = [js "ui"; js "login page"].
Proof.
  apply (proj1 (proj2 submitted_tags_spec)).
  repeat constructor; (discriminate || (cbn; intuition discriminate)).
Defined.

Example submitted_tags_test :
  BugForm.submitted_tags (js " frontend, ,backend ,, ui design ")
  = [js "frontend"; js "backend"; js "ui design"].
Proof. vm_compute. reflexivity. Qed.

Lemma measured_length_le s : ExpressValidator.measured_length s <= length s.
Proof. unfold ExpressValidator.measured_length. lia. Qed.

(** The messages of a rule [trim; notEmpty; isLength] on a text. *)
Lemma required_text_messages k m1 min max m2 t :
  snd (ExpressValidator.run_stack
         (ExpressValidator.body k
            [ExpressValidator.trim; ExpressValidator.notEmpty m1;
             ExpressValidator.isLength min max m2])
         (JStr t))
  = (if (length (trim t) =? 0)%nat then [js m1] else [])
    ++ (if ExpressValidator.validate (ExpressValidator.IsLength min max) (trim t)
        then [] else [js m2]).
Proof.
  cbv [ExpressValidator.run_stack ExpressValidator.stack ExpressValidator.body
       ExpressValidator.is_optional existsb ExpressValidator.trim ExpressValidator.notEmpty
       ExpressValidator.isLength fold_left ExpressValidator.run_item orb andb strict_eq
       ExpressValidator.items_of ExpressValidator.toString ToString List.filter List.map
       snd app ExpressValidator.validate Bool.eqb].
  destruct (length (trim t) =? 0)%nat;
    destruct (min <=? ExpressValidator.measured_length (trim t))%nat;
    try reflexivity; destruct max as [m|]; try reflexivity;
    destruct (ExpressValidator.measured_length (trim t) <=? m)%nat; reflexivity.
Qed.

Lemma concat_nil {A} (l : list (list A)) x : concat l = [] -> In x l -> x = [].
Proof.
  induction l as [|y l IH]; cbn [concat]; [intros _ []|].
  intros H [<-|Hin]; apply app_eq_nil in H as [H1 H2]; [exact H1 | exact (IH H2 Hin)].
Qed.

Lemma required_name_messages k m t :
  snd (ExpressValidator.run_stack
         (ExpressValidator.body k [ExpressValidator.trim; ExpressValidator.notEmpty m])
         (JStr t))
  = if (length (trim t) =? 0)%nat then [js m] else [].
Proof.
  cbv [ExpressValidator.run_stack ExpressValidator.stack ExpressValidator.body
       ExpressValidator.is_optional existsb ExpressValidator.trim ExpressValidator.notEmpty
       fold_left ExpressValidator.run_item orb andb strict_eq
       ExpressValidator.items_of ExpressValidator.toString ToString List.filter List.map
       snd app ExpressValidator.validate Bool.eqb].
  destruct (length (trim t) =? 0)%nat; reflexivity.
Qed.

Lemma submitData_text formData :
  get (BugForm.submitData formData) "title" = JStr (BugForm.title formData)
  /\ get (BugForm.submitData formData) "description" = JStr (BugForm.description formData)
  /\ get (BugForm.submitData formData) "reporter" = JStr (BugForm.reporter formData).
Proof.
  unfold BugForm.submitData, obj, get. cbn [list_to_map foldr].
  repeat split; rewrite ?lookup_insert_ne by discriminate; rewrite lookup_insert_eq;
    reflexivity.
Qed.

(** X18.  The form is no stricter than the server: whenever the create
    rules of the server have nothing to object to the payload the form
    would submit, [validateForm] accepts the form. *)
Theorem form_no_stricter (formData : BugForm.FormData) :
  violations (request POST Root ∅ (BugForm.submitData formData)) = [] ->
  BugForm.validateForm formData = true.
Proof.
  intros Hv. unfold violations in Hv.
  change (method (request POST Root ∅ (BugForm.submitData formData))) with POST in Hv.
  change (path (request POST Root ∅ (BugForm.submitData formData))) with Root in Hv.
  destruct (submitData_text formData) as (Gt & Gd & Gr).
  set (req := routed (request POST Root ∅ (BugForm.submitData formData))) in Hv.
  assert (Hrule : forall c, In c (rules_of POST Root) -> rule_violations c req = []).
  { intros c Hin. apply (concat_nil _ _ Hv).
    exact (in_map (fun c => rule_violations c req) _ c Hin). }
  pose proof (Hrule _ (or_introl eq_refl)) as H1.
  pose proof (Hrule _ (or_intror (or_introl eq_refl))) as H2.
  pose proof (Hrule _ (or_intror (or_intror (or_intror (or_introl eq_refl))))) as H3.
  unfold rule_violations, field_value in H1, H2, H3.
  cbn [ExpressValidator.location ExpressValidator.field ExpressValidator.body
       ExpressValidator.source] in H1, H2, H3.
  change (body req) with (BugForm.submitData formData) in H1, H2, H3.
  rewrite Gt in H1. rewrite Gd in H2. rewrite Gr in H3.
  rewrite required_text_messages in H1, H2. rewrite required_name_messages in H3.
  apply app_eq_nil in H1 as [H1a H1b]. apply app_eq_nil in H2 as [H2a H2b].
  cbn [ExpressValidator.validate] in H1b, H2b.
  pose proof (measured_length_le (trim (BugForm.title formData))) as L1.
  pose proof (measured_length_le (trim (BugForm.description formData))) as L2.
  unfold BugForm.validateForm, BugForm.newErrors.
  destruct (trim (BugForm.title formData)) as [|c1 t1] eqn:E1; [discriminate H1a|].
  destruct (trim (BugForm.description formData)) as [|c2 t2] eqn:E2; [discriminate H2a|].
  destruct (trim (BugForm.reporter formData)) as [|c3 t3] eqn:E3; [discriminate H3|].
  destruct (3 <=? ExpressValidator.measured_length (c1 :: t1))%nat eqn:M1;
    [|discriminate H1b].
  destruct (10 <=? ExpressValidator.measured_length (c2 :: t2))%nat eqn:M2;
    [|discriminate H2b].
  apply Nat.leb_le in M1, M2.
  assert ((length (c1 :: t1) <? 3)%nat = false) as -> by (apply Nat.ltb_ge; lia).
  assert ((length (c2 :: t2) <? 10)%nat = false) as -> by (apply Nat.ltb_ge; lia).
  reflexivity.
Qed.

Lemma form_no_stricter_witness : BugForm.validateForm login_form = true.
Proof.
  apply (form_no_stricter login_form). vm_compute; reflexivity.
Defined.

(** The converse fails: the form counts code units where the server's rule
    counts characters. *)
Example form_accepts_what_server_rejects :
  BugForm.validateForm astral_form = true
  /\ violations (request POST Root ∅ (BugForm.submitData astral_form))
     = [js "Title must be 3-200 characters"].
Proof. split; vm_compute; reflexivity. Qed.

(** ** Updates that succeed, and the enumerations *)

Lemma find_update_first (p : Obj -> bool) (f : Obj -> Obj) l d :
  List.find p l = Some d ->
  exists l1 l2, l = l1 ++ d :: l2
                /\ update_first p f l = Some (d, f d, l1 ++ f d :: l2)
                /\ List.find p l1 = None.
Proof.
  induction l as [|x r IH]; cbn [List.find update_first]; [discriminate|].
  destruct (p x) eqn:Ep.
  - intros [= ->]. exists [], r. repeat split.
  - intros H. destruct (IH H) as (l1 & l2 & -> & Hr & Hn).
    exists (x :: l1), l2. rewrite Hr. cbn [List.find]. rewrite Ep. repeat split. exact Hn.
Qed.

Lemma updatable_schema k : In k updatable -> exists t, In (k, t) bugSchema.
Proof.
  intros H. cbn [updatable In] in H.
  destruct H as [<-|[<-|[<-|[<-|[<-|[<-|[]]]]]]]; eexists; unfold bugSchema; cbn [In];
    [left | right; left | right; right; left | right; right; right; left
    | right; right; right; right; right; left
    | right; right; right; right; right; right; left]; reflexivity.
Qed.

(** No assignment of an update is of [undefined]. *)
Lemma build_updates_values (b : Obj) k v : build_updates b !! k = Some v -> v <> JUndefined.
Proof.
  unfold build_updates. intros H.
  repeat (apply conditional_insert in H as [(-> & Hc & ->) | H];
          [destruct (get b _); cbn in Hc |- *; congruence|]).
  rewrite lookup_empty in H. discriminate.
Qed.

Lemma update_paths_NoDup (u : Obj) : NoDup (List.map path_of (update_paths u)).
Proof.
  unfold update_paths. pose proof bugSchema_NoDup as H. revert H.
  generalize bugSchema as l. induction l as [|[p t] l IH]; intros H; [constructor|].
  cbn [List.map fst] in H. apply NoDup_cons in H as [Hp H].
  cbn [omap list_omap fst snd].
  assert (Hrest : ~ In p (List.map path_of
                            (omap (fun pt => match get u pt.1 with
                                             | JUndefined => None
                                             | v => Some (pt.1, pt.2, v)
                                             end) l))).
  { intros Hin. apply Hp. apply list_elem_of_In.
    apply in_map_iff in Hin as ([[q t'] v] & Hq & Hin). cbn [path_of fst] in Hq. subst q.
    apply list_elem_of_In, list_elem_of_omap in Hin as ([q t''] & Hl & Hf).
    cbn [fst snd] in Hf. destruct (get u q); try discriminate; injection Hf as -> _ _;
      apply list_elem_of_In in Hl; exact (in_map fst l _ Hl). }
  destruct (get u p); [exact (IH H)| | | | | |];
    (cbn [List.map path_of fst]; apply NoDup_cons; split;
     [intros Hin; apply Hrest, list_elem_of_In, Hin | exact (IH H)]).
Qed.

Lemma apply_updates_member sets now (d : Obj) k t v :
  NoDup (List.map path_of sets) ->
  In (k, t, v) sets ->
  k <> "updatedAt" ->
  get (apply_updates sets now d) k = v.
Proof.
  intros Hnd Hin Hk. unfold apply_updates, get. rewrite lookup_insert_ne by congruence.
  induction sets as [|[[p t'] v'] sets IH]; [destruct Hin|].
  cbn [List.map path_of fst] in Hnd. apply NoDup_cons in Hnd as [Hp Hnd].
  cbn [foldr fst snd]. destruct Hin as [Hin|Hin].
  - injection Hin as -> -> ->. rewrite lookup_insert_eq. reflexivity.
  - rewrite lookup_insert_ne; [exact (IH Hnd Hin)|].
    intros ->. apply Hp, list_elem_of_In.
    exact (in_map path_of sets (k, t, v) Hin).
Qed.

(** What an update that goes through does. *)
Lemma update_applied (req : Request) (w : World) (id : jsstring) (d0 : Obj)
    (sets : list (string * SchemaType * JsValue)) :
  method req = PUT -> path req = Segment id ->
  violations req = [] ->
  served w -> served (enter (FindById (JStr id)) w) ->
  List.find (has_id (List.map lower_hex id)) (collection w) = Some d0 ->
  cast_updates (update_paths (build_updates (body (validated req)))) = inr sets ->
  update_errors sets = [] ->
  exists d',
    fst (handle req w)
    = Respond 200 (obj [("success", JBool true); ("data", JObj (formatBugResponse d'))])
    /\ (exists l1 l2,
          collection w = l1 ++ d0 :: l2
          /\ collection (snd (handle req w)) = l1 ++ d' :: l2
          /\ List.find (has_id (List.map lower_hex id)) l1 = None)
    /\ get d' "updatedAt" = JNum (clock w + 2)
    /\ (forall k v, build_updates (body (validated req)) !! k = Some v ->
                    exists t, In (k, t) bugSchema /\ castPath t v = Some (get d' k))
    /\ (forall k, k <> "updatedAt" -> build_updates (body (validated req)) !! k = None ->
                  d' !! k = d0 !! k).
Proof.
  intros Hm Hp Hv Hs1 Hs2 Hf Hc He.
  pose proof (found_id_well_formed id _ _ Hf) as Hsyn.
  assert (Hreq : id_request req id) by (split; [exact Hp | tauto]).
  rewrite (handle_validated req w (id_request_has_rules req id Hreq)), Hv, Hm.
  cbn [controller_of].
  unfold updateBug, try_catch, mbind, M_bind. rewrite (validated_id req id Hreq).
  unfold Bug_findById. rewrite (storage_served _ _ _ Hs1).
  cbn [castObjectId]. rewrite Hsyn. cbn [collection enter]. rewrite Hf.
  unfold Bug_findByIdAndUpdate. rewrite (storage_served _ _ _ Hs2).
  cbn [castObjectId]. rewrite Hsyn, Hc, He. cbn [collection enter clock].
  destruct (find_update_first _ (apply_updates sets (clock w + 1 + 1)) _ _ Hf)
    as (l1 & l2 & Hl & Hu & Hn).
  rewrite Hu. unfold mret, M_ret. cbn [fst snd collection set_collection].
  set (d' := apply_updates sets (clock w + 1 + 1) d0).
  exists d'. split; [reflexivity|].
  split; [exists l1, l2; split; [exact Hl | split; [reflexivity | exact Hn]]|].
  split.
  { unfold d', apply_updates, get. rewrite lookup_insert_eq. simpl. f_equal. lia. }
  split.
  - intros k v Hk.
    destruct (updatable_schema k (build_updates_keys _ _ _ Hk)) as (t & Ht).
    assert (Hin : In (k, t, v) (update_paths (build_updates (body (validated req))))).
    { apply update_paths_member; [exact Ht | unfold get; rewrite Hk; reflexivity
                                 | exact (build_updates_values _ _ _ Hk)]. }
    destruct (cast_updates_member _ _ _ _ _ Hc Hin) as (v' & Hv' & Hin').
    exists t. split; [exact Ht|]. rewrite Hv'. f_equal. symmetry.
    apply (apply_updates_member sets _ d0 k t v'); [|exact Hin'|].
    + rewrite (cast_updates_paths _ _ Hc). apply update_paths_NoDup.
    + intros ->. pose proof (build_updates_keys _ _ _ Hk) as Hup.
      cbn in Hup. intuition discriminate.
  - intros k Hk Hnone. apply apply_updates_frame; [exact Hk|].
    rewrite (cast_updates_paths _ _ Hc). intros Hin.
    apply update_paths_defined in Hin. apply Hin. unfold get. rewrite Hnone. reflexivity.
Qed.

(** X19.  An update request that the rules accept, on a record that
    exists, whose assignments the storage layer casts and finds valid, and
    whose two storage calls are served: it is answered with status 200
    and the record as it is after the update, formatted; in the
    collection the first record that bears the identifier is replaced by
    it and every other record stays in its place; each field the update
    assigns holds the cast of the assigned value, and [updatedAt] the time
    of the write. *)
Theorem update_success (req : Request) (w : World) (id : jsstring) (d0 : Obj)
    (sets : list (string * SchemaType * JsValue)) :
  method req = PUT -> path req = Segment id ->
  violations req = [] ->
  served w -> served (enter (FindById (JStr id)) w) ->
  List.find (has_id (List.map lower_hex id)) (collection w) = Some d0 ->
  cast_updates (update_paths (build_updates (body (validated req)))) = inr sets ->
  update_errors sets = [] ->
  exists d',
    fst (handle req w)
    = Respond 200 (obj [("success", JBool true); ("data", JObj (formatBugResponse d'))])
    /\ (exists l1 l2,
          collection w = l1 ++ d0 :: l2
          /\ collection (snd (handle req w)) = l1 ++ d' :: l2
          /\ List.find (has_id (List.map lower_hex id)) l1 = None)
    /\ get d' "updatedAt" = JNum (clock w + 2)
    /\ (forall k v, build_updates (body (validated req)) !! k = Some v ->
                    exists t, In (k, t) bugSchema /\ castPath t v = Some (get d' k))
    /\ (forall k, k <> "updatedAt" -> build_updates (body (validated req)) !! k = None ->
                  d' !! k = d0 !! k).
Proof. exact (update_applied req w id d0 sets). Qed.

Lemma update_success_witness :
  exists d',
    fst (handle (request PUT (Segment stored_id) ∅ retitle) one_bug_world)
    = Respond 200 (obj [("success", JBool true); ("data", JObj (formatBugResponse d'))])
    /\ (exists l1 l2,
          collection one_bug_world = l1 ++ stored_bug :: l2
          /\ collection (snd (handle (request PUT (Segment stored_id) ∅ retitle) one_bug_world))
             = l1 ++ d' :: l2
          /\ List.find (has_id (List.map lower_hex stored_id)) l1 = None)
    /\ get d' "updatedAt" = JNum (clock one_bug_world + 2)
    /\ (forall k v,
          build_updates (body (validated (request PUT (Segment stored_id) ∅ retitle))) !! k
          = Some v ->
          exists t, In (k, t) bugSchema /\ castPath t v = Some (get d' k))
    /\ (forall k, k <> "updatedAt" ->
                  build_updates (body (validated (request PUT (Segment stored_id) ∅ retitle)))
                  !! k = None ->
                  d' !! k = stored_bug !! k).
Proof.
  apply (update_success (request PUT (Segment stored_id) ∅ retitle) one_bug_world
           stored_id stored_bug
           [("title", SString {| required := Some (js "Bug title is required");
                                 trimmed_on_set := true;
                                 minlength := Some (3, js "Title must be at least 3 characters");
                                 maxlength := Some (200, js "Title cannot exceed 200 characters");
                                 enum := None; default_value := None |},
             JStr (js "bNew title/b"));
            ("status", SString {| required := None; trimmed_on_set := false;
                                  minlength := None; maxlength := None;
                                  enum := Some validStatuses;
                                  default_value := Some (js "open") |},
             JStr (js "resolved"))]).
  - reflexivity.
  - reflexivity.
  - vm_compute; reflexivity.
  - exact I.
  - exact I.
  - vm_compute; reflexivity.
  - vm_compute; reflexivity.
  - vm_compute; reflexivity.
Defined.

Lemma build_updates_get (b : Obj) :
  build_updates b !! "title"
  = (if truthy (get b "title") then Some (sanitizeInput (get b "title")) else None)
  /\ build_updates b !! "description"
     = (if truthy (get b "description") then Some (sanitizeInput (get b "description"))
        else None)
  /\ build_updates b !! "status"
     = (if truthy (get b "status") then Some (get b "status") else None)
  /\ build_updates b !! "priority"
     = (if truthy (get b "priority") then Some (get b "priority") else None)
  /\ build_updates b !! "assignedTo"
     = (if strict_eq (get b "assignedTo") JUndefined then None
        else Some (sanitizeInput (get b "assignedTo")))
  /\ build_updates b !! "tags"
     = (if truthy (get b "tags") then Some (get b "tags") else None).
Proof.
  unfold build_updates. cbv zeta.
  repeat split;
    destruct (truthy (get b "title")), (truthy (get b "description")),
      (truthy (get b "status")), (truthy (get b "priority")),
      (strict_eq (get b "assignedTo") JUndefined), (truthy (get b "tags"));
    cbn [negb]; rewrite ?lookup_insert_ne by discriminate;
    rewrite ?lookup_insert_eq; rewrite ?lookup_empty; reflexivity.
Qed.

Lemma update_rules_keep req id k :
  method req = PUT -> path req = Segment id ->
  In k ["status"; "priority"; "tags"] ->
  get (body (validated req)) k = get (body req) k.
Proof.
  intros Hm Hp Hk. unfold validated. rewrite Hm, Hp. cbn [rules_of].
  rewrite fold_keeps.
  - unfold routed. rewrite Hp. reflexivity.
  - cbn [In] in Hk. destruct Hk as [<-|[<-|[<-|[]]]]; vm_compute; reflexivity.
Qed.

Lemma validated_optional_text req id k :
  method req = PUT -> path req = Segment id ->
  In k ["title"; "description"; "assignedTo"] ->
  get (body (validated req)) k
  = if strict_eq (get (body req) k) JUndefined then JUndefined
    else trimmed_value (get (body req) k).
Proof.
  intros Hm Hp Hk. rewrite validated_field, Hm, Hp. cbn [In] in Hk.
  destruct Hk as [<-|[<-|[<-|[]]]];
    match goal with
    | |- match rule_on ?m ?p ?k with _ => _ end = _ =>
        let c := eval vm_compute in (rule_on m p k) in
        change (rule_on m p k) with c
    end;
    unfold sanitized; cbn [ExpressValidator.is_optional ExpressValidator.stack existsb orb andb];
    (destruct (strict_eq _ _) eqn:E; [exact (strict_eq_true _ _ E) | reflexivity]).
Qed.

Lemma update_rule_quiet req id c :
  method req = PUT -> path req = Segment id ->
  violations req = [] ->
  In c Validation.updateBugValidation ->
  snd (ExpressValidator.run_stack c (get (body req) (ExpressValidator.field c))) = [].
Proof.
  intros Hm Hp Hv Hin. unfold violations in Hv. rewrite Hm, Hp in Hv. cbn [rules_of] in Hv.
  assert (H : rule_violations c (routed req) = []).
  { apply (concat_nil _ _ Hv).
    exact (in_map (fun c => rule_violations c (routed req)) _ c
             (in_or_app _ _ _ (or_intror Hin))). }
  unfold rule_violations, field_value in H.
  assert (Hl : ExpressValidator.location c = ExpressValidator.InBody).
  { cbn [Validation.updateBugValidation In] in Hin.
    repeat (destruct Hin as [<-|Hin]; [reflexivity|]). destruct Hin. }
  rewrite Hl in H. cbn [ExpressValidator.source] in H.
  replace (body (routed req)) with (body req) in H by (unfold routed; rewrite Hp; reflexivity).
  exact H.
Qed.

Lemma optional_text_truthy k min max m v :
  0 < min -> v <> JUndefined ->
  snd (ExpressValidator.run_stack
         (ExpressValidator.body k
            [ExpressValidator.optional; ExpressValidator.trim;
             ExpressValidator.isLength min max m]) v) = [] ->
  truthy (trimmed_value v) = true.
Proof.
  intros Hmin Hv H.
  destruct v as [| |b|n|s|l|o]; try congruence; try reflexivity;
    cbn [trimmed_value truthy];
    cbv [ExpressValidator.run_stack ExpressValidator.stack ExpressValidator.body
         ExpressValidator.is_optional existsb ExpressValidator.optional
         ExpressValidator.trim ExpressValidator.isLength fold_left
         ExpressValidator.run_item orb andb strict_eq ExpressValidator.items_of
         List.filter List.map snd app ExpressValidator.validate Bool.eqb] in H;
    match goal with
    | |- match ?t with _ => _ end = true =>
        destruct t eqn:E; [exfalso | reflexivity]
    end;
    change (ExpressValidator.measured_length []) with 0 in H;
    destruct min as [|min]; try lia; cbn in H; discriminate H.
Qed.

Lemma enum_rule_scalar k values msg v :
  v <> JUndefined -> (forall l, v <> JArr l) ->
  snd (ExpressValidator.run_stack
         (ExpressValidator.body k [ExpressValidator.optional; ExpressValidator.isIn values msg])
         v)
  = if existsb (jseqb (ExpressValidator.toString v)) (List.map js values)
    then [] else [js msg].
Proof.
  intros Hu Ha.
  set (b := existsb (jseqb (ExpressValidator.toString v)) (List.map js values)).
  destruct v as [| |x|n|s|l|o]; try congruence; try (destruct (Ha l eq_refl));
    cbv [ExpressValidator.run_stack ExpressValidator.stack ExpressValidator.body
         ExpressValidator.is_optional existsb ExpressValidator.optional ExpressValidator.isIn
         fold_left ExpressValidator.run_item orb andb strict_eq
         ExpressValidator.items_of List.filter snd app Bool.eqb];
    match goal with
    | |- context [ExpressValidator.validate ?a ?s] =>
        change (ExpressValidator.validate a s) with b
    end;
    destruct b; reflexivity.
Qed.

Lemma optional_enum_truthy k values m v :
  existsb (jseqb []) (List.map js values) = false ->
  existsb (jseqb (js "0")) (List.map js values) = false ->
  existsb (jseqb (js "false")) (List.map js values) = false ->
  v <> JUndefined ->
  snd (ExpressValidator.run_stack
         (ExpressValidator.body k [ExpressValidator.optional; ExpressValidator.isIn values m])
         v) = [] ->
  truthy v = true.
Proof.
  intros H0 H1 H2 Hv H.
  destruct (truthy v) eqn:Ht; [reflexivity|]. exfalso.
  rewrite enum_rule_scalar in H; [|exact Hv | intros l ->; discriminate Ht].
  destruct v as [| |b|n|s|l|o]; cbn [truthy] in Ht; try discriminate Ht; try congruence.
  - cbn [ExpressValidator.toString] in H. rewrite H0 in H. discriminate H.
  - subst b. change (ExpressValidator.toString (JBool false)) with (js "false") in H.
    rewrite H2 in H. discriminate H.
  - destruct n; try discriminate Ht.
    change (ExpressValidator.toString (JNum 0)) with (js "0") in H.
    rewrite H1 in H. discriminate H.
  - destruct s; [|discriminate Ht]. cbn [ExpressValidator.toString ToString] in H.
    rewrite H0 in H. discriminate H.
Qed.

Lemma optional_array_truthy k m v :
  v <> JUndefined ->
  snd (ExpressValidator.run_stack
         (ExpressValidator.body k [ExpressValidator.optional; ExpressValidator.isArray m])
         v) = [] ->
  truthy v = true.
Proof.
  intros Hv H. destruct v as [| |b|n|s|l|o]; try congruence; try reflexivity;
    cbv in H; discriminate H.
Qed.

(** What the update object holds for each field the request supplies. *)
Lemma supplied_assigned req id :
  method req = PUT -> path req = Segment id ->
  violations req = [] ->
  forall k, In k updatable -> get (body req) k <> JUndefined ->
            build_updates (body (validated req)) !! k = Some (assigned req k).
Proof.
  intros Hm Hp Hv k Hk Hs.
  pose proof (fun c => update_rule_quiet req id c Hm Hp Hv) as Hq.
  destruct (build_updates_get (body (validated req))) as (B1 & B2 & B3 & B4 & B5 & B6).
  assert (Hne : strict_eq (get (body req) k) JUndefined = false).
  { destruct (strict_eq (get (body req) k) JUndefined) eqn:E; [|reflexivity].
    destruct (Hs (strict_eq_true _ _ E)). }
  cbn [updatable In] in Hk.
  destruct Hk as [<-|[<-|[<-|[<-|[<-|[<-|[]]]]]]]; unfold assigned; cbn [existsb String.eqb Ascii.eqb Bool.eqb orb andb].
  - rewrite B1, (validated_optional_text req id "title" Hm Hp) by (cbn; tauto). rewrite Hne.
    rewrite (optional_text_truthy "title" 3 (Some 200) "Title must be 3-200 characters"
               _ ltac:(lia) Hs); [reflexivity|].
    exact (Hq _ (or_introl eq_refl)).
  - rewrite B2, (validated_optional_text req id "description" Hm Hp) by (cbn; tauto).
    rewrite Hne.
    rewrite (optional_text_truthy "description" 10 None
               "Description must be at least 10 characters" _ ltac:(lia) Hs); [reflexivity|].
    exact (Hq _ (or_intror (or_introl eq_refl))).
  - rewrite B3, (update_rules_keep req id "status" Hm Hp) by (cbn; tauto).
    rewrite (optional_enum_truthy "status" ["open"; "in-progress"; "resolved"; "closed"]
               "Invalid status" _ eq_refl eq_refl eq_refl Hs); [reflexivity|].
    exact (Hq _ (or_intror (or_intror (or_introl eq_refl)))).
  - rewrite B4, (update_rules_keep req id "priority" Hm Hp) by (cbn; tauto).
    rewrite (optional_enum_truthy "priority" ["low"; "medium"; "high"; "critical"]
               "Invalid priority" _ eq_refl eq_refl eq_refl Hs); [reflexivity|].
    exact (Hq _ (or_intror (or_intror (or_intror (or_introl eq_refl))))).
  - rewrite B5, (validated_optional_text req id "assignedTo" Hm Hp) by (cbn; tauto).
    rewrite Hne, trimmed_value_defined. reflexivity.
  - rewrite B6, (update_rules_keep req id "tags" Hm Hp) by (cbn; tauto).
    rewrite (optional_array_truthy "tags" "Tags must be an array" _ Hs); [reflexivity|].
    exact (Hq _ (or_intror (or_intror (or_intror (or_intror (or_intror (or_introl eq_refl))))))).
Qed.

Lemma omitted_unassigned req id k :
  method req = PUT -> path req = Segment id ->
  get (body req) k = JUndefined ->
  build_updates (body (validated req)) !! k = None.
Proof.
  intros Hm Hp Ho.
  destruct (build_updates (body (validated req)) !! k) as [v|] eqn:E; [|reflexivity].
  exfalso. pose proof (build_updates_keys _ _ _ E) as Hk. revert E.
  destruct (build_updates_get (body (validated req))) as (B1 & B2 & B3 & B4 & B5 & B6).
  cbn [updatable In] in Hk.
  destruct Hk as [<-|[<-|[<-|[<-|[<-|[<-|[]]]]]]].
  - rewrite B1, (validated_optional_text req id "title" Hm Hp) by (cbn; tauto).
    rewrite Ho. discriminate.
  - rewrite B2, (validated_optional_text req id "description" Hm Hp) by (cbn; tauto).
    rewrite Ho. discriminate.
  - rewrite B3, (update_rules_keep req id "status" Hm Hp) by (cbn; tauto).
    rewrite Ho. discriminate.
  - rewrite B4, (update_rules_keep req id "priority" Hm Hp) by (cbn; tauto).
    rewrite Ho. discriminate.
  - rewrite B5, (validated_optional_text req id "assignedTo" Hm Hp) by (cbn; tauto).
    rewrite Ho. discriminate.
  - rewrite B6, (update_rules_keep req id "tags" Hm Hp) by (cbn; tauto).
    rewrite Ho. discriminate.
Qed.

Lemma run_item_messages opt v errs i m :
  In m (snd (ExpressValidator.run_item opt (v, errs) i)) -> In m errs \/ m = item_message i.
Proof.
  unfold ExpressValidator.run_item. destruct (opt && strict_eq v JUndefined); [tauto|].
  destruct i as [| |sv neg msg|msg]; cbn [snd item_message]; try tauto.
  - intros H. apply in_app_or in H as [H|H]; [tauto|]. right.
    apply in_map_iff in H as (e & <- & _). reflexivity.
  - destruct v; try tauto; intros H; apply in_app_or in H as [H|[<-|[]]]; tauto.
Qed.

Lemma run_items_messages opt items : forall v errs m,
  In m (snd (fold_left (ExpressValidator.run_item opt) items (v, errs))) ->
  In m errs \/ In m (List.map item_message items).
Proof.
  induction items as [|i items IH]; intros v errs m H; cbn [fold_left] in H; [tauto|].
  destruct (ExpressValidator.run_item opt (v, errs) i) as [v' errs'] eqn:E.
  destruct (IH _ _ _ H) as [H'|H']; [|right; right; exact H'].
  change errs' with (snd (v', errs')) in H'. rewrite <- E in H'.
  destruct (run_item_messages _ _ _ _ _ H') as [Hm | ->]; [tauto|]. right. left. reflexivity.
Qed.

(** Every message of a rule is the message of one of its items. *)
Lemma rule_messages c r m :
  In m (rule_violations c r) -> In m (List.map item_message (ExpressValidator.stack c)).
Proof.
  unfold rule_violations, ExpressValidator.run_stack. intros H.
  destruct (run_items_messages _ _ _ _ _ H) as [[]|H']. exact H'.
Qed.

Lemma enum_rule_items k values msg v :
  v <> JUndefined ->
  snd (ExpressValidator.run_stack
         (ExpressValidator.body k [ExpressValidator.optional; ExpressValidator.isIn values msg])
         v)
  = List.map (fun _ => js msg)
      (List.filter (fun e => negb (existsb (jseqb (ExpressValidator.toString e))
                                           (List.map js values)))
                   (ExpressValidator.items_of v)).
Proof.
  intros Hu. unfold ExpressValidator.run_stack.
  change (ExpressValidator.is_optional _) with true.
  destruct v as [| |b|n|s|l|o]; try congruence;
    cbv [ExpressValidator.stack ExpressValidator.body ExpressValidator.optional
         ExpressValidator.isIn fold_left ExpressValidator.run_item andb strict_eq snd app];
    f_equal; apply filter_same; intros e; cbn [ExpressValidator.validate];
    destruct (existsb _ _); reflexivity.
Qed.

Lemma in_map_filter {A B} (f : A -> bool) (l : list A) (b : B) :
  In b (List.map (fun _ => b) (List.filter f l)) <-> existsb f l = true.
Proof.
  rewrite in_map_iff, existsb_exists. split.
  - intros (x & _ & Hx). apply filter_In in Hx. exists x. exact Hx.
  - intros (x & Hx). exists x. split; [reflexivity | apply filter_In; exact Hx].
Qed.

Lemma status_rule_messages r v :
  get (body r) "status" = v -> v <> JUndefined ->
  (In (js "Invalid status") (rule_violations status_rule r) <-> outside_statuses v = true).
Proof.
  intros Hs Hu. unfold rule_violations, field_value.
  change (ExpressValidator.source (ExpressValidator.location status_rule) r) with (body r).
  change (ExpressValidator.field status_rule) with "status". rewrite Hs.
  unfold status_rule. rewrite (enum_rule_items _ _ _ _ Hu).
  apply in_map_filter.
Qed.

Lemma status_message_rule req id :
  method req = PUT -> path req = Segment id ->
  In (js "Invalid status") (violations req)
  <-> In (js "Invalid status") (rule_violations status_rule (routed req)).
Proof.
  intros Hm Hp. unfold violations. rewrite Hm, Hp. cbn [rules_of]. split.
  - intros H. apply in_concat in H as (ms & Hms & H).
    apply in_map_iff in Hms as (c & <- & Hc).
    pose proof (rule_messages _ _ _ H) as Hi.
    cbn [Validation.bugIdValidation Validation.updateBugValidation app In] in Hc.
    repeat (destruct Hc as [<-|Hc];
            [first [exact H | exfalso; vm_compute in Hi; intuition discriminate]|]).
    destruct Hc.
  - intros H. apply in_concat. exists (rule_violations status_rule (routed req)).
    split; [|exact H]. apply in_map_iff. exists status_rule. split; [reflexivity|].
    cbn. right. right. right. left. reflexivity.
Qed.

Lemma uint_head u :
  match js (NilEmpty.string_of_uint u) with [] => True | c :: _ => (c <= 57)%N end.
Proof. destruct u; cbn; lia || exact I. Qed.

Lemma decimal_head n : match decimal n with [] => True | c :: _ => (c <= 57)%N end.
Proof.
  unfold decimal. destruct n; [cbn; lia| |];
    (destruct (Z.to_int _) as [u|u]; cbn [NilEmpty.string_of_int];
     [apply uint_head | cbn; lia]).
Qed.

(** The text of a number is in neither enumeration. *)
Lemma decimal_not_listed n values :
  Forall (fun s => match s with [] => False | c :: _ => (57 < c)%N end) values ->
  existsb (jseqb (decimal n)) values = false.
Proof.
  intros Hv. apply not_true_is_false. intros H.
  apply existsb_exists in H as (x & Hx & Hj). apply bool_decide_eq_true in Hj. subst x.
  rewrite List.Forall_forall in Hv. specialize (Hv _ Hx).
  pose proof (decimal_head n) as Hd. destruct (decimal n); [exact Hv | lia].
Qed.

Lemma validStatuses_letters :
  Forall (fun s => match s with [] => False | c :: _ => (57 < c)%N end) validStatuses.
Proof. repeat constructor. Qed.

(** On a status that is not an array, the update rule is the check of the
    enumeration. *)
Lemma outside_statuses_scalar v :
  (forall l, v <> JArr l) -> outside_statuses v = negb (isValidStatus v).
Proof.
  intros Ha. unfold outside_statuses, isValidStatus, includes.
  destruct v as [| |b|n|s|l|o]; try (destruct (Ha l eq_refl));
    cbn [ExpressValidator.items_of existsb ExpressValidator.toString ToString];
    rewrite ?orb_false_r; try reflexivity.
  - destruct b; reflexivity.
  - rewrite (decimal_not_listed n _ validStatuses_letters). reflexivity.
Qed.

Lemma cast_updates_fails l : forall p t v,
  In (p, t, v) l -> castPath t v = None -> exists q, cast_updates l = inl q.
Proof.
  induction l as [|[[p0 t0] v0] l IH]; intros p t v Hin Hc; [destruct Hin|].
  cbn [cast_updates]. destruct Hin as [Hin|Hin].
  - injection Hin as -> -> ->. rewrite Hc. eexists. reflexivity.
  - destruct (castPath t0 v0); [|eexists; reflexivity].
    destruct (IH _ _ _ Hin Hc) as (q & ->). eexists. reflexivity.
Qed.

(** An array status that the rules let through reaches the storage layer
    in the update object, and the storage layer refuses to cast it. *)
Lemma array_status_reaches_storage req w id l d0 :
  method req = PUT -> path req = Segment id ->
  get (body req) "status" = JArr l ->
  violations req = [] ->
  served w -> served (enter (FindById (JStr id)) w) ->
  List.find (has_id (List.map lower_hex id)) (collection w) = Some d0 ->
  build_updates (body (validated req)) !! "status" = Some (JArr l)
  /\ exists p,
       handle req w
       = (Next (Some (Thrown (castError p))),
          enter (FindByIdAndUpdate (JStr id) (build_updates (body (validated req))) true true)
                (enter (FindById (JStr id)) w)).
Proof.
  intros Hm Hp Hst Hv Hs1 Hs2 Hf.
  assert (Hu : build_updates (body (validated req)) !! "status" = Some (JArr l)).
  { rewrite (supplied_assigned req id Hm Hp Hv "status");
      [unfold assigned; cbn; rewrite Hst; reflexivity | cbn; tauto | rewrite Hst; discriminate]. }
  split; [exact Hu|].
  pose proof (found_id_well_formed id _ _ Hf) as Hsyn.
  assert (Hreq : id_request req id) by (split; [exact Hp | tauto]).
  rewrite (handle_validated req w (id_request_has_rules req id Hreq)), Hv, Hm.
  cbn [controller_of].
  unfold updateBug, try_catch, mbind, M_bind. rewrite (validated_id req id Hreq).
  unfold Bug_findById. rewrite (storage_served _ _ _ Hs1).
  cbn [castObjectId]. rewrite Hsyn. cbn [collection enter]. rewrite Hf.
  unfold Bug_findByIdAndUpdate. rewrite (storage_served _ _ _ Hs2).
  cbn [castObjectId]. rewrite Hsyn.
  destruct (cast_updates_fails (update_paths (build_updates (body (validated req))))
              "status" (SString {| required := None; trimmed_on_set := false;
                                   minlength := None; maxlength := None;
                                   enum := Some validStatuses;
                                   default_value := Some (js "open") |}) (JArr l))
    as (q & Hq).
  - apply update_paths_member; [right; right; left; reflexivity
                               |unfold get; rewrite Hu; reflexivity | discriminate].
  - reflexivity.
  - rewrite Hq. exists q. unfold handle_validation_error, castError. cbn [name].
    change (jseqb (js "CastError") (js "ValidationError")) with false.
    reflexivity.
Qed.

(** ** The partial update *)

(** C2.  An update request that the validation rules accept and that
    targets an existing record leaves every record other than the target
    as it was, and in the target changes nothing but [updatedAt] and
    fields the request supplies: a field the request omits keeps its
    value, and is not in the update object.  Every field the request
    supplies, of the six an update can set, is in the update object sent
    to the storage: the free-text fields [title], [description] and
    [assignedTo] sanitized (trimmed by the rules, then no angle bracket and
    at most 1000 code units), the others as they came.  The update is sent
    with [runValidators], under which the storage layer rejects a status or
    priority outside its enumeration.  And when the storage layer serves
    the two calls, casts the update object and finds it valid, the record
    holds, for every supplied field, the cast of the value so assigned,
    and the answer is the record as updated. *)
Theorem update_is_partial (req : Request) (w : World) (id : jsstring) (d0 : Obj) :
  method req = PUT ->
  path req = Segment id ->
  violations req = [] ->
  List.find (has_id (List.map lower_hex id)) (collection w) = Some d0 ->
  (length (collection (snd (handle req w))) = length (collection w)
   /\ forall i d d',
        collection w !! i = Some d ->
        collection (snd (handle req w)) !! i = Some d' ->
        (has_id (List.map lower_hex id) d = false -> d' = d)
        /\ (forall k, k <> "updatedAt" -> get (body req) k = JUndefined -> d' !! k = d !! k))
  /\ (exists new,
        calls (snd (handle req w)) = new ++ calls w
        /\ forall idv u n rv,
             In (FindByIdAndUpdate idv u n rv) new ->
             rv = true
             /\ forall k v,
                  In k ["title"; "description"; "assignedTo"] ->
                  u !! k = Some v ->
                  v = sanitizeInput (get (body (validated req)) k)
                  /\ forall s, v = JStr s -> no_angle s /\ length s <= 1000)
  /\ (served w ->
      calls (snd (handle req w))
      = [FindByIdAndUpdate (JStr id) (build_updates (body (validated req))) true true;
         FindById (JStr id)] ++ calls w)
  /\ (forall path values idv oid (u : Obj) s sets v,
        (path = "status" /\ values = validStatuses)
        \/ (path = "priority" /\ values = validPriorities) ->
        served v ->
        castObjectId idv = Some oid ->
        get u path = JStr s ->
        existsb (jseqb s) values = false ->
        cast_updates (update_paths u) = inr sets ->
        exists errs,
          Bug_findByIdAndUpdate idv u true true v
          = (Throw (validationError errs), enter (FindByIdAndUpdate idv u true true) v)
          /\ In (path, enumMessage path s) errs)
  /\ (forall k, In k updatable -> get (body req) k <> JUndefined ->
                build_updates (body (validated req)) !! k = Some (assigned req k))
  /\ (forall k, get (body req) k = JUndefined ->
                build_updates (body (validated req)) !! k = None)
  /\ (forall sets,
        served w -> served (enter (FindById (JStr id)) w) ->
        cast_updates (update_paths (build_updates (body (validated req)))) = inr sets ->
        update_errors sets = [] ->
        exists d',
          fst (handle req w)
          = Respond 200 (obj [("success", JBool true); ("data", JObj (formatBugResponse d'))])
          /\ (exists l1 l2,
                collection w = l1 ++ d0 :: l2
                /\ collection (snd (handle req w)) = l1 ++ d' :: l2
                /\ List.find (has_id (List.map lower_hex id)) l1 = None)
          /\ (forall k, In k updatable -> get (body req) k <> JUndefined ->
                        exists t, In (k, t) bugSchema
                                  /\ castPath t (assigned req k) = Some (get d' k))
          /\ (forall k, k <> "updatedAt" -> get (body req) k = JUndefined ->
                        d' !! k = d0 !! k)).
Proof.
  intros Hm Hp Hv Hf.
  destruct (update_frame req w id d0 Hm Hp Hv Hf) as (F1 & F2 & F3 & F4).
  pose proof (supplied_assigned req id Hm Hp Hv) as Hsup.
  pose proof (fun k => omitted_unassigned req id k Hm Hp) as Hom.
  split; [exact F1|]. split; [exact F2|]. split; [exact F3|]. split; [exact F4|].
  split; [exact Hsup|]. split; [exact Hom|].
  intros sets Hs1 Hs2 Hc He.
  destruct (update_applied req w id d0 sets Hm Hp Hv Hs1 Hs2 Hf Hc He)
    as (d' & Hr & Hl & _ & Hcast & Hkeep).
  exists d'. split; [exact Hr|]. split; [exact Hl|]. split.
  - intros k Hk Hk'. exact (Hcast k _ (Hsup k Hk Hk')).
  - intros k Hk Hk'. exact (Hkeep k Hk (Hom k Hk')).
Qed.

Lemma update_is_partial_witness :
  build_updates (body (validated (request PUT (Segment stored_id) ∅ retitle))) !! "title"
  = Some (JStr (js "bNew title/b"))
  /\ build_updates (body (validated (request PUT (Segment stored_id) ∅ retitle)))
     !! "description" = None
  /\ exists d',
       fst (handle (request PUT (Segment stored_id) ∅ retitle) one_bug_world)
       = Respond 200 (obj [("success", JBool true); ("data", JObj (formatBugResponse d'))])
       /\ get d' "title" = JStr (js "bNew title/b")
       /\ get d' "status" = JStr (js "resolved")
       /\ d' !! "description" = stored_bug !! "description".
Proof.
  destruct (update_is_partial (request PUT (Segment stored_id) ∅ retitle) one_bug_world
              stored_id stored_bug) as (_ & _ & _ & _ & Hsup & Hom & Hdone).
  - reflexivity.
  - reflexivity.
  - vm_compute; reflexivity.
  - vm_compute; reflexivity.
  - split; [|split].
    + rewrite (Hsup "title"); [vm_compute; reflexivity | cbn; tauto | vm_compute; discriminate].
    + apply Hom. vm_compute; reflexivity.
    + destruct (Hdone
                  [("title",
                    SString {| required := Some (js "Bug title is required");
                               trimmed_on_set := true;
                               minlength := Some (3, js "Title must be at least 3 characters");
                               maxlength := Some (200, js "Title cannot exceed 200 characters");
                               enum := None; default_value := None |},
                    JStr (js "bNew title/b"));
                   ("status",
                    SString {| required := None; trimmed_on_set := false;
                               minlength := None; maxlength := None;
                               enum := Some validStatuses;
                               default_value := Some (js "open") |},
                    JStr (js "resolved"))])
        as (d' & Hr & _ & Hcast & Hkeep);
        [exact I | exact I | vm_compute; reflexivity | vm_compute; reflexivity|].
      exists d'. split; [exact Hr|].
      destruct (Hcast "title") as (t1 & Ht1 & Hc1);
        [cbn; tauto | vm_compute; discriminate|].
      destruct (Hcast "status") as (t2 & Ht2 & Hc2);
        [cbn; tauto | vm_compute; discriminate|].
      assert (E1 : castPath t1 (assigned (request PUT (Segment stored_id) ∅ retitle) "title")
                   = Some (JStr (js "bNew title/b")))
        by (rewrite (schema_type _ _ _ Ht1 (or_introl eq_refl)); vm_compute; reflexivity).
      assert (E2 : castPath t2 (assigned (request PUT (Segment stored_id) ∅ retitle) "status")
                   = Some (JStr (js "resolved")))
        by (rewrite (schema_type _ _ _ Ht2 (or_intror (or_intror (or_introl eq_refl))));
            vm_compute; reflexivity).
      rewrite E1 in Hc1. rewrite E2 in Hc2.
      split; [congruence|]. split; [congruence|].
      apply Hkeep; [discriminate | vm_compute; reflexivity].
Defined.

(** ** The status, on create and on update *)

(** C7, as amended.  The create rules have no rule for [status]; a valid
    create request reaches the storage with the caller's status as it came
    whenever that status is truthy, and with ['open'] otherwise, that is
    when it is absent, [null], [false], [0] or the empty text.  The update
    rule checks a status item by item, on its text: it objects exactly
    when the text of the status, or of one item of a status that is an
    array, is none of the four statuses, and the request is then rejected
    with status 400 before the update operation or any storage call runs.
    So for a status that is not an array the rule is the check of the
    enumeration.  An array is never in the enumeration, yet the rule lets
    it through when each of its items is a status, and when it is empty:
    such a request, on a record that exists, reaches the storage layer
    with the array in the update object, and the storage layer refuses to
    cast it. *)
Theorem status_checked_on_update_only :
  (forall c, In c Validation.createBugValidation -> ExpressValidator.field c <> "status")
  /\ (forall req w,
        method req = POST -> path req = Root -> violations req = [] ->
        exists data,
          calls (snd (handle req w)) = Create data :: calls w
          /\ get data "status"
             = if truthy (get (body req) "status") then get (body req) "status"
               else JStr (js "open"))
  /\ (forall req w id v,
        method req = PUT -> path req = Segment id ->
        get (body req) "status" = v ->
        v <> JUndefined ->
        (In (js "Invalid status") (violations req) <-> outside_statuses v = true)
        /\ (outside_statuses v = true ->
            handle req w
            = (Next (Some (AppError (join (js ", ") (violations req)) 400)), w)))
  /\ (forall v, (forall l, v <> JArr l) -> outside_statuses v = negb (isValidStatus v))
  /\ (forall l,
        isValidStatus (JArr l) = false
        /\ outside_statuses (JArr l)
           = existsb (fun e => negb (isValidStatus (JStr (ExpressValidator.toString e)))) l)
  /\ (forall req w id l d0,
        method req = PUT -> path req = Segment id ->
        get (body req) "status" = JArr l ->
        violations req = [] ->
        served w -> served (enter (FindById (JStr id)) w) ->
        List.find (has_id (List.map lower_hex id)) (collection w) = Some d0 ->
        build_updates (body (validated req)) !! "status" = Some (JArr l)
        /\ exists p,
             handle req w
             = (Next (Some (Thrown (castError p))),
                enter (FindByIdAndUpdate (JStr id) (build_updates (body (validated req)))
                         true true)
                      (enter (FindById (JStr id)) w))).
Proof.
  destruct create_status_unchecked as [H1 H2].
  split; [exact H1|]. split; [exact H2|]. split; [|split; [|split]].
  - intros req w id v Hm Hp Hs Hu.
    assert (Hiff : In (js "Invalid status") (violations req) <-> outside_statuses v = true).
    { rewrite (status_message_rule req id Hm Hp).
      apply status_rule_messages; [exact Hs | exact Hu]. }
    split; [exact Hiff|]. intros Ho. apply handle_rejected. intros E.
    apply Hiff in Ho. rewrite E in Ho. destruct Ho.
  - exact outside_statuses_scalar.
  - intros l. split; reflexivity.
  - exact array_status_reaches_storage.
Qed.

Lemma status_checked_on_update_only_witness :
  (exists data,
     calls (snd (handle (request POST Root ∅ brackets_bug) empty_world))
     = Create data :: calls empty_world
     /\ get data "status"
        = if truthy (get (body (request POST Root ∅ brackets_bug)) "status")
          then get (body (request POST Root ∅ brackets_bug)) "status"
          else JStr (js "open"))
  /\ handle (request PUT (Segment absent_id) ∅ (obj [("status", JStr (js "bogus"))]))
            empty_world
     = (Next (Some (AppError (js "Invalid status") 400)), empty_world)
  /\ exists p,
       handle (request PUT (Segment stored_id) ∅ listed_status) one_bug_world
       = (Next (Some (Thrown (castError p))),
          enter (FindByIdAndUpdate (JStr stored_id)
                   (build_updates
                      (body (validated (request PUT (Segment stored_id) ∅ listed_status))))
                   true true)
                (enter (FindById (JStr stored_id)) one_bug_world)).
Proof.
  split; [|split].
  - apply (proj1 (proj2 status_checked_on_update_only)
             (request POST Root ∅ brackets_bug) empty_world);
      vm_compute; reflexivity.
  - rewrite (proj2 (proj1 (proj2 (proj2 status_checked_on_update_only))
                      (request PUT (Segment absent_id) ∅ (obj [("status", JStr (js "bogus"))]))
                      empty_world absent_id (JStr (js "bogus")) eq_refl eq_refl
                      ltac:(vm_compute; reflexivity) ltac:(discriminate)));
      vm_compute; reflexivity.
  - destruct (proj2 (proj2 (proj2 (proj2 (proj2 status_checked_on_update_only))))
                (request PUT (Segment stored_id) ∅ listed_status) one_bug_world stored_id
                [JStr (js "open")] stored_bug) as [_ H];
      [reflexivity | reflexivity | vm_compute; reflexivity | vm_compute; reflexivity
      | exact I | exact I | vm_compute; reflexivity | exact H].
Defined.

(** A list of one valid status is not in the enumeration; the update rules
    have nothing to object; the request makes its two storage calls and
    ends in the cast error of the storage layer. *)
Example listed_status_passes_the_rule :
  isValidStatus (get listed_status "status") = false
  /\ violations (request PUT (Segment stored_id) ∅ listed_status) = []
  /\ fst (handle (request PUT (Segment stored_id) ∅ listed_status) one_bug_world)
     = Next (Some (Thrown (castError "status")))
  /\ calls_made (request PUT (Segment stored_id) ∅ listed_status) one_bug_world = 2.
Proof. vm_compute. repeat split. Qed.

Lemma enum_rule_messages k values msg s :
  snd (ExpressValidator.run_stack
         (ExpressValidator.body k [ExpressValidator.optional; ExpressValidator.isIn values msg])
         (JStr s))
  = if existsb (jseqb s) (List.map js values) then [] else [js msg].
Proof.
  set (b := existsb (jseqb s) (List.map js values)).
  cbv [ExpressValidator.run_stack ExpressValidator.stack ExpressValidator.body
       ExpressValidator.is_optional existsb ExpressValidator.optional ExpressValidator.isIn
       fold_left ExpressValidator.run_item orb andb strict_eq
       ExpressValidator.items_of ExpressValidator.toString ToString List.filter
       snd app Bool.eqb].
  change (ExpressValidator.validate (ExpressValidator.IsIn (List.map js values)) s) with b.
  destruct b; reflexivity.
Qed.

(** X20.  The three places that name the statuses and the priorities
    agree.  For every text: the update rule on the status accepts it
    exactly when [isValidStatus] does, and exactly when the enumeration of
    the schema does; and so for the priority, with the create rule and the
    update rule, [isValidPriority] and the schema. *)
Theorem enumerations_agree (s : jsstring) :
  (forall m p c, In c (rules_of m p) -> rule_key c = (ExpressValidator.InBody, "status") ->
                 (snd (ExpressValidator.run_stack c (JStr s)) = []
                  <-> isValidStatus (JStr s) = true))
  /\ (forall m p c, In c (rules_of m p) -> rule_key c = (ExpressValidator.InBody, "priority") ->
                    (snd (ExpressValidator.run_stack c (JStr s)) = []
                     <-> isValidPriority (JStr s) = true))
  /\ (forall t, In ("status", t) bugSchema ->
                (validatePath t "status" (JStr s) = None <-> isValidStatus (JStr s) = true))
  /\ (forall t, In ("priority", t) bugSchema ->
                (validatePath t "priority" (JStr s) = None <-> isValidPriority (JStr s) = true)).
Proof.
  assert (Hmsg : forall k values msg,
             snd (ExpressValidator.run_stack
                    (ExpressValidator.body k
                       [ExpressValidator.optional; ExpressValidator.isIn values msg]) (JStr s)) = []
             <-> existsb (jseqb s) (List.map js values) = true).
  { intros k values msg. rewrite enum_rule_messages.
    destruct (existsb _ _); split; congruence. }
  assert (Hrules : forall m p c k,
             In k ["status"; "priority"] ->
             In c (rules_of m p) -> rule_key c = (ExpressValidator.InBody, k) ->
             c = ExpressValidator.body k
                   [ExpressValidator.optional;
                    ExpressValidator.isIn
                      (if String.eqb k "status"
                       then ["open"; "in-progress"; "resolved"; "closed"]
                       else ["low"; "medium"; "high"; "critical"])
                      (if String.eqb k "status" then "Invalid status" else "Invalid priority")]).
  { intros m p c k Hk Hin Hkey. cbn [In] in Hk.
    destruct m, p as [|seg]; cbn [rules_of] in Hin; try destruct (is_stats seg);
      cbn [In Validation.createBugValidation Validation.updateBugValidation
              Validation.bugIdValidation app] in Hin;
      repeat (destruct Hin as [<-|Hin]; [destruct Hk as [<-|[<-|[]]];
                                         first [discriminate Hkey | reflexivity]|]);
      destruct Hin. }
  split; [|split; [|split]].
  - intros m p c Hin Hkey.
    rewrite (Hrules m p c "status" ltac:(cbn; tauto) Hin Hkey). apply Hmsg.
  - intros m p c Hin Hkey.
    rewrite (Hrules m p c "priority" ltac:(cbn; tauto) Hin Hkey). apply Hmsg.
  - intros t Hin. unfold bugSchema in Hin. cbn [In] in Hin.
    repeat (destruct Hin as [Hin|Hin]; [try discriminate Hin; injection Hin as <-|]);
      [|destruct Hin].
    unfold validatePath, validateString, isValidStatus, includes.
    cbn [required minlength maxlength enum].
    destruct (existsb (jseqb s) validStatuses); destruct s; cbn; split; congruence.
  - intros t Hin. unfold bugSchema in Hin. cbn [In] in Hin.
    repeat (destruct Hin as [Hin|Hin]; [try discriminate Hin; injection Hin as <-|]);
      [|destruct Hin].
    unfold validatePath, validateString, isValidPriority, includes.
    cbn [required minlength maxlength enum].
    destruct (existsb (jseqb s) validPriorities); destruct s; cbn; split; congruence.
Qed.

Lemma enumerations_agree_witness : isValidStatus (JStr (js "resolved")) = true.
Proof.
  apply (proj1 (proj2 (proj2 (enumerations_agree (js "resolved"))))
           (SString {| required := None; trimmed_on_set := false;
                       minlength := None; maxlength := None;
                       enum := Some validStatuses;
                       default_value := Some (js "open") |})).
  - right. right. left. reflexivity.
  - reflexivity.
Defined.

(** ** Records the schema accepts *)

Lemma new_document_valid (data : Obj) id now :
  document_errors data = [] -> valid_record (new_document data id now).
Proof.
  intros He p t Hin. rewrite (new_document_get data id now p t Hin).
  pose proof (omap_nil _ _ (p, t) He Hin) as Hp. cbn [fst snd] in Hp.
  unfold path_error in Hp.
  destruct (castPath t (incoming data p t)) as [v'|] eqn:Ec; [|discriminate Hp].
  change (default JUndefined (Some v')) with v'.
  split; [exists (incoming data p t); exact Ec|].
  destruct (validatePath t p v'); [discriminate Hp | reflexivity].
Qed.

Lemma apply_updates_valid (b : Obj) sets now d :
  cast_updates (update_paths (build_updates b)) = inr sets ->
  update_errors sets = [] ->
  valid_record d -> valid_record (apply_updates sets now d).
Proof.
  intros Hc He Hd p t Hin.
  destruct (apply_updates_get sets now d p) as [E|(t' & x & Hx & E)].
  - intros ->. unfold bugSchema in Hin. cbn [In] in Hin.
    repeat (destruct Hin as [Hin|Hin]; [discriminate Hin|]). destruct Hin.
  - rewrite E. exact (Hd p t Hin).
  - rewrite E. destruct (sets_origin _ _ _ _ _ Hc Hx) as (v & Ht & _ & Hv).
    rewrite (schema_type _ _ _ Hin Ht).
    split; [exists v; exact Hv | exact (update_errors_nil _ _ _ _ He Hx)].
Qed.

Lemma castString_shape tr v x :
  castString tr v = Some x -> x = JUndefined \/ x = JNull \/ exists s, x = JStr s.
Proof.
  destruct v as [| |b|n|s|l|o]; cbn [castString]; try (intros [= <-]; eauto).
  destruct (o !! "_id") as [[| | | |[|c s]| |]|]; intros [= <-]; eauto.
Qed.

Lemma pre_save_valid now d : valid_record d -> valid_record (pre_save now d).
Proof.
  intros H p t Hin. rewrite pre_save_get; [exact (H p t Hin)|].
  intros ->. unfold bugSchema in Hin. cbn [In] in Hin.
  repeat (destruct Hin as [Hin|Hin]; [discriminate Hin|]). destruct Hin.
Qed.

Lemma valid_well_formed d : valid_record d -> well_formed_record d.
Proof.
  intros H.
  destruct (H "title" _ (or_introl eq_refl)) as [(v1 & C1) Ht].
  destruct (H "description" _ (or_intror (or_introl eq_refl))) as [(v2 & C2) Hd].
  destruct (H "reporter" _
              (or_intror (or_intror (or_intror (or_intror (or_introl eq_refl))))))
    as [(v3 & C3) Hr].
  cbn [castPath] in C1, C2, C3.
  apply castString_shape in C1, C2, C3.
  unfold validatePath, validateString in Ht, Hd, Hr.
  cbn [required minlength maxlength enum] in Ht, Hd, Hr.
  split; [|split].
  - destruct C1 as [E|[E|(s & E)]]; rewrite E in Ht |- *; cbv beta iota zeta in Ht;
      try discriminate Ht.
    destruct s as [|c s]; cbv beta iota zeta in Ht; [discriminate Ht|].
    exists (c :: s). split; [reflexivity|].
    destruct (length (c :: s) <? 3)%nat eqn:E1;
      destruct (200 <? length (c :: s))%nat eqn:E2;
      try (cbv in Ht; discriminate Ht).
    apply Nat.ltb_ge in E1, E2. lia.
  - destruct C2 as [E|[E|(s & E)]]; rewrite E in Hd |- *; cbv beta iota zeta in Hd;
      try discriminate Hd.
    destruct s as [|c s]; cbv beta iota zeta in Hd; [discriminate Hd|].
    exists (c :: s). split; [reflexivity|].
    destruct (length (c :: s) <? 10)%nat eqn:E1; [cbv in Hd; discriminate Hd|].
    apply Nat.ltb_ge in E1. lia.
  - destruct C3 as [E|[E|(s & E)]]; rewrite E in Hr |- *; cbv beta iota zeta in Hr;
      try discriminate Hr.
    destruct s as [|c s]; cbv beta iota zeta in Hr; [discriminate Hr|]. exists (c :: s).
    split; [reflexivity | discriminate].
Qed.

(** X21.  No request leaves a record that the schema's validators would
    reject: if every record of the collection passes the validators of
    every path, every record does after the request.  In particular every
    record then has a title of 3 to 200 code units, a description of at
    least 10 and a reporter that is not empty. *)
Theorem stored_records_stay_valid (req : Request) (w : World) :
  Forall valid_record (collection w) ->
  Forall valid_record (collection (snd (handle req w)))
  /\ Forall well_formed_record (collection (snd (handle req w))).
Proof.
  intros Hw.
  assert (H : Forall valid_record (collection (snd (handle req w)))).
  { revert Hw. apply (change_Forall valid_record req w _ (handle_change req w)).
    - intros b id now later He. exact (pre_save_valid _ _ (new_document_valid _ id now He)).
    - intros b sets now d Hc He. exact (apply_updates_valid b sets now d Hc He). }
  split; [exact H|]. eapply Forall_impl; [exact H|]. exact valid_well_formed.
Qed.

Lemma stored_records_stay_valid_witness :
  Forall valid_record (collection (snd (handle (request POST Root ∅ login_bug) empty_world)))
  /\ Forall well_formed_record
       (collection (snd (handle (request POST Root ∅ login_bug) empty_world))).
Proof.
  apply (stored_records_stay_valid (request POST Root ∅ login_bug) empty_world).
  constructor.
Defined.

(** ** The form of the success answers *)

Ltac answers_done :=
  cbn [fst snd calls collection enter set_collection next_serial pass length];
  intros st json Hr;
  try discriminate Hr;
  injection Hr as <- <-;
  (split; [reflexivity|]);
  (split; [unfold obj, get; cbn [list_to_map foldr]; rewrite lookup_insert_eq; reflexivity|]);
  lia.

Lemma getBugById_answers : answers getBugById 200%Z.
Proof.
  intros r w.
  unfold getBugById, try_catch, mbind, M_bind, Bug_findById, storage, mret, M_ret, forward,
    not_found.
  storage_cases; answers_done.
Qed.

Lemma getAllBugs_answers : answers getAllBugs 200%Z.
Proof.
  intros r w.
  unfold getAllBugs, try_catch, mbind, M_bind, Bug_find, storage, mret, M_ret, forward.
  cbv zeta. storage_cases; answers_done.
Qed.

Lemma getBugStats_answers : answers getBugStats 200%Z.
Proof.
  intros r w.
  unfold getBugStats, try_catch, mbind, M_bind, Bug_aggregate, storage, mret, M_ret, forward.
  storage_cases; answers_done.
Qed.

Lemma createBug_answers : answers createBug 201%Z.
Proof.
  intros r w.
  unfold createBug, try_catch, mbind, M_bind, Bug_create, storage, mret, M_ret, forward.
  cbv zeta. storage_cases; answers_done.
Qed.

Lemma deleteBug_answers : answers deleteBug 200%Z.
Proof.
  intros r w.
  unfold deleteBug, try_catch, mbind, M_bind, Bug_findById, Bug_findByIdAndDelete, storage,
    mret, M_ret, forward, not_found.
  storage_cases; answers_done.
Qed.

Lemma updateBug_answers : answers updateBug 200%Z.
Proof.
  intros r w.
  unfold updateBug, try_catch, mbind, M_bind, Bug_findById, Bug_findByIdAndUpdate, storage,
    mret, M_ret, forward, throw, not_found.
  cbv zeta. storage_cases; answers_done.
Qed.

Lemma controller_of_answers m :
  answers (controller_of m) (match m with POST => 201 | _ => 200 end)%Z.
Proof.
  destruct m; cbn [controller_of];
    [apply getBugById_answers | apply createBug_answers | apply updateBug_answers
    | apply deleteBug_answers].
Qed.

Lemma answers_handle (c : Request -> M Outcome) code r req w st json :
  answers c code ->
  handle req w = match c r w with
                 | (Ok o, w') => (o, w')
                 | (Throw e, w') => (Next (Some (Thrown e)), w')
                 end ->
  fst (handle req w) = Respond st json ->
  st = code /\ get json "success" = JBool true /\ 1 <= calls_made req w.
Proof.
  intros Ha Hh Hr. unfold calls_made. rewrite Hh in Hr |- *.
  specialize (Ha r w st json).
  destruct (c r w) as [[o|e] w']; cbn [fst snd] in *; [|discriminate Hr].
  subst o. destruct (Ha eq_refl) as (H1 & H2 & H3).
  split; [exact H1 | split; [exact H2 | lia]].
Qed.

(** X22.  Every success answer of the interface has the same form: it
    carries [success: true]; its status is 201 for a create and 200 for
    anything else; it is given only to a request that the validation
    rules accept and only after the storage layer has been called. *)
Theorem success_answers (req : Request) (w : World) (st : Z) (json : Obj) :
  fst (handle req w) = Respond st json ->
  get json "success" = JBool true
  /\ st = match method req with POST => 201%Z | _ => 200%Z end
  /\ violations req = []
  /\ 1 <= calls_made req w.
Proof.
  intros Hr.
  destruct (decide (rules_of (method req) (path req) = [])) as [Hn|Hn].
  - assert (Hv : violations req = []) by (unfold violations; rewrite Hn; reflexivity).
    destruct (method req) eqn:Hm, (path req) as [|seg] eqn:Hp; cbn [rules_of] in Hn;
      try discriminate Hn;
      try (exfalso; revert Hr; unfold handle; rewrite Hm, Hp; cbn [router fst];
           discriminate).
    + destruct (answers_handle getAllBugs 200%Z (routed req) req w st json
                  getAllBugs_answers) as (H1 & H2 & H3); [|exact Hr|].
      * apply handle_no_rules. rewrite Hm, Hp. reflexivity.
      * tauto.
    + destruct (is_stats seg) eqn:Es; [|discriminate Hn].
      destruct (answers_handle getBugStats 200%Z (routed req) req w st json
                  getBugStats_answers) as (H1 & H2 & H3); [|exact Hr|].
      * apply handle_no_rules. rewrite Hm, Hp. cbn [router]. rewrite Es. reflexivity.
      * tauto.
  - destruct (violations req) as [|m ms] eqn:Hv.
    + destruct (answers_handle (controller_of (method req)) _ (validated req) req w st json
                  (controller_of_answers _)) as (H1 & H2 & H3); [|exact Hr|].
      * rewrite (handle_validated req w Hn), Hv. reflexivity.
      * tauto.
    + exfalso. rewrite handle_rejected in Hr by (rewrite Hv; discriminate).
      discriminate Hr.
Qed.

Lemma success_answers_witness :
  get (obj [("success", JBool true); ("data", JObj (formatBugResponse stored_bug))]) "success"
  = JBool true
  /\ 201%Z = match method (request POST Root ∅ login_bug) with POST => 201%Z | _ => 200%Z end
  /\ violations (request POST Root ∅ login_bug) = []
  /\ 1 <= calls_made (request POST Root ∅ login_bug) empty_world.
Proof.
  apply (success_answers (request POST Root ∅ login_bug) empty_world 201
           (obj [("success", JBool true); ("data", JObj (formatBugResponse stored_bug))])).
  vm_compute; reflexivity.
Defined.

(** ** Round trips *)

Lemma hex_length d : forall n, length (hex d n) = d.
Proof.
  induction d as [|d IH]; intros n; cbn [hex]; [reflexivity|].
  rewrite length_app, IH. simpl. lia.
Qed.

Lemma hex_digit_spec k :
  (k < 16)%N -> is_hex (hex_digit k) = true /\ lower_hex (hex_digit k) = hex_digit k.
Proof.
  intros Hk. unfold is_hex, lower_hex, hex_digit.
  destruct (N.ltb_spec k 10) as [H|H].
  - assert ((48 <=? 48 + k) = true /\ (48 + k <=? 57) = true /\ (65 <=? 48 + k) = false)%N
      as (-> & -> & ->)
      by (repeat split; [apply N.leb_le | apply N.leb_le | apply N.leb_gt]; lia).
    split; reflexivity.
  - assert ((97 <=? 87 + k) = true /\ (87 + k <=? 102) = true /\ (87 + k <=? 70) = false)%N
      as (-> & -> & E)
      by (repeat split; [apply N.leb_le | apply N.leb_le | apply N.leb_gt]; lia).
    rewrite E, andb_false_r. split; [apply orb_true_r | reflexivity].
Qed.

Lemma hex_spec d : forall n,
  forallb is_hex (hex d n) = true /\ List.map lower_hex (hex d n) = hex d n.
Proof.
  induction d as [|d IH]; intros n; cbn [hex]; [split; reflexivity|].
  destruct (IH (n / 16)%N) as [H1 H2].
  destruct (hex_digit_spec (n mod 16)%N) as [H3 H4]; [apply N.mod_lt; discriminate|].
  split.
  - rewrite forallb_app, H1. cbn [forallb]. rewrite H3. reflexivity.
  - rewrite List.map_app, H2. cbn [List.map]. rewrite H4. reflexivity.
Qed.

(** The identifiers the store gives are well formed and in lower case. *)
Lemma objectId_spec n :
  isObjectIdSyntax (objectId n) = true /\ List.map lower_hex (objectId n) = objectId n.
Proof.
  unfold isObjectIdSyntax, objectId. rewrite hex_length.
  destruct (hex_spec 24 n) as [H1 H2]. rewrite H1. split; [reflexivity | exact H2].
Qed.

Lemma handle_found req w id d :
  method req = GET -> path req = Segment id ->
  isObjectIdSyntax id = true ->
  served w ->
  List.find (has_id (List.map lower_hex id)) (collection w) = Some d ->
  handle req w
  = (Respond 200 (obj [("success", JBool true); ("data", JObj (formatBugResponse d))]),
     enter (FindById (JStr id)) w).
Proof.
  intros Hm Hp Hs Hserved Hf.
  assert (Hreq : id_request req id) by (apply well_formed_id_request; tauto).
  rewrite (handle_validated req w (id_request_has_rules req id Hreq)).
  rewrite (id_only_violations req id Hreq) by (congruence || assumption).
  rewrite Hm. cbn [controller_of].
  unfold getBugById, try_catch, mbind, M_bind. rewrite (validated_id req id Hreq).
  unfold Bug_findById. rewrite (storage_served _ _ _ Hserved).
  cbn [castObjectId]. rewrite Hs. cbn [collection enter]. rewrite Hf. reflexivity.
Qed.

Lemma handle_absent req w id :
  method req = GET -> path req = Segment id ->
  isObjectIdSyntax id = true ->
  served w ->
  List.find (has_id (List.map lower_hex id)) (collection w) = None ->
  handle req w = (not_found, enter (FindById (JStr id)) w).
Proof.
  intros Hm Hp Hs Hserved Hf.
  assert (Hreq : id_request req id) by (apply well_formed_id_request; tauto).
  rewrite (handle_validated req w (id_request_has_rules req id Hreq)).
  rewrite (id_only_violations req id Hreq) by (congruence || assumption).
  rewrite (controller_absent (method req) (validated req) id w);
    [reflexivity | congruence | exact (validated_id req id Hreq) | exact Hserved
    | exact Hs | exact Hf].
Qed.

Lemma new_document_id (data : Obj) id now : get (new_document data id now) "_id" = JStr id.
Proof.
  unfold get. rewrite new_document_stamp; [reflexivity|].
  cbn. intuition discriminate.
Qed.

Lemma has_id_same id d :
  isObjectIdSyntax id = true -> get d "_id" = JStr id -> has_id id d = true.
Proof.
  intros Hs H. unfold has_id. rewrite Hs, H. cbn [strict_eq andb].
  apply bool_decide_eq_true. reflexivity.
Qed.

(** X23.  What is created can be read back: after a create request that
    succeeds, a get request for the identifier of the new record, if the
    storage layer serves it and no older record bears that identifier,
    is answered with status 200 and the very data the create request was
    answered with. *)
Theorem create_then_get (req get_req : Request) (w : World) :
  method req = POST -> path req = Root ->
  violations req = [] ->
  served w ->
  document_errors (bugData (body (validated req))) = [] ->
  List.find (has_id (objectId (serial w))) (collection w) = None ->
  method get_req = GET -> path get_req = Segment (objectId (serial w)) ->
  served (snd (handle req w)) ->
  exists data,
    fst (handle req w) = Respond 201 (obj [("success", JBool true); ("data", data)])
    /\ fst (handle get_req (snd (handle req w)))
       = Respond 200 (obj [("success", JBool true); ("data", data)])
    /\ exists record, data = JObj record /\ get record "id" = JStr (objectId (serial w)).
Proof.
  intros Hm Hp Hv Hs He Hfresh Hgm Hgp Hs'.
  assert (Hr : rules_of (method req) (path req) <> []) by (rewrite Hm, Hp; discriminate).
  rewrite (handle_validated req w Hr), Hv, Hm in Hs' |- *. cbn [controller_of] in Hs' |- *.
  rewrite (createBug_served _ w Hs He) in Hs' |- *. cbv zeta in Hs' |- *.
  cbn [fst snd] in Hs' |- *.
  set (d := pre_save (clock w + 1 + lag w)
              (new_document (bugData (body (validated req))) (objectId (serial w))
                 (clock w + 1))) in *.
  assert (Hid : get d "_id" = JStr (objectId (serial w))).
  { unfold d. rewrite pre_save_get by discriminate. apply new_document_id. }
  destruct (objectId_spec (serial w)) as [Hsyn Hlow].
  exists (JObj (formatBugResponse d)). split; [reflexivity|]. split.
  - rewrite (handle_found get_req _ (objectId (serial w)) d Hgm Hgp Hsyn Hs'); [reflexivity|].
    rewrite Hlow. cbn [collection next_serial set_collection pass enter].
    rewrite (find_app_none _ _ _ Hfresh). cbn [List.find].
    rewrite (has_id_same _ d Hsyn Hid). reflexivity.
  - exists (formatBugResponse d). split; [reflexivity|].
    unfold formatBugResponse. unfold get at 1. rewrite lookup_insert_eq.
    exact Hid.
Qed.

Lemma create_then_get_witness :
  exists data,
    fst (handle (request POST Root ∅ login_bug) empty_world)
    = Respond 201 (obj [("success", JBool true); ("data", data)])
    /\ fst (handle (request GET (Segment (objectId (serial empty_world))) ∅ ∅)
              (snd (handle (request POST Root ∅ login_bug) empty_world)))
       = Respond 200 (obj [("success", JBool true); ("data", data)])
    /\ exists record, data = JObj record
                      /\ get record "id" = JStr (objectId (serial empty_world)).
Proof.
  apply (create_then_get (request POST Root ∅ login_bug)
           (request GET (Segment (objectId (serial empty_world))) ∅ ∅) empty_world).
  - reflexivity.
  - reflexivity.
  - vm_compute; reflexivity.
  - exact I.
  - vm_compute; reflexivity.
  - reflexivity.
  - reflexivity.
  - reflexivity.
  - vm_compute; exact I.
Defined.

Lemma handle_deleted req w id d :
  method req = DELETE -> path req = Segment id ->
  isObjectIdSyntax id = true ->
  served w -> served (enter (FindById (JStr id)) w) ->
  List.find (has_id (List.map lower_hex id)) (collection w) = Some d ->
  exists c',
    remove_first (has_id (List.map lower_hex id)) (collection w) = Some (d, c')
    /\ handle req w
       = (Respond 200 (obj [("success", JBool true);
                            ("message", JStr (js "Bug deleted successfully"))]),
          set_collection c'
            (enter (FindByIdAndDelete (JStr id)) (enter (FindById (JStr id)) w))).
Proof.
  intros Hm Hp Hs Hs1 Hs2 Hf.
  assert (Hreq : id_request req id) by (apply well_formed_id_request; tauto).
  rewrite (handle_validated req w (id_request_has_rules req id Hreq)).
  rewrite (id_only_violations req id Hreq) by (congruence || assumption).
  rewrite Hm. cbn [controller_of].
  unfold deleteBug, try_catch, mbind, M_bind. rewrite (validated_id req id Hreq).
  unfold Bug_findById. rewrite (storage_served _ _ _ Hs1).
  cbn [castObjectId]. rewrite Hs. cbn [collection enter]. rewrite Hf.
  unfold Bug_findByIdAndDelete. rewrite (storage_served _ _ _ Hs2).
  cbn [castObjectId]. rewrite Hs. cbn [collection enter].
  destruct (find_remove_first _ _ _ Hf) as (l1 & l2 & Hl & Hr & Hn).
  rewrite Hr. exists (l1 ++ l2). split; reflexivity.
Qed.

Lemma find_none_filter {A} (p : A -> bool) l : List.filter p l = [] -> List.find p l = None.
Proof.
  induction l as [|x l IH]; cbn [List.filter List.find]; [reflexivity|].
  destruct (p x); [discriminate | exact IH].
Qed.

Lemma remove_only (p : Obj -> bool) l d l' :
  remove_first p l = Some (d, l') ->
  length (List.filter p l) = 1 ->
  List.find p l' = None.
Proof.
  intros Hr Hone. destruct (remove_first_spec _ _ _ _ Hr) as (l1 & l2 & -> & -> & Hd & Hl1).
  apply find_none_filter. rewrite List.filter_app in Hone |- *.
  cbn [List.filter] in Hone. rewrite Hd in Hone. rewrite length_app in Hone. simpl in Hone.
  assert (H1 : List.filter p l1 = []) by (destruct (List.filter p l1); [reflexivity | simpl in Hone; lia]).
  assert (H2 : List.filter p l2 = []) by (destruct (List.filter p l2); [reflexivity | simpl in Hone; lia]).
  rewrite H1, H2. reflexivity.
Qed.

(** X24.  What is deleted is gone: after a delete request that succeeds on
    an identifier that one record bears, a get request for that
    identifier, if the storage layer serves it, is answered "Bug not
    found" with status 404. *)
Theorem delete_then_get (req get_req : Request) (w : World) (id : jsstring) :
  method req = DELETE -> path req = Segment id ->
  isObjectIdSyntax id = true ->
  served w -> served (enter (FindById (JStr id)) w) ->
  length (List.filter (has_id (List.map lower_hex id)) (collection w)) = 1 ->
  method get_req = GET -> path get_req = Segment id ->
  served (snd (handle req w)) ->
  fst (handle req w)
  = Respond 200 (obj [("success", JBool true);
                      ("message", JStr (js "Bug deleted successfully"))])
  /\ fst (handle get_req (snd (handle req w)))
     = Next (Some (AppError (js "Bug not found") 404)).
Proof.
  intros Hm Hp Hs Hs1 Hs2 Hone Hgm Hgp Hs3.
  assert (Hf : exists d, List.find (has_id (List.map lower_hex id)) (collection w) = Some d).
  { destruct (List.find _ (collection w)) as [d|] eqn:E; [exists d; reflexivity|].
    exfalso. assert (List.filter (has_id (List.map lower_hex id)) (collection w) = []) as E'.
    { clear - E. induction (collection w) as [|x l IH]; [reflexivity|].
      cbn [List.find List.filter] in E |- *.
      destruct (has_id _ x); [discriminate E | exact (IH E)]. }
    rewrite E' in Hone. discriminate Hone. }
  destruct Hf as (d & Hf).
  destruct (handle_deleted req w id d Hm Hp Hs Hs1 Hs2 Hf) as (c' & Hr & Hh).
  rewrite Hh in Hs3 |- *. cbn [fst snd] in Hs3 |- *.
  split; [reflexivity|].
  rewrite (handle_absent get_req _ id Hgm Hgp Hs Hs3).
  - reflexivity.
  - cbn [collection set_collection]. exact (remove_only _ _ _ _ Hr Hone).
Qed.

Lemma delete_then_get_witness :
  fst (handle (request DELETE (Segment stored_id) ∅ ∅) one_bug_world)
  = Respond 200 (obj [("success", JBool true);
                      ("message", JStr (js "Bug deleted successfully"))])
  /\ fst (handle (request GET (Segment stored_id) ∅ ∅)
            (snd (handle (request DELETE (Segment stored_id) ∅ ∅) one_bug_world)))
     = Next (Some (AppError (js "Bug not found") 404)).
Proof.
  apply (delete_then_get (request DELETE (Segment stored_id) ∅ ∅)
           (request GET (Segment stored_id) ∅ ∅) one_bug_world stored_id).
  - reflexivity.
  - reflexivity.
  - vm_compute; reflexivity.
  - exact I.
  - exact I.
  - vm_compute; reflexivity.
  - reflexivity.
  - reflexivity.
  - vm_compute; exact I.
Defined.

(** ** The totals of the statistics *)

Lemma add_to_group_total v groups : total (add_to_group v groups) = (total groups + 1)%Z.
Proof.
  unfold total. induction groups as [|[g n] r IH]; cbn [add_to_group]; [reflexivity|].
  destruct (strict_eq g v); cbn [List.map foldr snd] in *; [lia | rewrite IH; lia].
Qed.

Lemma group_count_total path docs :
  total (group_count path docs) = Z.of_nat (length docs).
Proof.
  unfold group_count.
  assert (H : forall acc,
             total (fold_left (fun groups doc => add_to_group (group_key doc path) groups)
                              docs acc)
             = (total acc + Z.of_nat (length docs))%Z).
  { induction docs as [|d docs IH]; intros acc; cbn [fold_left length]; [lia|].
    rewrite IH, add_to_group_total. lia. }
  rewrite H. reflexivity.
Qed.

(** X25.  The statistics account for every record once: when the storage
    layer serves the two calls, the counts of [byStatus] add up to the
    number of records of the collection, and so do the counts of
    [byPriority]. *)
Theorem stats_totals (req : Request) (w : World) :
  method req = GET -> path req = Segment (js "stats") ->
  served w -> served (enter (Aggregate "status") w) ->
  exists byStatus byPriority,
    fst (handle req w)
    = Respond 200
        (obj [("success", JBool true);
              ("data", JObj (obj [("byStatus", JArr (List.map group_object byStatus));
                                  ("byPriority", JArr (List.map group_object byPriority))]))])
    /\ total byStatus = Z.of_nat (length (collection w))
    /\ total byPriority = Z.of_nat (length (collection w)).
Proof.
  intros Hm Hp Hs1 Hs2.
  rewrite (handle_no_rules req w getBugStats) by (rewrite Hm, Hp; reflexivity).
  rewrite (getBugStats_served _ w Hs1 Hs2). cbn [fst].
  exists (group_count "status" (collection w)), (group_count "priority" (collection w)).
  split; [reflexivity|]. split; apply group_count_total.
Qed.

Lemma stats_totals_witness :
  exists byStatus byPriority,
    fst (handle (request GET (Segment (js "stats")) ∅ ∅) one_bug_world)
    = Respond 200
        (obj [("success", JBool true);
              ("data", JObj (obj [("byStatus", JArr (List.map group_object byStatus));
                                  ("byPriority", JArr (List.map group_object byPriority))]))])
    /\ total byStatus = Z.of_nat (length (collection one_bug_world))
    /\ total byPriority = Z.of_nat (length (collection one_bug_world)).
Proof.
  apply (stats_totals (request GET (Segment (js "stats")) ∅ ∅) one_bug_world).
  - reflexivity.
  - reflexivity.
  - exact I.
  - exact I.
Defined.
